(** * Turso node for n8n: statement building and result shaping

    A shallow embedding of the [execute] methods of the two Turso node
    classes of the repository:

    - the eight-operation node (executeQuery, executeBatch, insertRows,
      updateRows, deleteRows, selectRows, listTables, describeTable), with
      its helper [handleDatabaseError];
    - the two-operation node of [nodes/Turso/Turso.node.ts] (executeQuery and
      executeBatch only), in [Module NodesTurso].

    Conventions of the embedding.

    - A JavaScript string is a [string]; each [ascii] stands for one code
      unit in the range 0..255.
    - A JavaScript number is a [JsNumber]: how it compares with zero and the
      text a template literal gives it; lengths and indices are [nat].
    - JSON data is a [JsVal]; an object is the list of its own properties in
      insertion order, and a property read that finds no own property goes
      to the built-in prototype of the value.
    - [client.execute] is an arbitrary function of the statements submitted
      so far and of the statement submitted now; every call is recorded in a
      trace.  A computation is a function from the trace before it to its
      outcome (a thrown error or a value) and the trace after it.
    - The host is taken as the package [n8n-workflow] has it: the helpers
      that read the parameters and wrap the response are parameters of the
      embedding, and its error class, which rewrites some messages, is
      [nodeOperationError]. *)

From Stdlib Require Import String Ascii List Arith Bool Lia.
From Stdlib Require Import DecimalString.
Import ListNotations.
Local Open Scope list_scope.
Local Open Scope string_scope.

(* ===================================================================== *)
(** ** Strings *)
(* ===================================================================== *)

Module Js.

(** White space and line terminators removed by [String.prototype.trim],
    among the code units 0..255: TAB, LF, VT, FF, CR, SPACE, NBSP. *)
Definition is_white_space (c : ascii) : bool :=
  let n := nat_of_ascii c in
  Nat.eqb n 9 || Nat.eqb n 10 || Nat.eqb n 11 || Nat.eqb n 12
  || Nat.eqb n 13 || Nat.eqb n 32 || Nat.eqb n 160.

Fixpoint trim_start (s : string) : string :=
  match s with
  | EmptyString => EmptyString
  | String c rest => if is_white_space c then trim_start rest else s
  end.

(** [trim_end s] drops the trailing white space: a character is kept when
    it is not white space or when something is kept after it. *)
Fixpoint trim_end (s : string) : string :=
  match s with
  | EmptyString => EmptyString
  | String c rest =>
      match trim_end rest with
      | EmptyString => if is_white_space c then EmptyString else String c EmptyString
      | kept => String c kept
      end
  end.

(** [s.trim()] *)
Definition trim (s : string) : string := trim_end (trim_start s).

(** [!s || s.trim() === ''] for a string [s]. *)
Definition blank (s : string) : bool :=
  (s =? "") || (trim s =? "").

(** [parts.join(sep)] *)
Fixpoint join (sep : string) (parts : list string) : string :=
  match parts with
  | [] => ""
  | [p] => p
  | p :: rest => p ++ sep ++ join sep rest
  end.

(** [s.split(',')], for a one-character separator: the pieces between the
    separators, empty pieces included. *)
Fixpoint split_on (sep : ascii) (s : string) : list string :=
  match s with
  | EmptyString => [EmptyString]
  | String c rest =>
      if Ascii.eqb c sep then EmptyString :: split_on sep rest
      else match split_on sep rest with
           | [] => [String c EmptyString]
           | p :: ps => String c p :: ps
           end
  end.

(** [s.includes(needle)] *)
Fixpoint includes (needle s : string) : bool :=
  String.prefix needle s
  || match s with
     | EmptyString => false
     | String _ rest => includes needle rest
     end.

(** The decimal digits of a length or an index. *)
Definition nat_to_string (n : nat) : string :=
  NilZero.string_of_uint (Nat.to_uint n).

(** [s.toUpperCase()] on the code units 0..255: the letters a-z and the
    accented small letters go to their capitals, the sharp s to [SS]; the
    two letters whose capital lies outside the range (the micro sign and
    the y with diaeresis) are kept. *)
Definition upper_char (c : ascii) : string :=
  let n := nat_of_ascii c in
  if Nat.leb 97 n && Nat.leb n 122 then String (ascii_of_nat (n - 32)) EmptyString
  else if Nat.eqb n 223 then "SS"
  else if Nat.leb 224 n && Nat.leb n 254 && negb (Nat.eqb n 247)
       then String (ascii_of_nat (n - 32)) EmptyString
  else String c EmptyString.

Fixpoint to_upper (s : string) : string :=
  match s with
  | EmptyString => EmptyString
  | String c rest => upper_char c ++ to_upper rest
  end.

(** [xs.slice(a, b)] for [0 <= a <= b]. *)
Definition slice {A : Type} (xs : list A) (a b : nat) : list A :=
  firstn (b - a) (skipn a xs).

End Js.

(* ===================================================================== *)
(** ** JSON values, statements and raw results *)
(* ===================================================================== *)

(** A number, as far as the code looks at one: how it compares with zero
    ([NaN] compares false with everything) and the text a template literal
    gives it ([10], [2.5], [1e+21], [NaN], [Infinity]). *)
Inductive NumberSign : Type := Negative | Zero | Positive | NotANumber.

Record JsNumber : Type := { number_sign : NumberSign; number_text : string }.

Module Num.

(** The number of a length, a count or an index. *)
Definition of_nat (n : nat) : JsNumber :=
  {| number_sign := if Nat.eqb n 0 then Zero else Positive;
     number_text := Js.nat_to_string n |}.

(** [x <= 0] *)
Definition le_zero (x : JsNumber) : bool :=
  match number_sign x with
  | Negative | Zero => true
  | Positive | NotANumber => false
  end.

(** [x > 0] *)
Definition gt_zero (x : JsNumber) : bool :=
  match number_sign x with
  | Positive => true
  | Negative | Zero | NotANumber => false
  end.

(** Truthiness of a number: neither zero nor [NaN]. *)
Definition truthy (x : JsNumber) : bool :=
  match number_sign x with
  | Positive | Negative => true
  | Zero | NotANumber => false
  end.

End Num.

Coercion Num.of_nat : nat >-> JsNumber.

(** The built-in prototypes a JSON value can inherit from. *)
Inductive Proto : Type :=
| ObjectProto | ArrayProto | StringProto | NumberProto | BooleanProto.

(** A value: JSON data, [undefined], and what a property read can find up
    the prototype chain, a built-in prototype object (under [__proto__])
    or one of its members, a function. *)
#[warnings="-register-all"]
Inductive JsVal : Type :=
| JUndefined
| JNull
| JBool (b : bool)
| JNum (x : JsNumber)
| JStr (s : string)
| JArr (elements : list JsVal)
| JObj (properties : list (string * JsVal))
| JProto (p : Proto)
| JMember (owner : Proto) (name : string).

(** What can be thrown.  [NodeOperationError] is the host's error class,
    with the message, item index and description the thrown object has;
    [LibsqlError] is the database client's; both are instances of [Error]. *)
Inductive JsError : Type :=
| NodeOperationError (message : string) (itemIndex : option nat)
                     (description : option string)
| LibsqlError (message : string) (code : string)
| OtherError (message : string)
| NotAnError.

(** [{ sql, args }], the argument of [client.execute]. *)
Record Statement : Type := { sql : string; args : list JsVal }.

(** A column descriptor of a raw result: a plain string, or an object with
    a [name] property. *)
Inductive Column : Type :=
| ColumnString (s : string)
| ColumnObject (name : string).

(** The value [client.execute] resolves to; [None] is an absent
    ([undefined]) field. *)
Record RawResult : Type := {
  columns : option (list Column);
  rows : option (list JsVal);
  rowsAffected : option JsNumber;
  lastInsertRowid : option JsVal
}.

(** [{ json }], an item of the host's input data. *)
Record NodeExecutionData : Type := { json : list (string * JsVal) }.

Definition dquote : string := String (ascii_of_nat 34) EmptyString.
Definition squote : string := String (ascii_of_nat 39) EmptyString.

(** Own-property lookup in an object. *)
Fixpoint lookup (name : string) (properties : list (string * JsVal)) : option JsVal :=
  match properties with
  | [] => None
  | (k, v) :: rest => if k =? name then Some v else lookup name rest
  end.

Definition or_undefined (o : option JsVal) : JsVal :=
  match o with
  | Some v => v
  | None => JUndefined
  end.

(** The index [i < len] whose canonical decimal form is [name], if any. *)
Definition index_of_key (name : string) (len : nat) : option nat :=
  find (fun i => Js.nat_to_string i =? name) (seq 0 len).

Definition nullish_name (v : JsVal) : string :=
  match v with
  | JNull => "null"
  | _ => "undefined"
  end.

(** The names of the members of the built-in prototypes, [__proto__] apart
    (ECMAScript 2023 with the well-formed string methods). *)
Definition proto_members (p : Proto) : list string :=
  match p with
  | ObjectProto =>
      [ "constructor"; "__defineGetter__"; "__defineSetter__"; "hasOwnProperty";
        "__lookupGetter__"; "__lookupSetter__"; "isPrototypeOf";
        "propertyIsEnumerable"; "toString"; "valueOf"; "toLocaleString" ]
  | ArrayProto =>
      [ "constructor"; "at"; "concat"; "copyWithin"; "fill"; "find"; "findIndex";
        "findLast"; "findLastIndex"; "lastIndexOf"; "pop"; "push"; "reverse";
        "shift"; "unshift"; "slice"; "sort"; "splice"; "includes"; "indexOf";
        "join"; "keys"; "entries"; "values"; "forEach"; "filter"; "flat";
        "flatMap"; "map"; "every"; "some"; "reduce"; "reduceRight"; "toReversed";
        "toSorted"; "toSpliced"; "with"; "toLocaleString"; "toString" ]
  | StringProto =>
      [ "constructor"; "anchor"; "at"; "big"; "blink"; "bold"; "charAt";
        "charCodeAt"; "codePointAt"; "concat"; "endsWith"; "fontcolor"; "fontsize";
        "fixed"; "includes"; "indexOf"; "isWellFormed"; "italics"; "lastIndexOf";
        "link"; "localeCompare"; "match"; "matchAll"; "normalize"; "padEnd";
        "padStart"; "repeat"; "replace"; "replaceAll"; "search"; "slice"; "small";
        "split"; "strike"; "sub"; "substr"; "substring"; "sup"; "startsWith";
        "toString"; "toWellFormed"; "trim"; "trimStart"; "trimLeft"; "trimEnd";
        "trimRight"; "toLocaleLowerCase"; "toLocaleUpperCase"; "toLowerCase";
        "toUpperCase"; "valueOf" ]
  | NumberProto =>
      [ "constructor"; "toExponential"; "toFixed"; "toPrecision"; "toString";
        "valueOf"; "toLocaleString" ]
  | BooleanProto => [ "constructor"; "toString"; "valueOf" ]
  end.

Definition is_member (p : Proto) (name : string) : bool :=
  existsb (String.eqb name) (proto_members p).

(** What a read of [name] finds on a value whose prototype is [p] when the
    value has no own property of that name: the prototype under
    [__proto__], a member of the prototype, a member of [Object.prototype]
    behind it, or nothing. *)
Definition inherited (p : Proto) (name : string) : JsVal :=
  if name =? "__proto__" then JProto p
  else if is_member p name then JMember p name
  else if is_member ObjectProto name then JMember ObjectProto name
  else JUndefined.

(** [object[name]] for a plain object with the own properties
    [properties]. *)
Definition read_object (properties : list (string * JsVal)) (name : string) : JsVal :=
  match lookup name properties with
  | Some v => v
  | None => inherited ObjectProto name
  end.

(** [prototype[name]] for a built-in prototype object itself. *)
Definition read_proto (p : Proto) (name : string) : JsVal :=
  if name =? "__proto__" then
    match p with
    | ObjectProto => JNull
    | _ => JProto ObjectProto
    end
  else if is_member p name then JMember p name
  else
    match p with
    | ObjectProto => JUndefined
    | ArrayProto | StringProto =>
        if name =? "length" then JNum 0
        else if is_member ObjectProto name then JMember ObjectProto name
        else JUndefined
    | NumberProto | BooleanProto =>
        if is_member ObjectProto name then JMember ObjectProto name
        else JUndefined
    end.

(** [v[name]]: reading a property of [undefined] or [null] throws a
    [TypeError]; objects, arrays and strings answer with their own
    properties and everything else comes from the prototype of the value.
    The code never reads a property of a function; such a read is left as
    [undefined]. *)
Definition get_prop (v : JsVal) (name : string) : JsError + JsVal :=
  match v with
  | JUndefined | JNull =>
      inl (OtherError ("Cannot read properties of " ++ nullish_name v
                       ++ " (reading " ++ squote ++ name ++ squote ++ ")"))
  | JObj properties => inr (read_object properties name)
  | JArr elements =>
      if name =? "length" then inr (JNum (length elements))
      else match index_of_key name (length elements) with
           | Some i => inr (nth i elements JUndefined)
           | None => inr (inherited ArrayProto name)
           end
  | JStr s =>
      if name =? "length" then inr (JNum (String.length s))
      else match index_of_key name (String.length s) with
           | Some i => inr (JStr (String.substring i 1 s))
           | None => inr (inherited StringProto name)
           end
  | JBool _ => inr (inherited BooleanProto name)
  | JNum _ => inr (inherited NumberProto name)
  | JProto p => inr (read_proto p name)
  | JMember _ _ => inr JUndefined
  end.

(* ===================================================================== *)
(** ** Computations: errors and the trace of submitted statements *)
(* ===================================================================== *)

Definition Trace : Type := list Statement.

(** [client.execute], as a function of the statements submitted before and
    of the statement submitted now. *)
Definition Client : Type := Trace -> Statement -> JsError + RawResult.

Definition Exec (A : Type) : Type := Trace -> (JsError + A) * Trace.

Definition ret {A : Type} (a : A) : Exec A := fun tr => (inr a, tr).

Definition throw {A : Type} (e : JsError) : Exec A := fun tr => (inl e, tr).

Definition bind {A B : Type} (m : Exec A) (k : A -> Exec B) : Exec B :=
  fun tr =>
    match m tr with
    | (inl e, tr') => (inl e, tr')
    | (inr a, tr') => k a tr'
    end.

(** [try { m } catch (error) { handler }]: the statements submitted by [m]
    stay submitted. *)
Definition try_catch {A : Type} (m : Exec A) (handler : JsError -> Exec A) : Exec A :=
  fun tr =>
    match m tr with
    | (inl e, tr') => handler e tr'
    | (inr a, tr') => (inr a, tr')
    end.

(** A computation that makes no call: a validation step. *)
Definition lift {A : Type} (r : JsError + A) : Exec A := fun tr => (r, tr).

(** [await client.execute(st)] *)
Definition client_execute (client : Client) (st : Statement) : Exec RawResult :=
  fun tr => (client tr st, (tr ++ [st])%list).

Declare Scope exec_scope.
Delimit Scope exec_scope with exec.
Notation "x <- m ;; k" := (bind m (fun x => k))
  (at level 100, m at next level, right associativity) : exec_scope.
Local Open Scope exec_scope.

(** The error monad of the steps that make no call. *)
Definition bind_err {A B : Type} (r : JsError + A) (k : A -> JsError + B) : JsError + B :=
  match r with
  | inl e => inl e
  | inr a => k a
  end.

(** [xs.map(f)] where [f] may throw: the first exception ends the map. *)
Fixpoint map_err {A B : Type} (f : A -> JsError + B) (xs : list A) : JsError + list B :=
  match xs with
  | [] => inr []
  | x :: rest =>
      bind_err (f x) (fun y =>
      bind_err (map_err f rest) (fun ys => inr (y :: ys)))
  end.

(* ===================================================================== *)
(** ** Node parameters *)
(* ===================================================================== *)

(** An entry [{ value }] of a fixed collection of values. *)
Record ValueItem : Type := { value : string }.

(** An entry [{ query, parameters }] of [queries.queryValues]. *)
Module Batch.
Record t : Type := { query : string; parameters : string }.
End Batch.

(** The node parameters as [getNodeParameter] returns them for one item,
    defaults applied, each under its parameter name. *)
Module Param.
Record t : Type := {
  query : string;
  queryParams : list ValueItem;      (* queryParams.params *)
  queries : list Batch.t;            (* queries.queryValues *)
  table : string;
  columns : list string;
  dataSource : string;
  valueItems : list ValueItem;       (* values.valueItems *)
  itemsPath : string;
  whereClause : string;
  whereParams : list ValueItem;      (* whereParams.params *)
  selectAllColumns : bool;
  useWhere : bool;
  whereClauseSelect : string;
  whereParamsSelect : list ValueItem; (* whereParamsSelect.params *)
  useOrderBy : bool;
  orderBy : string;
  orderDirection : string;
  useLimit : bool;
  limit : JsNumber;
  offset : JsNumber
}.
End Param.

(* ===================================================================== *)
(** ** Result shaping *)
(* ===================================================================== *)

(** The callback of [result.columns?.map(...)]. *)
Definition column_name (column : Column) : string :=
  match column with
  | ColumnString s => s
  | ColumnObject name => name
  end.

(** [result.columns?.map(column => ...) || []] *)
Definition columnNames (result : RawResult) : list string :=
  match columns result with
  | Some cols => map column_name cols
  | None => []
  end.

(** [result.rows || []] *)
Definition rows_or_empty (result : RawResult) : list JsVal :=
  match rows result with
  | Some rs => rs
  | None => []
  end.

Definition rowsAffected_val (result : RawResult) : JsVal :=
  match rowsAffected result with
  | Some n => JNum n
  | None => JUndefined
  end.

Definition lastInsertRowid_val (result : RawResult) : JsVal :=
  or_undefined (lastInsertRowid result).

(** The object built after a query or a batch entry:
    [{ columns: columnNames, rows: result.rows || [], rowsAffected,
       lastInsertRowid }]. *)
Definition processedResult (result : RawResult) : JsVal :=
  JObj [ ("columns", JArr (map JStr (columnNames result)));
         ("rows", JArr (rows_or_empty result));
         ("rowsAffected", rowsAffected_val result);
         ("lastInsertRowid", lastInsertRowid_val result) ].

(** [{ rowsAffected, lastInsertRowid }], pushed per inserted row. *)
Definition insertResult (result : RawResult) : JsVal :=
  JObj [ ("rowsAffected", rowsAffected_val result);
         ("lastInsertRowid", lastInsertRowid_val result) ].

(** [{ rowsAffected }], pushed per updated row and built by deleteRows. *)
Definition affectedResult (result : RawResult) : JsVal :=
  JObj [ ("rowsAffected", rowsAffected_val result) ].

(** [{ columns: columnNames, rows: result.rows || [] }], built by selectRows. *)
Definition selectResult (result : RawResult) : JsVal :=
  JObj [ ("columns", JArr (map JStr (columnNames result)));
         ("rows", JArr (rows_or_empty result)) ].

(** The property names of an object. *)
Definition keys (v : JsVal) : list string :=
  match v with
  | JObj properties => map fst properties
  | _ => []
  end.

(* ===================================================================== *)
(** ** handleDatabaseError *)
(* ===================================================================== *)

Definition quoted (s : string) : string := dquote ++ s ++ dquote.

(** The host's error class [NodeOperationError] (package n8n-workflow,
    version 1.82 in the dependencies) is not part of the repository.  Its constructor keeps the item index and
    the description it is given and passes the message through
    [setDescriptiveErrorMessage]: a message that contains, in any letter
    case, one of the common error codes is replaced by the text the host
    has for the first such code. *)
Module Host.

Definition common_errors : list (string * string) :=
  [ ("ECONNREFUSED", "The service refused the connection - perhaps it is offline");
    ("ECONNRESET",
     "The connection to the server was closed unexpectedly, perhaps it is offline. You can retry the request immediately or wait and retry later.");
    ("ENOTFOUND",
     "The connection cannot be established, this usually occurs due to an incorrect host (domain) value");
    ("ETIMEDOUT",
     "The connection timed out, consider setting the 'Retry on Fail' option in the node settings");
    ("ERRADDRINUSE", "The port is already occupied by some other application");
    ("EADDRNOTAVAIL",
     "The address is not available, ensure that you have the right IP address");
    ("ECONNABORTED", "The connection was aborted, perhaps the server is offline");
    ("EHOSTUNREACH", "The host is unreachable, perhaps the server is offline");
    ("EAI_AGAIN", "The DNS server returned an error, perhaps the server is offline");
    ("ENOENT", "The file or directory does not exist");
    ("EISDIR", "Illegal operation on a directory");
    ("ENOTDIR", "Not a directory");
    ("EACCES",
     "Forbidden by access permissions, make sure you have the right permissions");
    ("EEXIST", "The file or directory already exists");
    ("EPERM", "Operation not permitted, make sure you have the right permissions");
    ("GETADDRINFO", "The server closed the connection unexpectedly") ].

(** The first common error whose code the message contains. *)
Definition common_error (message : string) : option (string * string) :=
  find (fun entry => Js.includes (fst entry) (Js.to_upper message)) common_errors.

Definition descriptive_message (message : string) : string :=
  match common_error message with
  | Some (_, descriptive) => descriptive
  | None => message
  end.

End Host.

(** [new NodeOperationError(this.getNode(), message, { itemIndex, description })] *)
Definition nodeOperationError (message : string) (itemIndex : option nat)
    (description : option string) : JsError :=
  NodeOperationError (Host.descriptive_message message) itemIndex description.

(** The error [handleDatabaseError] throws for a caught [error]. *)
Definition databaseError (error : JsError) (itemIndex : nat) (operation : string) : JsError :=
  match error with
  | LibsqlError message code =>
      nodeOperationError
        ("Database error in " ++ quoted operation ++ ": " ++ message)
        (Some itemIndex)
        (Some ("Error code: " ++ (if code =? "" then "unknown" else code)))
  | NodeOperationError message _ _
  | OtherError message =>
      if Js.includes "connection" message then
        nodeOperationError
          ("Connection error: " ++ message
           ++ ". Please check your credentials and database URL.")
          (Some itemIndex) None
      else
        nodeOperationError
          ("Error in " ++ quoted operation ++ ": " ++ message)
          (Some itemIndex) None
  | NotAnError =>
      nodeOperationError ("Unknown error in " ++ quoted operation)
                         (Some itemIndex) None
  end.

Definition handleDatabaseError {A : Type}
    (error : JsError) (itemIndex : nat) (operation : string) : Exec A :=
  throw (databaseError error itemIndex operation).

(* ===================================================================== *)
(** ** The eight-operation node *)
(* ===================================================================== *)

(** [new NodeOperationError(this.getNode(), message, { itemIndex: i })] *)
Definition operationError (message : string) (i : nat) : JsError :=
  nodeOperationError message (Some i) None.

(** [parameters ? parameters.split(',').map(p => p.trim()) : []] *)
Definition batchArgs (parameters : string) : list string :=
  if parameters =? "" then [] else map Js.trim (Js.split_on ","%char parameters).

(** The loop [for (let j = 0; j < values.length; j += valuesPerRow)] that
    groups the manual values into rows; [finish] is what is pushed for a
    slice.  The loop body runs at most [values.length] times when
    [valuesPerRow >= 1], so it is run on that much fuel. *)
Fixpoint group_rows (fuel : nat) (finish : list JsVal -> list JsVal)
    (values : list JsVal) (valuesPerRow j : nat) : list (list JsVal) :=
  match fuel with
  | O => []
  | S fuel' =>
      if Nat.ltb j (length values) then
        finish (Js.slice values j (j + valuesPerRow))
          :: group_rows fuel' finish values valuesPerRow (j + valuesPerRow)
      else []
  end.

(** The [manualInput] branch of insertRows and updateRows. *)
Definition manualRows (finish : list JsVal -> list JsVal) (noValues : string)
    (columnNames : list string) (valueItems : list ValueItem) (i : nat)
    : JsError + list (list JsVal) :=
  if Nat.eqb (length valueItems) 0 then inl (operationError noValues i)
  else
    let valuesPerRow := length columnNames in
    let values := map value valueItems in
    if negb (Nat.eqb (length values mod valuesPerRow) 0) then
      inl (operationError
             ("Values count (" ++ Js.nat_to_string (length values)
              ++ ") is not a multiple of columns count ("
              ++ Js.nat_to_string valuesPerRow ++ ")") i)
    else
      inr (group_rows (length values) finish (map JStr values) valuesPerRow 0).

(** [rowData] of an input item: [item.json[itemsPath]], which must not be
    [undefined], or [item.json] itself when [itemsPath] is empty. *)
Definition rowData_of (itemsPath : string) (item : NodeExecutionData) (i : nat)
    : JsError + JsVal :=
  if itemsPath =? "" then inr (JObj (json item))
  else
    match read_object (json item) itemsPath with
    | JUndefined =>
        inl (operationError
               ("Item path " ++ squote ++ itemsPath ++ squote
                ++ " not found in input data") i)
    | rowData => inr rowData
    end.

(** [columnNames.map(name => entry[name])] *)
Definition extract_row (columnNames : list string) (entry : JsVal)
    : JsError + list JsVal :=
  map_err (get_prop entry) columnNames.

(** The rows one [rowData] contributes: one per entry of an array, one for
    an object, none for anything else.  [Array.prototype] is an array, with
    no entry; the other prototypes are objects; a function is neither. *)
Definition rows_of_rowData (finish : list JsVal -> list JsVal)
    (columnNames : list string) (rowData : JsVal) : JsError + list (list JsVal) :=
  match rowData with
  | JArr entries =>
      map_err (fun entry =>
                 bind_err (extract_row columnNames entry)
                          (fun row => inr (finish row)))
              entries
  | JProto ArrayProto => inr []
  | JObj _ | JProto _ =>
      bind_err (extract_row columnNames rowData) (fun row => inr [finish row])
  | _ => inr []
  end.

(** [for (const item of items)] of the [inputItems] branch. *)
Fixpoint inputRows (finish : list JsVal -> list JsVal) (columnNames : list string)
    (itemsPath : string) (i : nat) (items : list NodeExecutionData)
    : JsError + list (list JsVal) :=
  match items with
  | [] => inr []
  | item :: rest =>
      bind_err (rowData_of itemsPath item i) (fun rowData =>
      bind_err (rows_of_rowData finish columnNames rowData) (fun pushed =>
      bind_err (inputRows finish columnNames itemsPath i rest) (fun more =>
      inr (pushed ++ more)%list)))
  end.

(** Both branches: the rows of an insertRows or updateRows call. *)
Definition collectRows (finish : list JsVal -> list JsVal)
    (noValues noData : string) (p : Param.t) (items : list NodeExecutionData)
    (i : nat) : JsError + list (list JsVal) :=
  if Param.dataSource p =? "manualInput" then
    manualRows finish noValues (Param.columns p) (Param.valueItems p) i
  else
    bind_err (inputRows finish (Param.columns p) (Param.itemsPath p) i items)
      (fun rows =>
         if Nat.eqb (length rows) 0 then inl (operationError noData i)
         else inr rows).

(** [columnNames.map(() => '?').join(', ')] *)
Definition placeholders (columnNames : list string) : string :=
  Js.join ", " (map (fun _ => "?") columnNames).

Definition insertQuery (p : Param.t) : string :=
  "INSERT INTO " ++ Param.table p ++ " (" ++ Js.join ", " (Param.columns p)
  ++ ") VALUES (" ++ placeholders (Param.columns p) ++ ")".

(** insertRows up to the execution loop: the checks and the rows. *)
Definition insertRows_rows (p : Param.t) (items : list NodeExecutionData) (i : nat)
    : JsError + list (list JsVal) :=
  if Js.blank (Param.table p) then
    inl (operationError "Table name cannot be empty" i)
  else if Nat.eqb (length (Param.columns p)) 0 then
    inl (operationError "At least one column must be selected" i)
  else
    collectRows (fun row => row) "No values provided for insert operation"
                "No data found to insert" p items i.

(** [columnNames.map(col => `${col} = ?`).join(', ')] *)
Definition setClause (columnNames : list string) : string :=
  Js.join ", " (map (fun col => col ++ " = ?") columnNames).

Definition updateQuery (p : Param.t) : string :=
  "UPDATE " ++ Param.table p ++ " SET " ++ setClause (Param.columns p)
  ++ " WHERE " ++ Param.whereClause p.

(** updateRows up to the execution loop; each row is pushed as
    [[...row, ...whereArgs]]. *)
Definition updateRows_rows (p : Param.t) (items : list NodeExecutionData) (i : nat)
    : JsError + list (list JsVal) :=
  if Js.blank (Param.table p) then
    inl (operationError "Table name cannot be empty" i)
  else if Nat.eqb (length (Param.columns p)) 0 then
    inl (operationError "At least one column must be selected" i)
  else if Js.blank (Param.whereClause p) then
    inl (operationError
           "WHERE clause is required for update operations for safety" i)
  else
    let whereArgs := map value (Param.whereParams p) in
    collectRows (fun row => (row ++ map JStr whereArgs)%list)
                "No values provided for update operation"
                "No data found to update" p items i.

(** The statements the execution loop of insertRows / updateRows goes
    through, in order. *)
Definition statements (query : string) (rows : list (list JsVal)) : list Statement :=
  map (fun row => {| sql := query; args := row |}) rows.

Definition insertRows_plan (p : Param.t) (items : list NodeExecutionData) (i : nat)
    : JsError + list Statement :=
  bind_err (insertRows_rows p items i) (fun rows =>
  inr (statements (insertQuery p) rows)).

Definition updateRows_plan (p : Param.t) (items : list NodeExecutionData) (i : nat)
    : JsError + list Statement :=
  bind_err (updateRows_rows p items i) (fun rows =>
  inr (statements (updateQuery p) rows)).

(** deleteRows up to the call: the checks and the statement. *)
Definition deleteRows_statement (p : Param.t) (i : nat) : JsError + Statement :=
  if Js.blank (Param.table p) then
    inl (operationError "Table name cannot be empty" i)
  else if Js.blank (Param.whereClause p) then
    inl (operationError
           "WHERE clause is required for delete operations for safety" i)
  else
    let whereArgs := map value (Param.whereParams p) in
    inr {| sql := "DELETE FROM " ++ Param.table p ++ " WHERE " ++ Param.whereClause p;
           args := map JStr whereArgs |}.

(** The column list of selectRows. *)
Definition columnsList (p : Param.t) (i : nat) : JsError + string :=
  if Param.selectAllColumns p then inr "*"
  else if Nat.eqb (length (Param.columns p)) 0 then
    inl (operationError "At least one column must be selected" i)
  else inr (Js.join ", " (Param.columns p)).

(** [whereClause] and [whereArgs] of selectRows. *)
Definition selectWhere (p : Param.t) (i : nat) : JsError + (string * list string) :=
  if Param.useWhere p then
    if Js.blank (Param.whereClauseSelect p) then
      inl (operationError
             ("WHERE clause cannot be empty when " ++ quoted "Use Where Clause"
              ++ " is enabled") i)
    else inr (Param.whereClauseSelect p, map value (Param.whereParamsSelect p))
  else inr ("", []).

Definition orderByClause (p : Param.t) (i : nat) : JsError + string :=
  if Param.useOrderBy p then
    if Js.blank (Param.orderBy p) then
      inl (operationError
             ("Order by column must be selected when " ++ quoted "Use Order By"
              ++ " is enabled") i)
    else inr (" ORDER BY " ++ Param.orderBy p ++ " " ++ Param.orderDirection p)
  else inr "".

Definition limitOffsetClause (p : Param.t) (i : nat) : JsError + string :=
  if Param.useLimit p then
    if Num.le_zero (Param.limit p) then
      inl (operationError "Limit must be greater than 0" i)
    else
      inr (" LIMIT " ++ number_text (Param.limit p)
           ++ (if Num.gt_zero (Param.offset p)
               then " OFFSET " ++ number_text (Param.offset p)
               else ""))
  else inr "".

(** selectRows up to the call: the checks, in the order of the source, and
    the statement. *)
Definition selectRows_statement (p : Param.t) (i : nat) : JsError + Statement :=
  if Js.blank (Param.table p) then
    inl (operationError "Table name cannot be empty" i)
  else
    bind_err (columnsList p i) (fun columnsList =>
    bind_err (selectWhere p i) (fun w =>
    bind_err (orderByClause p i) (fun orderByClause =>
    bind_err (limitOffsetClause p i) (fun limitOffsetClause =>
      let query := "SELECT " ++ columnsList ++ " FROM " ++ Param.table p in
      let query := if Param.useWhere p then query ++ " WHERE " ++ fst w else query in
      let query := query ++ (orderByClause ++ limitOffsetClause) in
      inr {| sql := query; args := map JStr (snd w) |})))).

Definition listTables_statement : Statement :=
  {| sql := "SELECT name FROM sqlite_master WHERE type='table' AND name NOT LIKE 'sqlite_%'";
     args := [] |}.

(** describeTable up to the call. *)
Definition describeTable_statement (p : Param.t) (i : nat) : JsError + Statement :=
  if Js.blank (Param.table p) then
    inl (operationError "Table name cannot be empty" i)
  else
    inr {| sql := "PRAGMA table_info(" ++ Param.table p ++ ")"; args := [] |}.

Section Node.

Variable client : Client.

(** One guarded call: [try { result = await client.execute(st); shape }
    catch (error) { handleDatabaseError(this, error, i, operation) }]. *)
Definition guarded {A : Type} (st : Statement) (shape : RawResult -> JsError + A)
    (i : nat) (operation : string) : Exec A :=
  try_catch
    (result <- client_execute client st ;; lift (shape result))
    (fun error => handleDatabaseError error i operation).

Definition executeQuery (p : Param.t) (i : nat) : Exec JsVal :=
  let query := Param.query p in
  if Js.blank query then throw (operationError "SQL query cannot be empty" i)
  else
    let args := map value (Param.queryParams p) in
    guarded {| sql := query; args := map JStr args |}
            (fun result => inr (processedResult result))
            i "Execute Query".

(** [for (const queryItem of queries)], with the results pushed so far. *)
Fixpoint executeBatch_loop (queries : list Batch.t) (i : nat) (results : list JsVal)
    : Exec (list JsVal) :=
  match queries with
  | [] => ret results
  | queryItem :: rest =>
      let query := Batch.query queryItem in
      if Js.blank query then throw (operationError "SQL query cannot be empty" i)
      else
        let args := batchArgs (Batch.parameters queryItem) in
        pushed <- guarded {| sql := query; args := map JStr args |}
                    (fun result => inr (results ++ [processedResult result])%list)
                    i ("Execute Batch - Query: " ++ query) ;;
        executeBatch_loop rest i pushed
  end.

Definition executeBatch (p : Param.t) (i : nat) : Exec JsVal :=
  let queries := Param.queries p in
  if Nat.eqb (length queries) 0 then
    throw (operationError "At least one query is required for batch execution" i)
  else
    results <- executeBatch_loop queries i [] ;;
    ret (JArr results).

(** [for (const row of rows)] of insertRows and updateRows: one guarded
    call per statement, [shape] of its result pushed. *)
Fixpoint executeRows (plan : list Statement) (shape : RawResult -> JsVal)
    (i : nat) (operation : string) (results : list JsVal) : Exec (list JsVal) :=
  match plan with
  | [] => ret results
  | st :: rest =>
      pushed <- guarded st (fun result => inr (results ++ [shape result])%list)
                  i operation ;;
      executeRows rest shape i operation pushed
  end.

Definition insertRows (p : Param.t) (items : list NodeExecutionData) (i : nat)
    : Exec JsVal :=
  plan <- lift (insertRows_plan p items i) ;;
  results <- executeRows plan insertResult i "Insert Rows" [] ;;
  ret (JArr results).

Definition updateRows (p : Param.t) (items : list NodeExecutionData) (i : nat)
    : Exec JsVal :=
  plan <- lift (updateRows_plan p items i) ;;
  results <- executeRows plan affectedResult i "Update Rows" [] ;;
  ret (JArr results).

Definition deleteRows (p : Param.t) (i : nat) : Exec JsVal :=
  st <- lift (deleteRows_statement p i) ;;
  guarded st (fun result => inr (affectedResult result)) i "Delete Rows".

Definition selectRows (p : Param.t) (i : nat) : Exec JsVal :=
  st <- lift (selectRows_statement p i) ;;
  guarded st (fun result => inr (selectResult result)) i "Select Rows".

(** [result.rows?.map(row => (row as any).name) || []] *)
Definition tableNames (result : RawResult) : JsError + list JsVal :=
  match rows result with
  | Some rs => map_err (fun row => get_prop row "name") rs
  | None => inr []
  end.

Definition listTables (i : nat) : Exec JsVal :=
  guarded listTables_statement
          (fun result =>
             bind_err (tableNames result) (fun tables =>
             inr (JObj [("tables", JArr tables)])))
          i "List Tables".

Definition describeTable (p : Param.t) (i : nat) : Exec JsVal :=
  st <- lift (describeTable_statement p i) ;;
  guarded st (fun result => inr (JObj [("columns", JArr (rows_or_empty result))]))
          i "Describe Table".

(** The [if ... else if ...] chain on [operation] for item [i];
    [responseData] is the variable's value before it. *)
Definition runOperation (operation : string) (p : Param.t)
    (items : list NodeExecutionData) (i : nat) (responseData : JsVal) : Exec JsVal :=
  if operation =? "executeQuery" then executeQuery p i
  else if operation =? "executeBatch" then executeBatch p i
  else if operation =? "insertRows" then insertRows p items i
  else if operation =? "updateRows" then updateRows p items i
  else if operation =? "deleteRows" then deleteRows p i
  else if operation =? "selectRows" then selectRows p i
  else if operation =? "listTables" then listTables i
  else if operation =? "describeTable" then describeTable p i
  else ret responseData.

End Node.

(* ===================================================================== *)
(** ** The two-operation node of nodes/Turso/Turso.node.ts *)
(* ===================================================================== *)

Module NodesTurso.
Section Node.

Variable client : Client.

(** No check of the query text and no [try] around the call: what the
    client throws is thrown on as it is. *)
Definition executeQuery (p : Param.t) : Exec JsVal :=
  let query := Param.query p in
  let args := map value (Param.queryParams p) in
  result <- client_execute client {| sql := query; args := map JStr args |} ;;
  ret (processedResult result).

Fixpoint executeBatch_loop (queries : list Batch.t) (results : list JsVal)
    : Exec (list JsVal) :=
  match queries with
  | [] => ret results
  | queryItem :: rest =>
      let query := Batch.query queryItem in
      let args := batchArgs (Batch.parameters queryItem) in
      result <- client_execute client {| sql := query; args := map JStr args |} ;;
      executeBatch_loop rest (results ++ [processedResult result])%list
  end.

Definition executeBatch (p : Param.t) : Exec JsVal :=
  results <- executeBatch_loop (Param.queries p) [] ;;
  ret (JArr results).

Definition runOperation (operation : string) (p : Param.t) (responseData : JsVal)
    : Exec JsVal :=
  if operation =? "executeQuery" then executeQuery p
  else if operation =? "executeBatch" then executeBatch p
  else ret responseData.

End Node.
End NodesTurso.

(* ===================================================================== *)
(** ** Notions used to state the properties *)
(* ===================================================================== *)

(** The statement a batch entry is submitted as. *)
Definition batchStatement (queryItem : Batch.t) : Statement :=
  {| sql := Batch.query queryItem;
     args := map JStr (batchArgs (Batch.parameters queryItem)) |}.

(** The values of the selected columns in a record, [record[name]] for
    every name. *)
Definition record_values (columnNames : list string) (properties : list (string * JsVal))
    : list JsVal :=
  map (read_object properties) columnNames.

(** The entries one [rowData] is read as: those of an array, the object
    itself, nothing otherwise. *)
Definition entries_of (rowData : JsVal) : list JsVal :=
  match rowData with
  | JArr entries => entries
  | JProto ArrayProto => []
  | JObj _ | JProto _ => [rowData]
  | _ => []
  end.

(** [row] holds [entry[name]] for every column name, in the order of the
    column list. *)
Definition row_of_entry (columnNames : list string) (entry : JsVal) (row : list JsVal)
    : Prop :=
  Forall2 (fun name v => get_prop entry name = inr v) columnNames row.

(** [rowDatas] are what the input items hold under [itemsPath], one per
    item. *)
Definition items_rowData (itemsPath : string) (i : nat)
    (items : list NodeExecutionData) (rowDatas : list JsVal) : Prop :=
  Forall2 (fun item rowData => rowData_of itemsPath item i = inr rowData)
          items rowDatas.

(** The rows of the input items: one per entry, item after item and, within
    an item, in the order of its entries. *)
Definition input_rows (columnNames : list string) (itemsPath : string) (i : nat)
    (items : list NodeExecutionData) (rows : list (list JsVal)) : Prop :=
  exists rowDatas,
    items_rowData itemsPath i items rowDatas
    /\ Forall2 (row_of_entry columnNames) (concat (map entries_of rowDatas)) rows.

(** [records] are the records the input item [item] holds under
    [itemsPath]: the one object, or the objects of an array. *)
Definition item_records (itemsPath : string) (i : nat) (item : NodeExecutionData)
    (records : list (list (string * JsVal))) : Prop :=
  exists rowData,
    rowData_of itemsPath item i = inr rowData
    /\ ((exists properties, rowData = JObj properties /\ records = [properties])
        \/ rowData = JArr (map JObj records)).

(** The [j]-th consecutive group of [k] manual values. *)
Definition value_group (k : nat) (valueItems : list ValueItem) (j : nat) : list JsVal :=
  map JStr (firstn k (skipn (j * k) (map value valueItems))).

(** A client that answers every statement with the same result. *)
Definition constant_client (result : RawResult) : Client :=
  fun _ _ => inr result.

Definition empty_result : RawResult :=
  {| columns := None; rows := None; rowsAffected := None; lastInsertRowid := None |}.

(** A result object carries the full shape when it has both a [columns]
    and a [rows] property. *)
Definition full_shape (v : JsVal) : bool :=
  existsb (String.eqb "columns") (keys v) && existsb (String.eqb "rows") (keys v).

(** Identifier syntax in the words of the specification: letters, digits
    and underscore only (and at least one character). *)
Definition identifier_char (c : ascii) : bool :=
  let n := nat_of_ascii c in
  (Nat.leb 48 n && Nat.leb n 57) || (Nat.leb 65 n && Nat.leb n 90)
  || (Nat.leb 97 n && Nat.leb n 122) || Nat.eqb n 95.

Definition identifier_syntax (s : string) : bool :=
  negb (s =? "") && forallb identifier_char (list_ascii_of_string s).

(** Concrete descriptors. *)
Definition values_of (vs : list string) : list ValueItem :=
  map (fun v => {| value := v |}) vs.

Definition query_parameters (q : string) (vs : list string) : Param.t :=
  {| Param.query := q; Param.queryParams := values_of vs; Param.queries := [];
     Param.table := ""; Param.columns := []; Param.dataSource := "inputItems";
     Param.valueItems := []; Param.itemsPath := "data";
     Param.whereClause := ""; Param.whereParams := [];
     Param.selectAllColumns := false; Param.useWhere := false;
     Param.whereClauseSelect := ""; Param.whereParamsSelect := [];
     Param.useOrderBy := false; Param.orderBy := ""; Param.orderDirection := "ASC";
     Param.useLimit := false; Param.limit := 100; Param.offset := 0 |}.

Definition batch_parameters (qs : list Batch.t) : Param.t :=
  {| Param.query := ""; Param.queryParams := []; Param.queries := qs;
     Param.table := ""; Param.columns := []; Param.dataSource := "inputItems";
     Param.valueItems := []; Param.itemsPath := "data";
     Param.whereClause := ""; Param.whereParams := [];
     Param.selectAllColumns := false; Param.useWhere := false;
     Param.whereClauseSelect := ""; Param.whereParamsSelect := [];
     Param.useOrderBy := false; Param.orderBy := ""; Param.orderDirection := "ASC";
     Param.useLimit := false; Param.limit := 100; Param.offset := 0 |}.

(** insertRows / updateRows / deleteRows descriptors. *)
Definition row_parameters (t : string) (cols : list string) (source : string)
    (vs : list string) (path : string) (w : string) (wargs : list string) : Param.t :=
  {| Param.query := ""; Param.queryParams := []; Param.queries := [];
     Param.table := t; Param.columns := cols; Param.dataSource := source;
     Param.valueItems := values_of vs; Param.itemsPath := path;
     Param.whereClause := w; Param.whereParams := values_of wargs;
     Param.selectAllColumns := false; Param.useWhere := false;
     Param.whereClauseSelect := ""; Param.whereParamsSelect := [];
     Param.useOrderBy := false; Param.orderBy := ""; Param.orderDirection := "ASC";
     Param.useLimit := false; Param.limit := 100; Param.offset := 0 |}.

(** selectRows descriptors. *)
Definition select_parameters (t : string) (all : bool) (cols : list string)
    (w : option (string * list string)) (order : option (string * string))
    (lim : option (JsNumber * JsNumber)) : Param.t :=
  {| Param.query := ""; Param.queryParams := []; Param.queries := [];
     Param.table := t; Param.columns := cols; Param.dataSource := "inputItems";
     Param.valueItems := []; Param.itemsPath := "data";
     Param.whereClause := ""; Param.whereParams := [];
     Param.selectAllColumns := all;
     Param.useWhere := match w with Some _ => true | None => false end;
     Param.whereClauseSelect := match w with Some (c, _) => c | None => "" end;
     Param.whereParamsSelect := match w with Some (_, a) => values_of a | None => [] end;
     Param.useOrderBy := match order with Some _ => true | None => false end;
     Param.orderBy := match order with Some (c, _) => c | None => "" end;
     Param.orderDirection := match order with Some (_, d) => d | None => "ASC" end;
     Param.useLimit := match lim with Some _ => true | None => false end;
     Param.limit := match lim with Some (l, _) => l | None => 100 end;
     Param.offset := match lim with Some (_, o) => o | None => 0 end |}.

Definition sample_result : RawResult :=
  {| columns := Some [ColumnString "id"; ColumnObject "name"];
     rows := None; rowsAffected := Some (Num.of_nat 1); lastInsertRowid := None |}.

(** Where the row of an insertRows or updateRows statement comes from: a group of the
    manual values, or the values read from an entry by column name. *)
Definition row_source (p : Param.t) (row : list JsVal) : Prop :=
  if Param.dataSource p =? "manualInput" then
    exists j,
      j < length (Param.valueItems p) / length (Param.columns p)
      /\ row = value_group (length (Param.columns p)) (Param.valueItems p) j
  else
    exists entry, extract_row (Param.columns p) entry = inr row.

Definition update_example : Param.t :=
  row_parameters "t" ["name"; "age"] "manualInput" ["ann"; "41"] "data" "id = ?" ["5"].

(** Two input items, each a record under [data]; the second has no [name]. *)
Definition record_items : list NodeExecutionData :=
  [ {| json := [("data", JObj [("id", JNum 1); ("name", JStr "ann")])] |};
    {| json := [("data", JObj [("id", JNum 2)])] |} ].

Definition limit_example : Param.t :=
  select_parameters "t" false ["a"] None None (Some (Num.of_nat 10, Num.of_nat 0)).

Definition injected_table : Param.t :=
  row_parameters "t); DROP TABLE users; --" [] "inputItems" [] "data" "" [].

Definition injected_order : Param.t :=
  select_parameters "t" true [] None (Some ("id; DROP TABLE users; --", "ASC")) None.

(* ===================================================================== *)
(** ** The callers: connection, the loop over the items, option loading *)
(* ===================================================================== *)

(** The credentials [tursoDb]; an absent value reads as the empty string. *)
Record Credentials : Type := { databaseUrl : string; authToken : string }.

(** [!credentials.databaseUrl || !credentials.authToken] *)
Definition credentials_missing (credentials : Credentials) : bool :=
  (databaseUrl credentials =? "") || (authToken credentials =? "").

(** [error.message], for a thrown value that has one. *)
Definition error_message (error : JsError) : JsVal :=
  match error with
  | NodeOperationError message _ _ => JStr message
  | LibsqlError message _ => JStr message
  | OtherError message => JStr message
  | NotAnError => JUndefined
  end.

(** [error instanceof Error ? error.message : 'Unknown error'] *)
Definition message_or_unknown (error : JsError) : string :=
  match error with
  | NodeOperationError message _ _ => message
  | LibsqlError message _ => message
  | OtherError message => message
  | NotAnError => "Unknown error"
  end.

(** The set-up of the client before the loop of the eight-operation node:
    a [NodeOperationError] is thrown on, anything else is wrapped. *)
Definition connect (getCredentials : JsError + Credentials)
    (createClient : Credentials -> JsError + Client) : JsError + Client :=
  match
    bind_err getCredentials (fun credentials =>
      if credentials_missing credentials then
        inl (nodeOperationError "Database URL and auth token are required" None None)
      else createClient credentials)
  with
  | inl (NodeOperationError message itemIndex description) =>
      inl (NodeOperationError message itemIndex description)
  | inl error =>
      inl (nodeOperationError
             ("Error connecting to Turso database: " ++ message_or_unknown error)
             None None)
  | inr client => inr client
  end.

(** Truthiness of a value. *)
Definition truthy (v : JsVal) : bool :=
  match v with
  | JUndefined | JNull => false
  | JBool b => b
  | JNum x => Num.truthy x
  | JStr s => negb (s =? "")
  | JArr _ | JObj _ | JProto _ | JMember _ _ => true
  end.

(** The elements of an array under their indices. *)
Definition indexed (elements : list JsVal) : list (string * JsVal) :=
  combine (map Js.nat_to_string (seq 0 (length elements))) elements.

(** [responseData ? { ...responseData } : {}] *)
Definition spread (responseData : JsVal) : JsVal :=
  if truthy responseData then
    match responseData with
    | JObj properties => JObj properties
    | JArr elements => JObj (indexed elements)
    | JStr s =>
        JObj (indexed (map (fun c => JStr (String c EmptyString))
                           (list_ascii_of_string s)))
    | _ => JObj []
    end
  else JObj [].

(** [{ json: { error: error.message } }] *)
Definition errorItem (error : JsError) : JsVal :=
  JObj [("json", JObj [("error", error_message error)])].

(** Conversion to a string inside a template literal. *)
Fixpoint to_string (v : JsVal) : string :=
  match v with
  | JUndefined => "undefined"
  | JNull => "null"
  | JBool true => "true"
  | JBool false => "false"
  | JNum x => number_text x
  | JStr s => s
  | JArr elements =>
      Js.join ","
        (map (fun e => match e with
                       | JUndefined | JNull => ""
                       | _ => to_string e
                       end) elements)
  | JObj _ | JProto ObjectProto => "[object Object]"
  | JProto ArrayProto | JProto StringProto => ""
  | JProto NumberProto => "0"
  | JProto BooleanProto => "false"
  | JMember _ name => "function " ++ name ++ "() { [native code] }"
  end.

Section Execute.

(** The host: its two helpers, the continue-on-fail setting, the node
    parameters of each item, the operation and the input items. *)
Variable returnJsonArray : JsVal -> list JsVal.
Variable constructExecutionMetaData : list JsVal -> nat -> list JsVal.
Variable continueOnFail : bool.
Variable getNodeParameter : nat -> Param.t.
Variable operation : string.
Variable items : list NodeExecutionData.

(** [for (let i = 0; i < items.length; i++) { try { ... } catch { ... } }]
    of the eight-operation node, over the indices still to do. *)
Fixpoint execute_loop (client : Client) (indices : list nat) (responseData : JsVal)
    (returnData : list JsVal) : Exec (list JsVal) :=
  match indices with
  | [] => ret returnData
  | i :: rest =>
      fun tr =>
        match runOperation client operation (getNodeParameter i) items i
                           responseData tr with
        | (inr response, tr') =>
            execute_loop client rest response
              (returnData
               ++ constructExecutionMetaData (returnJsonArray (spread response)) i)%list
              tr'
        | (inl error, tr') =>
            if continueOnFail then
              execute_loop client rest responseData
                           (returnData ++ [errorItem error])%list tr'
            else (inl error, tr')
        end
  end.

(** [execute] of the eight-operation node. *)
Definition execute (getCredentials : JsError + Credentials)
    (createClient : Credentials -> JsError + Client) : Exec (list (list JsVal)) :=
  match connect getCredentials createClient with
  | inl error => throw error
  | inr client =>
      returnData <- execute_loop client (seq 0 (length items)) JUndefined [] ;;
      ret [returnData]
  end.

End Execute.

(** *** Option loading *)

(** [{ name: tableName, value: tableName }] *)
Definition tableOption (row : JsVal) : JsError + JsVal :=
  bind_err (get_prop row "name") (fun tableName =>
  inr (JObj [("name", tableName); ("value", tableName)])).

(** [{ name: `${columnName} (${columnType})`, value: columnName }] *)
Definition columnOption (row : JsVal) : JsError + JsVal :=
  bind_err (get_prop row "name") (fun columnName =>
  bind_err (get_prop row "type") (fun columnType =>
  inr (JObj [("name", JStr (to_string columnName ++ " (" ++ to_string columnType ++ ")"));
             ("value", columnName)]))).

(** [for (const row of result.rows || []) returnData.push(option(row))]:
    the options pushed, and the exception that ended the loop, if any. *)
Fixpoint push_options (option_of : JsVal -> JsError + JsVal) (rows : list JsVal)
    : list JsVal * option JsError :=
  match rows with
  | [] => ([], None)
  | row :: rest =>
      match option_of row with
      | inl error => ([], Some error)
      | inr opt =>
          let (pushed, stopped) := push_options option_of rest in
          (opt :: pushed, stopped)
      end
  end.

(** The option pushed by the [catch] of an option loader. *)
Definition errorOption (title : string) (error : JsError) : JsVal :=
  JObj [("name", JStr title); ("value", JStr "");
        ("description", JStr (message_or_unknown error))].

(** The [try] of an option loader, from the credentials on: [returnData]
    as the body leaves it, the exception that ended it, if any, and the
    trace. *)
Definition load_options (getCredentials : JsError + Credentials)
    (createClient : Credentials -> JsError + Client) (st : Statement)
    (option_of : JsVal -> JsError + JsVal) (tr : Trace)
    : list JsVal * option JsError * Trace :=
  match
    bind_err getCredentials (fun credentials =>
      if credentials_missing credentials then
        inl (OtherError "Database URL and auth token are required")
      else createClient credentials)
  with
  | inl error => ([], Some error, tr)
  | inr client =>
      match client tr st with
      | inl error => ([], Some error, (tr ++ [st])%list)
      | inr result =>
          let (pushed, stopped) := push_options option_of (rows_or_empty result) in
          (pushed, stopped, (tr ++ [st])%list)
      end
  end.

(** [returnData] after the [catch]. *)
Definition caught (title : string) (body : list JsVal * option JsError * Trace)
    : list JsVal * Trace :=
  match body with
  | (returnData, Some error, tr) => ((returnData ++ [errorOption title error])%list, tr)
  | (returnData, None, tr) => (returnData, tr)
  end.

Definition getTables (getCredentials : JsError + Credentials)
    (createClient : Credentials -> JsError + Client) (tr : Trace)
    : list JsVal * Trace :=
  caught "Error loading tables"
         (load_options getCredentials createClient listTables_statement tableOption tr).

Definition getColumns (currentTable : string) (getCredentials : JsError + Credentials)
    (createClient : Credentials -> JsError + Client) (tr : Trace)
    : list JsVal * Trace :=
  if currentTable =? "" then ([], tr)
  else
    caught "Error loading columns"
           (load_options getCredentials createClient
              {| sql := "PRAGMA table_info(" ++ currentTable ++ ")"; args := [] |}
              columnOption tr).

(** *** The loop of the two-operation node *)

Module NodesTursoExecute.
Section Execute.

Variable returnJsonArray : JsVal -> list JsVal.
Variable constructExecutionMetaData : list JsVal -> nat -> list JsVal.
Variable prepareOutputData : list JsVal -> list (list JsVal).
Variable continueOnFail : bool.
Variable getNodeParameter : nat -> Param.t.
Variable operation : string.
Variable getCredentials : JsError + Credentials.
Variable createClient : Credentials -> JsError + Client.

(** The [try] body for one item: credentials, client, operation. *)
Definition runItem (i : nat) (responseData : JsVal) : Exec JsVal :=
  client <- lift (bind_err getCredentials (fun credentials =>
              if credentials_missing credentials then
                inl (nodeOperationError
                       "Database URL and auth token are required" None None)
              else createClient credentials)) ;;
  NodesTurso.runOperation client operation (getNodeParameter i) responseData.

Fixpoint execute_loop (indices : list nat) (responseData : JsVal)
    (returnData : list JsVal) : Exec (list JsVal) :=
  match indices with
  | [] => ret returnData
  | i :: rest =>
      fun tr =>
        match runItem i responseData tr with
        | (inr response, tr') =>
            execute_loop rest response
              (returnData
               ++ constructExecutionMetaData (returnJsonArray response) i)%list
              tr'
        | (inl error, tr') =>
            if continueOnFail then
              execute_loop rest responseData
                (returnData
                 ++ constructExecutionMetaData
                      (returnJsonArray (JObj [("error", error_message error)])) i)%list
                tr'
            else (inl error, tr')
        end
  end.

Definition execute (items : list NodeExecutionData) : Exec (list (list JsVal)) :=
  returnData <- execute_loop (seq 0 (length items)) JUndefined [] ;;
  ret (prepareOutputData returnData).

End Execute.
End NodesTursoExecute.

(** *** Notions used to state the further properties *)

(** The number of occurrences of a character in a string. *)
Fixpoint count_char (c : ascii) (s : string) : nat :=
  match s with
  | EmptyString => 0
  | String d rest => (if Ascii.eqb d c then 1 else 0) + count_char c rest
  end.

(** A client that answers every statement. *)
Definition answers_all (client : Client) : Prop :=
  forall tr st, exists result, client tr st = inr result.

(** The client answers the statements [sts], submitted one after the other
    from the trace [tr], with the results [raws], one per statement. *)
Fixpoint answered (client : Client) (tr : Trace) (sts : list Statement)
    (raws : list RawResult) : Prop :=
  match sts, raws with
  | [], [] => True
  | st :: sts', raw :: raws' =>
      client tr st = inr raw /\ answered client (tr ++ [st])%list sts' raws'
  | _, _ => False
  end.

(** The items [indices] are run one after the other by [run], starting with
    the response [responseData] and the trace [tr].  [outcomes] holds what
    each item returned or threw, in order; an item that threw leaves the
    response as it was.  [final] is the response and the trace after the
    last of them. *)
Fixpoint went_through (run : nat -> JsVal -> Exec JsVal) (indices : list nat)
    (responseData : JsVal) (tr : Trace) (outcomes : list (JsError + JsVal))
    (final : JsVal * Trace) : Prop :=
  match indices, outcomes with
  | [], [] => final = (responseData, tr)
  | i :: rest, outcome :: more =>
      exists tr',
        run i responseData tr = (outcome, tr')
        /\ went_through run rest
             (match outcome with
              | inr response => response
              | inl _ => responseData
              end)
             tr' more final
  | _, _ => False
  end.

Definition succeeded (outcome : JsError + JsVal) : Prop :=
  match outcome with
  | inr _ => True
  | inl _ => False
  end.

(** What item [i] adds to the output: its response, spread and wrapped by
    the host, or one error item. *)
Definition contribution (returnJsonArray : JsVal -> list JsVal)
    (constructExecutionMetaData : list JsVal -> nat -> list JsVal)
    (i : nat) (outcome : JsError + JsVal) : list JsVal :=
  match outcome with
  | inr response => constructExecutionMetaData (returnJsonArray (spread response)) i
  | inl error => [errorItem error]
  end.

(** The error is a [NodeOperationError] that carries the item index. *)
Definition operation_error_at (i : nat) (e : JsError) : Prop :=
  exists message description, e = NodeOperationError message (Some i) description.

(** A client that rejects the statement whose first argument is ["2"]. *)
Definition rejecting_client : Client :=
  fun _ st =>
    match args st with
    | JStr "2" :: _ => inl (LibsqlError "UNIQUE constraint failed: t.id" "SQLITE_CONSTRAINT")
    | _ => inr sample_result
    end.

(** A [rowData] that is neither an object nor a non-empty array gives no
    row. *)
Definition contributes_nothing (rowData : JsVal) : Prop :=
  match rowData with
  | JObj _ => False
  | JArr (_ :: _) => False
  | JProto ArrayProto => True
  | JProto _ => False
  | _ => True
  end.

Definition table_info_result : RawResult :=
  {| columns := None;
     rows := Some (map JObj [ [("name", JStr "id"); ("type", JStr "INTEGER")];
                              [("name", JStr "note")] ]);
     rowsAffected := None; lastInsertRowid := None |}.

Definition catalogue_result : RawResult :=
  {| columns := Some [ColumnString "name"];
     rows := Some (map JObj [ [("name", JStr "users")]; [("name", JStr "orders")] ]);
     rowsAffected := Some (Num.of_nat 0); lastInsertRowid := None |}.

Definition some_credentials : Credentials :=
  {| databaseUrl := "libsql://db.turso.io"; authToken := "token" |}.

(** A host for the examples: [returnJsonArray] wraps the data into one
    item, [constructExecutionMetaData] adds the paired item. *)
Definition example_returnJsonArray (data : JsVal) : list JsVal :=
  [JObj [("json", data)]].

Definition example_constructExecutionMetaData (inputData : list JsVal) (i : nat)
    : list JsVal :=
  map (fun item => JObj [("item", item); ("pairedItem", JNum i)]) inputData.

Definition record_insert : Param.t :=
  row_parameters "t" ["id"; "name"] "inputItems" [] "data" "" [].

Definition record_plan : list Statement :=
  [ {| sql := "INSERT INTO t (id, name) VALUES (?, ?)"; args := [JNum 1; JStr "ann"] |};
    {| sql := "INSERT INTO t (id, name) VALUES (?, ?)"; args := [JNum 2; JUndefined] |} ].

(* ===================================================================== *)
(** * Properties *)
(* ===================================================================== *)

(** ** The string helpers on examples *)

Example trim_example : Js.trim "  a b	 " = "a b".
Proof. reflexivity. Qed.

Example blank_example :
  Js.blank "   " = true /\ Js.blank "" = true /\ Js.blank " x" = false.
Proof. repeat split; reflexivity. Qed.

Example join_example : Js.join ", " ["id"; "name"] = "id, name".
Proof. reflexivity. Qed.

Example split_example :
  Js.split_on ","%char "1, a,,b" = ["1"; " a"; ""; "b"]
  /\ Js.split_on ","%char "x," = ["x"; ""].
Proof. split; reflexivity. Qed.

Example batchArgs_example :
  batchArgs " 1, two ,3" = ["1"; "two"; "3"] /\ batchArgs "" = [].
Proof. split; reflexivity. Qed.

Example includes_example :
  Js.includes "connection" "lost connection to host" = true
  /\ Js.includes "connection" "connect" = false.
Proof. split; reflexivity. Qed.

Example number_text_example :
  number_text (Num.of_nat 10) = "10" /\ number_text (Num.of_nat 0) = "0"
  /\ Num.le_zero (Num.of_nat 0) = true /\ Num.gt_zero (Num.of_nat 10) = true.
Proof. repeat split; reflexivity. Qed.

Example get_prop_example :
  get_prop (JObj [("id", JNum 1)]) "id" = inr (JNum 1)
  /\ get_prop (JObj [("id", JNum 1)]) "name" = inr JUndefined
  /\ get_prop (JArr [JStr "a"; JStr "b"]) "1" = inr (JStr "b")
  /\ get_prop (JArr [JStr "a"; JStr "b"]) "01" = inr JUndefined
  /\ get_prop JNull "id"
     = inl (OtherError "Cannot read properties of null (reading 'id')").
Proof. repeat split; reflexivity. Qed.

Example databaseError_example :
  databaseError (LibsqlError "no such table: t" "") 2 "Select Rows"
  = NodeOperationError
      (String.concat "" ["Database error in "; dquote; "Select Rows"; dquote;
                         ": no such table: t"])
      (Some 2) (Some "Error code: unknown").
Proof. reflexivity. Qed.

(** ** Guarded calls *)

Section Properties.

Variable client : Client.

(** A guarded call always submits its statement, and nothing else. *)
Lemma guarded_trace {A : Type} (st : Statement) (shape : RawResult -> JsError + A)
    (i : nat) (operation : string) (tr : Trace) :
  snd (guarded client st shape i operation tr) = (tr ++ [st])%list.
Proof.
  unfold guarded, try_catch, bind, client_execute, lift, handleDatabaseError, throw.
  destruct (client tr st) as [e | result]; simpl.
  - reflexivity.
  - destruct (shape result); reflexivity.
Qed.

(** Its outcome: the shaped result, or the error of [handleDatabaseError]. *)
Lemma guarded_outcome {A : Type} (st : Statement) (shape : RawResult -> JsError + A)
    (i : nat) (operation : string) (tr : Trace) :
  fst (guarded client st shape i operation tr)
  = match client tr st with
    | inl e => inl (databaseError e i operation)
    | inr result =>
        match shape result with
        | inl e => inl (databaseError e i operation)
        | inr a => inr a
        end
    end.
Proof.
  unfold guarded, try_catch, bind, client_execute, lift, handleDatabaseError, throw.
  destruct (client tr st) as [e | result]; simpl.
  - reflexivity.
  - destruct (shape result); reflexivity.
Qed.

(** The bind of a step that makes no call. *)
Lemma bind_lift {A B : Type} (r : JsError + A) (k : A -> Exec B) (tr : Trace) :
  bind (lift r) k tr
  = match r with
    | inl e => (inl e, tr)
    | inr a => k a tr
    end.
Proof. unfold bind, lift. destruct r; reflexivity. Qed.

(** The bind of a guarded call whose shaping cannot fail. *)
Lemma bind_guarded {A B : Type} (st : Statement) (shape : RawResult -> A)
    (i : nat) (operation : string) (k : A -> Exec B) (tr : Trace) :
  bind (guarded client st (fun result => inr (shape result)) i operation) k tr
  = match client tr st with
    | inl e => (inl (databaseError e i operation), (tr ++ [st])%list)
    | inr result => k (shape result) (tr ++ [st])%list
    end.
Proof.
  unfold guarded, try_catch, bind, client_execute, lift, handleDatabaseError, throw.
  destruct (client tr st); reflexivity.
Qed.

(** ** executeQuery *)

(** executeQuery of the eight-operation node: a blank query is refused
    with nothing submitted; any other query is submitted as it is, with the
    parameter values in their order. *)
Lemma executeQuery_spec (p : Param.t) (i : nat) (tr : Trace) :
  (Js.blank (Param.query p) = true ->
   executeQuery client p i tr
   = (inl (operationError "SQL query cannot be empty" i), tr))
  /\ (Js.blank (Param.query p) = false ->
      snd (executeQuery client p i tr)
      = (tr ++ [ {| sql := Param.query p;
                    args := map JStr (map value (Param.queryParams p)) |} ])%list).
Proof.
  unfold executeQuery. split; intros Hb; rewrite Hb.
  - reflexivity.
  - apply guarded_trace.
Qed.

(** executeQuery of the two-operation node submits whatever the query text
    is. *)
Lemma NodesTurso_executeQuery_trace (p : Param.t) (tr : Trace) :
  snd (NodesTurso.executeQuery client p tr)
  = (tr ++ [ {| sql := Param.query p;
                args := map JStr (map value (Param.queryParams p)) |} ])%list.
Proof.
  unfold NodesTurso.executeQuery, bind, client_execute, ret.
  destruct (client tr _); reflexivity.
Qed.

(** ** executeBatch *)

Lemma executeBatch_loop_spec (i : nat) (queries : list Batch.t) :
  forall (results : list JsVal) (tr : Trace),
  exists n,
    n <= length queries
    /\ snd (executeBatch_loop client queries i results tr)
       = (tr ++ map batchStatement (firstn n queries))%list
    /\ Forall (fun q => Js.blank (Batch.query q) = false) (firstn n queries)
    /\ match fst (executeBatch_loop client queries i results tr) with
       | inr rs => n = length queries /\ length rs = length results + n
       | inl e =>
           (exists q, nth_error queries n = Some q
                      /\ Js.blank (Batch.query q) = true
                      /\ e = operationError "SQL query cannot be empty" i)
           \/ (exists m q err,
                  n = S m /\ nth_error queries m = Some q
                  /\ client (tr ++ map batchStatement (firstn m queries))%list
                            (batchStatement q) = inl err
                  /\ e = databaseError err i
                           ("Execute Batch - Query: " ++ Batch.query q))
       end.
Proof.
  induction queries as [| q rest IH]; intros results tr.
  - exists 0. simpl. rewrite app_nil_r. repeat split; auto with arith.
  - simpl. destruct (Js.blank (Batch.query q)) eqn:Hb.
    + exists 0. simpl. rewrite app_nil_r. repeat split; auto with arith.
      left. exists q. auto.
    + rewrite bind_guarded. fold (batchStatement q).
      destruct (client tr (batchStatement q)) as [err | result] eqn:Hc.
      * exists 1. simpl. repeat split; auto with arith.
        right. exists 0, q, err. simpl. rewrite app_nil_r. auto.
      * destruct (IH (results ++ [processedResult result])%list
                     (tr ++ [batchStatement q])%list)
          as (n & Hn & Htr & Hall & Hout).
        exists (S n). simpl. rewrite Htr, <- app_assoc. simpl.
        repeat split; auto with arith.
        destruct (fst (executeBatch_loop client rest i _ _)) as [e | rs].
        -- destruct Hout as [(q' & Hq' & Hb' & He) | (m & q' & err & Hm & Hq' & Hc' & He)].
           ++ left. exists q'. auto.
           ++ right. exists (S m), q', err. simpl.
              rewrite <- app_assoc in Hc'. simpl in Hc'. auto.
        -- destruct Hout as [Hlen Hrs]. split; [congruence |].
           rewrite Hrs, length_app. simpl. lia.
Qed.

(** Entries that are not blank and are all answered go through. *)
Lemma executeBatch_loop_answered (i : nat) (queries : list Batch.t) :
  forall (results : list JsVal) (tr : Trace) (raws : list RawResult),
    Forall (fun q => Js.blank (Batch.query q) = false) queries ->
    answered client tr (map batchStatement queries) raws ->
    executeBatch_loop client queries i results tr
    = (inr (results ++ map processedResult raws)%list,
       (tr ++ map batchStatement queries)%list).
Proof.
  induction queries as [| q rest IH]; intros results tr raws Hall Hans.
  - destruct raws; [| contradiction]. simpl. rewrite !app_nil_r. reflexivity.
  - destruct raws as [| raw raws]; [contradiction |].
    simpl in Hans. destruct Hans as [Hc Hans].
    inversion Hall as [| q' rest' Hb Hrest]; subst.
    simpl. rewrite Hb, bind_guarded. fold (batchStatement q). rewrite Hc.
    rewrite (IH _ _ raws Hrest Hans), <- !app_assoc. reflexivity.
Qed.

(** The run of the loop, with the answers of the client. *)
Lemma executeBatch_loop_run (i : nat) (queries : list Batch.t) :
  forall (results : list JsVal) (tr : Trace),
  exists n raws,
    n <= length queries
    /\ snd (executeBatch_loop client queries i results tr)
       = (tr ++ map batchStatement (firstn n queries))%list
    /\ Forall (fun q => Js.blank (Batch.query q) = false) (firstn n queries)
    /\ match fst (executeBatch_loop client queries i results tr) with
       | inr rs =>
           n = length queries
           /\ answered client tr (map batchStatement queries) raws
           /\ rs = (results ++ map processedResult raws)%list
       | inl e =>
           (exists q, nth_error queries n = Some q
                      /\ Js.blank (Batch.query q) = true
                      /\ answered client tr (map batchStatement (firstn n queries)) raws
                      /\ e = operationError "SQL query cannot be empty" i)
           \/ (exists m q err,
                  n = S m /\ nth_error queries m = Some q
                  /\ answered client tr (map batchStatement (firstn m queries)) raws
                  /\ client (tr ++ map batchStatement (firstn m queries))%list
                            (batchStatement q) = inl err
                  /\ e = databaseError err i
                           ("Execute Batch - Query: " ++ Batch.query q))
       end.
Proof.
  induction queries as [| q rest IH]; intros results tr.
  - exists 0, []. simpl. rewrite !app_nil_r. repeat split; auto with arith.
  - simpl. destruct (Js.blank (Batch.query q)) eqn:Hb.
    + exists 0, []. simpl. rewrite app_nil_r. repeat split; auto with arith.
      left. exists q. simpl. auto.
    + rewrite bind_guarded. fold (batchStatement q).
      destruct (client tr (batchStatement q)) as [err | result] eqn:Hc.
      * exists 1, []. simpl. repeat split; auto with arith.
        right. exists 0, q, err. simpl. rewrite app_nil_r. auto.
      * destruct (IH (results ++ [processedResult result])%list
                     (tr ++ [batchStatement q])%list)
          as (n & raws & Hn & Htr & Hall & Hout).
        exists (S n), (result :: raws). simpl. rewrite Htr, <- app_assoc. simpl.
        repeat match goal with |- _ /\ _ => split end; auto with arith.
        destruct (fst (executeBatch_loop client rest i _ _)) as [e | rs].
        -- destruct Hout as [(q' & Hq' & Hb' & Hans & He)
                            | (m & q' & err & Hm & Hq' & Hans & Hc' & He)].
           ++ left. exists q'. auto.
           ++ right. exists (S m), q', err. simpl.
              rewrite <- app_assoc in Hc'. simpl in Hc'. auto 7.
        -- destruct Hout as (Hlen & Hans & ->).
           repeat match goal with |- _ /\ _ => split end; auto.
           rewrite <- app_assoc. reflexivity.
Qed.

(** C5 (as amended).  executeBatch of the eight-operation node checks and
    submits the entries one at a time, in list order.  An empty list, or a
    blank first entry, fails with the validation error and nothing is
    submitted.  In general the statements submitted are a prefix of the
    list, all of them with a non-blank query.  The operation succeeds
    exactly when the list is not empty, no entry is blank and the client
    answers every entry; the result then holds the normalized answer of
    each entry, in order.  It fails either with the validation error at
    the first blank entry, after the entries before it were submitted and
    answered and with neither that entry nor a later one submitted, or
    with the database error of the first entry the client rejects, the
    entries before it having been answered and nothing after it being
    submitted. *)
Theorem executeBatch_spec (p : Param.t) (i : nat) (tr : Trace) :
  let queries := Param.queries p in
  let run := executeBatch client p i tr in
  (queries = [] ->
   run = (inl (operationError
                 "At least one query is required for batch execution" i), tr))
  /\ (forall q rest, queries = q :: rest -> Js.blank (Batch.query q) = true ->
       run = (inl (operationError "SQL query cannot be empty" i), tr))
  /\ (forall raws,
        queries <> [] ->
        Forall (fun q => Js.blank (Batch.query q) = false) queries ->
        answered client tr (map batchStatement queries) raws ->
        run = (inr (JArr (map processedResult raws)),
               (tr ++ map batchStatement queries)%list))
  /\ exists n raws,
       n <= length queries
       /\ snd run = (tr ++ map batchStatement (firstn n queries))%list
       /\ Forall (fun q => Js.blank (Batch.query q) = false) (firstn n queries)
       /\ match fst run with
          | inr v =>
              0 < n /\ n = length queries
              /\ answered client tr (map batchStatement queries) raws
              /\ v = JArr (map processedResult raws)
          | inl e =>
              (queries = []
               /\ e = operationError
                        "At least one query is required for batch execution" i)
              \/ (exists q, nth_error queries n = Some q
                            /\ Js.blank (Batch.query q) = true
                            /\ answered client tr
                                        (map batchStatement (firstn n queries)) raws
                            /\ e = operationError "SQL query cannot be empty" i)
              \/ (exists m q err,
                    n = S m /\ nth_error queries m = Some q
                    /\ answered client tr
                                (map batchStatement (firstn m queries)) raws
                    /\ client (tr ++ map batchStatement (firstn m queries))%list
                              (batchStatement q) = inl err
                    /\ e = databaseError err i
                             ("Execute Batch - Query: " ++ Batch.query q))
          end.
Proof.
  intros queries run. subst run. unfold executeBatch. fold queries.
  split; [| split; [| split]].
  - intros ->. reflexivity.
  - intros q rest -> Hb. simpl. unfold bind. simpl. rewrite Hb. reflexivity.
  - intros raws Hne Hall Hans.
    destruct queries as [| q rest] eqn:Hq; [contradiction |].
    change (Nat.eqb (length (q :: rest)) 0) with false. cbv iota.
    unfold bind.
    rewrite (executeBatch_loop_answered i (q :: rest) [] tr raws Hall Hans).
    reflexivity.
  - destruct queries as [| q rest] eqn:Hq.
    + exists 0, []. simpl. rewrite app_nil_r. repeat split; auto.
    + change (Nat.eqb (length (q :: rest)) 0) with false. cbv iota.
      destruct (executeBatch_loop_run i (q :: rest) [] tr)
        as (n & raws & Hn & Htr & Hall & Hout).
      exists n, raws. unfold bind.
      destruct (executeBatch_loop client (q :: rest) i [] tr) as [[e | rs] tr'];
        simpl in Htr, Hout |- *.
      * repeat match goal with |- _ /\ _ => split end; auto.
      * destruct Hout as (Hlen & Hans & ->).
        repeat match goal with |- _ /\ _ => split end; auto.
        subst n. simpl. lia.
Qed.

(** The two-operation node has neither check: an empty list succeeds with
    an empty result and every entry is submitted, blank or not. *)
Lemma NodesTurso_executeBatch_loop_trace (queries : list Batch.t) :
  forall (results : list JsVal) (tr : Trace),
  exists n,
    n <= length queries
    /\ snd (NodesTurso.executeBatch_loop client queries results tr)
       = (tr ++ map batchStatement (firstn n queries))%list.
Proof.
  induction queries as [| q rest IH]; intros results tr.
  - exists 0. simpl. rewrite app_nil_r. auto.
  - simpl. unfold bind, client_execute. fold (batchStatement q).
    destruct (client tr (batchStatement q)) as [err | result].
    + exists 1. simpl. split; [lia | reflexivity].
    + destruct (IH (results ++ [processedResult result])%list
                   (tr ++ [batchStatement q])%list) as (n & Hn & Htr).
      exists (S n). simpl. rewrite Htr, <- app_assoc. split; [lia | reflexivity].
Qed.

Lemma NodesTurso_executeBatch_empty (p : Param.t) (tr : Trace) :
  Param.queries p = [] ->
  NodesTurso.executeBatch client p tr = (inr (JArr []), tr).
Proof. intros H. unfold NodesTurso.executeBatch. rewrite H. reflexivity. Qed.

(** ** The result normalizer *)

(** C4.  The result normalizer returns a result object for every raw
    result, whichever of [columns], [rows], [rowsAffected] and
    [lastInsertRowid] are present: the column names are the descriptors in
    their order, a string kept as it is and an object replaced by its name;
    absent [columns] or [rows] become empty sequences; absent
    [rowsAffected] and [lastInsertRowid] stay undefined.  executeQuery of
    both nodes returns that object whenever the client returns a result. *)
Theorem normalizer_total (result : RawResult) :
  (exists names rs affected rowid,
     processedResult result
     = JObj [ ("columns", JArr (map JStr names)); ("rows", JArr rs);
              ("rowsAffected", affected); ("lastInsertRowid", rowid) ]
     /\ match columns result with
        | None => names = []
        | Some cols =>
            length names = length cols
            /\ forall k,
                 nth_error names k
                 = match nth_error cols k with
                   | Some (ColumnString s) => Some s
                   | Some (ColumnObject name) => Some name
                   | None => None
                   end
        end
     /\ rs = match rows result with Some given => given | None => [] end
     /\ affected = match rowsAffected result with
                   | Some n => JNum n
                   | None => JUndefined
                   end
     /\ rowid = match lastInsertRowid result with
                | Some v => v
                | None => JUndefined
                end)
  /\ (forall p i tr,
        Js.blank (Param.query p) = false ->
        client tr {| sql := Param.query p;
                     args := map JStr (map value (Param.queryParams p)) |}
        = inr result ->
        fst (executeQuery client p i tr) = inr (processedResult result))
  /\ (forall p tr,
        client tr {| sql := Param.query p;
                     args := map JStr (map value (Param.queryParams p)) |}
        = inr result ->
        fst (NodesTurso.executeQuery client p tr) = inr (processedResult result)).
Proof.
  split; [| split].
  - exists (columnNames result), (rows_or_empty result),
           (rowsAffected_val result), (lastInsertRowid_val result).
    split; [reflexivity |]. split; [| repeat split].
    + unfold columnNames. destruct (columns result) as [cols |]; [| reflexivity].
      split; [apply length_map |].
      intros k. rewrite nth_error_map.
      destruct (nth_error cols k) as [[s | name] |]; reflexivity.
  - intros p i tr Hb Hc. unfold executeQuery. rewrite Hb.
    rewrite guarded_outcome, Hc. reflexivity.
  - intros p tr Hc. unfold NodesTurso.executeQuery, bind, client_execute, ret.
    rewrite Hc. reflexivity.
Qed.

End Properties.

Lemma normalizer_total_witness :
  fst (executeQuery (constant_client sample_result)
                    (query_parameters "SELECT id, name FROM t" []) 0 [])
  = inr (JObj [ ("columns", JArr [JStr "id"; JStr "name"]); ("rows", JArr []);
                ("rowsAffected", JNum 1); ("lastInsertRowid", JUndefined) ]).
Proof.
  apply (proj1 (proj2 (normalizer_total (constant_client sample_result)
                                        sample_result))
               (query_parameters "SELECT id, name FROM t" []) 0 []);
    reflexivity.
Defined.

Lemma executeBatch_spec_witness :
  executeBatch (constant_client empty_result) (batch_parameters []) 0 []
  = (inl (operationError "At least one query is required for batch execution" 0), [])
  /\ executeBatch (constant_client empty_result)
                  (batch_parameters [ {| Batch.query := "  "; Batch.parameters := "" |};
                                      {| Batch.query := "SELECT 1"; Batch.parameters := "" |} ])
                  0 []
     = (inl (operationError "SQL query cannot be empty" 0), [])
  /\ executeBatch (constant_client sample_result)
                  (batch_parameters [ {| Batch.query := "SELECT 1"; Batch.parameters := "" |};
                                      {| Batch.query := "SELECT ?"; Batch.parameters := "2" |} ])
                  0 []
     = (inr (JArr [processedResult sample_result; processedResult sample_result]),
        [ {| sql := "SELECT 1"; args := [] |};
          {| sql := "SELECT ?"; args := [JStr "2"] |} ]).
Proof.
  split; [| split].
  - apply (proj1 (executeBatch_spec (constant_client empty_result)
                                    (batch_parameters []) 0 [])).
    reflexivity.
  - apply (proj1 (proj2 (executeBatch_spec (constant_client empty_result)
                                           (batch_parameters _) 0 [])) _ _ eq_refl).
    reflexivity.
  - apply (proj1 (proj2 (proj2
             (executeBatch_spec
                (constant_client sample_result)
                (batch_parameters
                   [ {| Batch.query := "SELECT 1"; Batch.parameters := "" |};
                     {| Batch.query := "SELECT ?"; Batch.parameters := "2" |} ])
                0 [])))
                 [sample_result; sample_result]).
    + discriminate.
    + repeat constructor.
    + simpl. auto.
Defined.

(** C5 as stated fails: with a valid first entry and an empty second one,
    the first entry is submitted before the validation error is raised. *)
Lemma executeBatch_later_blank_counterexample :
  ~ (forall (client : Client) (p : Param.t) (i : nat) (tr : Trace),
       (exists q, In q (Param.queries p) /\ Batch.query q = "") ->
       exists message,
         executeBatch client p i tr = (inl (operationError message i), tr)).
Proof.
  intros H.
  destruct (H (constant_client empty_result)
              (batch_parameters [ {| Batch.query := "SELECT 1"; Batch.parameters := "" |};
                                  {| Batch.query := ""; Batch.parameters := "" |} ])
              0 []) as [message Hrun].
  - exists {| Batch.query := ""; Batch.parameters := "" |}. simpl. auto.
  - vm_compute in Hrun. discriminate Hrun.
Qed.

Example executeBatch_later_blank_run :
  executeBatch (constant_client empty_result)
    (batch_parameters [ {| Batch.query := "SELECT 1"; Batch.parameters := "" |};
                        {| Batch.query := ""; Batch.parameters := "" |} ])
    0 []
  = (inl (operationError "SQL query cannot be empty" 0),
     [ {| sql := "SELECT 1"; args := [] |} ]).
Proof. reflexivity. Qed.

(** C6 at the two-operation node: an empty query text is submitted to the
    client, and the operation succeeds, where the claim asks for a
    validation error before any call. *)
Theorem NodesTurso_executeQuery_submits_empty_query :
  NodesTurso.executeQuery (constant_client empty_result) (query_parameters "" []) []
  = (inr (processedResult empty_result), [ {| sql := ""; args := [] |} ])
  /\ executeQuery (constant_client empty_result) (query_parameters "" []) 0 []
     = (inl (operationError "SQL query cannot be empty" 0), []).
Proof. split; reflexivity. Qed.

(** ** Grouping the manual values *)

Lemma slice_group {A : Type} (xs : list A) (a k : nat) :
  Js.slice xs (a * k) (a * k + k) = firstn k (skipn (a * k) xs).
Proof. unfold Js.slice. f_equal. lia. Qed.

(** With at least one value per row and a value count that is a multiple
    of it, the grouping loop ends by its own test and yields the
    consecutive groups. *)
Lemma group_rows_spec (finish : list JsVal -> list JsVal) (values : list JsVal)
    (k q : nat) :
  0 < k -> length values = q * k ->
  forall fuel a,
    a <= q -> q - a <= fuel ->
    group_rows fuel finish values k (a * k)
    = map (fun b => finish (firstn k (skipn (b * k) values))) (seq a (q - a)).
Proof.
  intros Hk Hlen. induction fuel as [| fuel IH]; intros a Ha Hfuel.
  - replace (q - a) with 0 by lia. reflexivity.
  - simpl. destruct (Nat.ltb_spec (a * k) (length values)) as [Hlt | Hge].
    + assert (a < q) by nia.
      replace (q - a) with (S (q - S a)) by lia. simpl.
      rewrite slice_group. f_equal.
      replace (a * k + k) with (S a * k) by lia.
      apply IH; lia.
    + assert (a = q) by nia. subst a.
      rewrite Nat.sub_diag. reflexivity.
Qed.

Lemma value_group_length (k : nat) (valueItems : list ValueItem) (j : nat) :
  0 < k -> length valueItems mod k = 0 -> j < length valueItems / k ->
  length (value_group k valueItems j) = k.
Proof.
  intros Hk Hmod Hj. unfold value_group.
  rewrite length_map, length_firstn, length_skipn, length_map.
  pose proof (Nat.div_mod_eq (length valueItems) k) as Hdiv.
  rewrite Hmod in Hdiv. nia.
Qed.

(** The manual branch: it succeeds exactly when there are values and their
    count is a multiple of the column count. *)
Lemma manualRows_spec (finish : list JsVal -> list JsVal) (noValues : string)
    (columnNames : list string) (valueItems : list ValueItem) (i : nat) :
  0 < length columnNames ->
  let k := length columnNames in
  let n := length valueItems in
  ((0 < n /\ n mod k = 0) ->
   manualRows finish noValues columnNames valueItems i
   = inr (map (fun j => finish (value_group k valueItems j)) (seq 0 (n / k))))
  /\ (~ (0 < n /\ n mod k = 0) ->
      exists message,
        manualRows finish noValues columnNames valueItems i
        = inl (operationError message i)).
Proof.
  intros Hk k n. unfold manualRows. fold k. split.
  - intros [Hn Hmod].
    destruct (Nat.eqb_spec (length valueItems) 0) as [H0 | _]; [fold n in H0; lia |].
    rewrite length_map. fold n. rewrite Hmod. simpl.
    f_equal.
    pose proof (Nat.div_mod_eq n k) as Hdiv. rewrite Hmod in Hdiv.
    assert (Hlen : length (map JStr (map value valueItems)) = (n / k) * k).
    { rewrite !length_map. fold n. lia. }
    assert (Hfuel : n / k - 0 <= n) by nia.
    pose proof (group_rows_spec finish _ k (n / k) Hk Hlen n 0 (Nat.le_0_l _) Hfuel)
      as Hgroup.
    simpl in Hgroup. rewrite Hgroup.
    rewrite Nat.sub_0_r. apply map_ext. intros j.
    unfold value_group. rewrite skipn_map, firstn_map. reflexivity.
  - intros Hnot.
    destruct (Nat.eqb_spec (length valueItems) 0) as [H0 | Hpos].
    + eexists. reflexivity.
    + rewrite length_map. fold n.
      destruct (Nat.eqb_spec (n mod k) 0) as [Hmod | Hmod]; simpl.
      * exfalso. apply Hnot. split; [fold n in Hpos; lia | exact Hmod].
      * eexists. reflexivity.
Qed.

Lemma nth_error_map_seq {A : Type} (f : nat -> A) (m j : nat) :
  j < m -> nth_error (map f (seq 0 m)) j = Some (f j).
Proof.
  intros Hj. rewrite nth_error_map.
  rewrite (nth_error_nth' (seq 0 m) 0) by (rewrite length_seq; exact Hj).
  rewrite seq_nth by exact Hj. reflexivity.
Qed.

(** ** insertRows, manual input *)

(** C1 (as amended).  For an insertRows descriptor in manual-input mode
    whose table name is not blank, with [k] columns and [n] manual values:
    building succeeds exactly when [k > 0], [n > 0] and [n mod k = 0]; on
    success there are [n / k] statements, all with the text
    [INSERT INTO <table> (<cols>) VALUES (<one ? per column>)], the [j]-th
    with the [j]-th consecutive group of [k] values as its args. *)
Theorem insertRows_manual_spec (p : Param.t) (items : list NodeExecutionData) (i : nat) :
  Param.dataSource p = "manualInput" ->
  Js.blank (Param.table p) = false ->
  let k := length (Param.columns p) in
  let n := length (Param.valueItems p) in
  ((exists plan, insertRows_plan p items i = inr plan)
   <-> (0 < k /\ 0 < n /\ n mod k = 0))
  /\ (forall plan,
        insertRows_plan p items i = inr plan ->
        length plan = n / k
        /\ forall j,
             j < n / k ->
             nth_error plan j
             = Some {| sql := "INSERT INTO " ++ Param.table p ++ " ("
                              ++ Js.join ", " (Param.columns p) ++ ") VALUES ("
                              ++ Js.join ", " (map (fun _ => "?") (Param.columns p))
                              ++ ")";
                       args := value_group k (Param.valueItems p) j |}).
Proof.
  intros Hsource Htable k n.
  unfold insertRows_plan, insertRows_rows, collectRows.
  rewrite Htable, Hsource. simpl.
  destruct (Nat.eqb_spec (length (Param.columns p)) 0) as [Hk0 | Hk0]; fold k in Hk0.
  - simpl. split.
    + split; [intros [plan Hplan]; discriminate Hplan | lia].
    + intros plan Hplan. discriminate Hplan.
  - assert (Hk : 0 < length (Param.columns p)) by (fold k; lia).
    destruct (manualRows_spec (fun row => row) "No values provided for insert operation"
                (Param.columns p) (Param.valueItems p) i Hk) as [Hok Hfail].
    fold k n in Hok, Hfail.
    assert (Hdec : (0 < n /\ n mod k = 0) \/ ~ (0 < n /\ n mod k = 0)).
    { destruct (Nat.eq_dec (n mod k) 0); destruct (Nat.eq_dec n 0); lia. }
    destruct Hdec as [Hgood | Hbad].
    + rewrite (Hok Hgood). simpl. split.
      * split; [intros _; lia | intros _; eexists; reflexivity].
      * intros plan Hplan. injection Hplan as <-.
        unfold statements. rewrite !length_map, length_seq. split; [reflexivity |].
        intros j Hj. rewrite map_map. rewrite nth_error_map_seq by exact Hj.
        reflexivity.
    + destruct (Hfail Hbad) as [message Hm]. rewrite Hm. simpl. split.
      * split; [intros [plan Hplan]; discriminate Hplan | intros (_ & H1 & H2)].
        exfalso. apply Hbad. auto.
      * intros plan Hplan. discriminate Hplan.
Qed.

Lemma insertRows_manual_spec_witness :
  insertRows_plan
    (row_parameters "t" ["id"; "name"] "manualInput" ["1"; "a"; "2"; "b"] "data" "" [])
    [] 0
  = inr [ {| sql := "INSERT INTO t (id, name) VALUES (?, ?)";
             args := [JStr "1"; JStr "a"] |};
          {| sql := "INSERT INTO t (id, name) VALUES (?, ?)";
             args := [JStr "2"; JStr "b"] |} ]
  /\ (exists plan,
        insertRows_plan
          (row_parameters "t" ["id"; "name"] "manualInput" ["1"; "a"; "2"; "b"]
                          "data" "" [])
          [] 0 = inr plan).
Proof.
  split; [reflexivity |].
  apply (proj1 (insertRows_manual_spec
                  (row_parameters "t" ["id"; "name"] "manualInput"
                                  ["1"; "a"; "2"; "b"] "data" "" [])
                  [] 0 eq_refl eq_refl)).
  simpl. repeat split; lia.
Defined.

(** C1 as stated fails: with a table, one column and no value at all the
    value count is a multiple of the column count, and the build is refused. *)
Lemma insertRows_no_values_counterexample :
  ~ (forall (p : Param.t) (items : list NodeExecutionData) (i : nat),
       Param.dataSource p = "manualInput" ->
       Param.table p <> "" ->
       ((exists plan, insertRows_plan p items i = inr plan)
        <-> length (Param.valueItems p) mod length (Param.columns p) = 0)).
Proof.
  intros H.
  destruct (H (row_parameters "t" ["id"] "manualInput" [] "data" "" []) [] 0 eq_refl)
    as [_ Hback].
  - discriminate.
  - destruct (Hback eq_refl) as [plan Hplan]. vm_compute in Hplan. discriminate Hplan.
Qed.

Example insertRows_no_values_run :
  insertRows_plan (row_parameters "t" ["id"] "manualInput" [] "data" "" []) [] 0
  = inl (operationError "No values provided for insert operation" 0).
Proof. reflexivity. Qed.

Example insertRows_blank_table_run :
  insertRows_plan (row_parameters " " ["id"] "manualInput" ["1"] "data" "" []) [] 0
  = inl (operationError "Table name cannot be empty" 0).
Proof. reflexivity. Qed.

Example insertRows_not_multiple_run :
  insertRows_plan
    (row_parameters "t" ["id"; "name"] "manualInput" ["1"; "a"; "2"] "data" "" []) [] 0
  = inl (operationError
           "Values count (3) is not a multiple of columns count (2)" 0).
Proof. reflexivity. Qed.

(** ** The execution loop of insertRows and updateRows *)

Section RowOperations.

Variable client : Client.

(** The loop submits a prefix of its statements, the first one always; it
    succeeds only when all were submitted, with one shaped result each, and
    fails with the database error of the last statement submitted. *)
Lemma executeRows_spec (shape : RawResult -> JsVal) (i : nat) (operation : string)
    (plan : list Statement) :
  forall (results : list JsVal) (tr : Trace),
  exists m,
    m <= length plan
    /\ (plan <> [] -> 0 < m)
    /\ snd (executeRows client plan shape i operation results tr)
       = (tr ++ firstn m plan)%list
    /\ match fst (executeRows client plan shape i operation results tr) with
       | inr rs =>
           m = length plan
           /\ exists raws,
                length raws = length plan /\ rs = (results ++ map shape raws)%list
       | inl e =>
           exists k st err,
             m = S k /\ nth_error plan k = Some st
             /\ client (tr ++ firstn k plan)%list st = inl err
             /\ e = databaseError err i operation
       end.
Proof.
  induction plan as [| st rest IH]; intros results tr.
  - exists 0. simpl. rewrite app_nil_r. repeat split; auto.
    + intros H. contradiction.
    + exists []. simpl. rewrite app_nil_r. auto.
  - simpl. rewrite bind_guarded.
    destruct (client tr st) as [err | result] eqn:Hc.
    + exists 1. simpl. repeat split; auto with arith.
      exists 0, st, err. simpl. rewrite app_nil_r. auto.
    + destruct (IH (results ++ [shape result])%list (tr ++ [st])%list)
        as (m & Hm & _ & Htr & Hout).
      exists (S m). simpl. rewrite Htr, <- app_assoc. simpl.
      repeat split; auto with arith.
      destruct (fst (executeRows client rest shape i operation _ _)) as [e | rs].
      * destruct Hout as (k & st' & err & Hk & Hst' & Hc' & He).
        exists (S k), st', err. simpl.
        rewrite <- app_assoc in Hc'. simpl in Hc'. auto.
      * destruct Hout as (Hlen & raws & Hraws & Hrs).
        split; [congruence |].
        exists (result :: raws). simpl. rewrite Hrs, <- app_assoc. simpl. auto.
Qed.

(** When the client answers every statement, the whole plan is submitted
    and the loop succeeds. *)
Lemma executeRows_total (shape : RawResult -> JsVal) (i : nat) (operation : string)
    (plan : list Statement) (results : list JsVal) (tr : Trace) :
  (forall tr' st, exists result, client tr' st = inr result) ->
  snd (executeRows client plan shape i operation results tr) = (tr ++ plan)%list
  /\ exists rs, fst (executeRows client plan shape i operation results tr) = inr rs.
Proof.
  intros Hclient.
  destruct (executeRows_spec shape i operation plan results tr)
    as (m & Hm & _ & Htr & Hout).
  destruct (fst (executeRows client plan shape i operation results tr)) as [e | rs].
  - destruct Hout as (k & st & err & _ & _ & Hc & _).
    destruct (Hclient (tr ++ firstn k plan)%list st) as [result Hr]. congruence.
  - destruct Hout as (Hlen & _). subst m. rewrite firstn_all in Htr.
    split; [exact Htr | eexists; reflexivity].
Qed.

End RowOperations.

(** ** Rows of insertRows and updateRows, both data sources *)

Lemma map_err_length {A B : Type} (f : A -> JsError + B) (xs : list A) :
  forall ys, map_err f xs = inr ys -> length ys = length xs.
Proof.
  induction xs as [| x rest IH]; simpl; intros ys H.
  - injection H as <-. reflexivity.
  - destruct (f x) as [e | y]; simpl in H; [discriminate H |].
    destruct (map_err f rest) as [e | ys']; simpl in H; [discriminate H |].
    injection H as <-. simpl. f_equal. apply IH. reflexivity.
Qed.

Lemma map_err_Forall {A B : Type} (f : A -> JsError + B) (P : B -> Prop) :
  (forall x y, f x = inr y -> P y) ->
  forall xs ys, map_err f xs = inr ys -> Forall P ys.
Proof.
  intros Hf. induction xs as [| x rest IH]; simpl; intros ys H.
  - injection H as <-. constructor.
  - destruct (f x) as [e | y] eqn:Hx; simpl in H; [discriminate H |].
    destruct (map_err f rest) as [e | ys']; simpl in H; [discriminate H |].
    injection H as <-. constructor; [eapply Hf; eassumption | apply IH; reflexivity].
Qed.

Lemma extract_row_length (columnNames : list string) (entry : JsVal) (row : list JsVal) :
  extract_row columnNames entry = inr row -> length row = length columnNames.
Proof. apply map_err_length. Qed.

Lemma rows_of_rowData_Forall (finish : list JsVal -> list JsVal)
    (columnNames : list string) (rowData : JsVal) (rows : list (list JsVal)) :
  rows_of_rowData finish columnNames rowData = inr rows ->
  Forall (fun r => exists entry row,
                     extract_row columnNames entry = inr row /\ r = finish row) rows.
Proof.
  assert (Hone : forall entry,
             bind_err (extract_row columnNames entry) (fun row => inr [finish row])
             = inr rows ->
             Forall (fun r => exists entry row,
                       extract_row columnNames entry = inr row /\ r = finish row) rows).
  { intros entry H.
    destruct (extract_row columnNames entry) as [e | row] eqn:He;
      simpl in H; [discriminate H |].
    injection H as <-. constructor; [| constructor].
    exists entry, row. auto. }
  destruct rowData as [| | b | x | s | elements | properties | [] | owner name];
    simpl; intros H;
    try (injection H as <-; constructor);
    try (eapply Hone; exact H).
  revert H. apply map_err_Forall. intros entry r Hr.
  destruct (extract_row columnNames entry) as [e | row] eqn:He; simpl in Hr;
    [discriminate Hr |].
  injection Hr as <-. exists entry, row. auto.
Qed.

Lemma inputRows_Forall (finish : list JsVal -> list JsVal) (columnNames : list string)
    (itemsPath : string) (i : nat) (items : list NodeExecutionData) :
  forall rows,
    inputRows finish columnNames itemsPath i items = inr rows ->
    Forall (fun r => exists entry row,
                       extract_row columnNames entry = inr row /\ r = finish row) rows.
Proof.
  induction items as [| item rest IH]; simpl; intros rows H.
  - injection H as <-. constructor.
  - destruct (rowData_of itemsPath item i) as [e | rowData]; simpl in H;
      [discriminate H |].
    destruct (rows_of_rowData finish columnNames rowData) as [e | pushed] eqn:Hp;
      simpl in H; [discriminate H |].
    destruct (inputRows finish columnNames itemsPath i rest) as [e | more];
      simpl in H; [discriminate H |].
    injection H as <-. apply Forall_app. split.
    + eapply rows_of_rowData_Forall. eassumption.
    + apply IH. reflexivity.
Qed.

(** Every collected row is [finish] of [k] column values from the selected
    data source. *)
Lemma collectRows_Forall (finish : list JsVal -> list JsVal) (noValues noData : string)
    (p : Param.t) (items : list NodeExecutionData) (i : nat) (rows : list (list JsVal)) :
  0 < length (Param.columns p) ->
  collectRows finish noValues noData p items i = inr rows ->
  Forall (fun r => exists row,
                     row_source p row
                     /\ length row = length (Param.columns p)
                     /\ r = finish row) rows.
Proof.
  intros Hk. unfold collectRows, row_source.
  destruct (Param.dataSource p =? "manualInput").
  - intros H.
    destruct (manualRows_spec finish noValues (Param.columns p) (Param.valueItems p) i Hk)
      as [Hok Hfail].
    set (k := length (Param.columns p)) in *.
    set (n := length (Param.valueItems p)) in *.
    assert (Hdec : (0 < n /\ n mod k = 0) \/ ~ (0 < n /\ n mod k = 0)).
    { destruct (Nat.eq_dec (n mod k) 0); destruct (Nat.eq_dec n 0); lia. }
    destruct Hdec as [Hgood | Hbad].
    + rewrite (Hok Hgood) in H. injection H as <-.
      apply Forall_forall. intros r Hr. apply in_map_iff in Hr.
      destruct Hr as (j & <- & Hj). apply in_seq in Hj.
      exists (value_group k (Param.valueItems p) j). repeat split.
      * exists j. split; [lia | reflexivity].
      * apply value_group_length; [exact Hk | tauto | fold n; lia].
    + destruct (Hfail Hbad) as [message Hm]. rewrite Hm in H. discriminate H.
  - intros H.
    destruct (inputRows finish (Param.columns p) (Param.itemsPath p) i items)
      as [e | found] eqn:Hin; simpl in H; [discriminate H |].
    destruct (Nat.eqb (length found) 0); [discriminate H |].
    injection H as <-.
    eapply Forall_impl; [| eapply inputRows_Forall; eassumption].
    intros r (entry & row & Hrow & Hr). exists row. repeat split.
    + exists entry. exact Hrow.
    + eapply extract_row_length. eassumption.
    + exact Hr.
Qed.

(** ** Rows of the input items, entry by entry *)

Lemma map_err_Forall2 {A B : Type} (f : A -> JsError + B) (xs : list A) :
  forall ys, map_err f xs = inr ys <-> Forall2 (fun x y => f x = inr y) xs ys.
Proof.
  induction xs as [| x rest IH]; simpl; intros ys.
  - split.
    + intros H. injection H as <-. constructor.
    + intros H. inversion H. reflexivity.
  - split.
    + destruct (f x) as [e | y] eqn:Hx; simpl; [discriminate |].
      destruct (map_err f rest) as [e | ys'] eqn:Hrest; simpl; [discriminate |].
      intros H. injection H as <-. constructor; [exact Hx |].
      apply IH. reflexivity.
    + intros H. inversion H as [| x' y xs' ys' Hx Hrest]; subst.
      rewrite Hx. simpl. apply IH in Hrest. rewrite Hrest. reflexivity.
Qed.

Lemma Forall2_In_right {A B : Type} (R : A -> B -> Prop) (xs : list A) (ys : list B)
    (y : B) :
  Forall2 R xs ys -> In y ys -> exists x, In x xs /\ R x y.
Proof.
  induction 1 as [| x y' xs' ys' Hxy _ IH]; simpl; intros Hin; [contradiction |].
  destruct Hin as [-> | Hin].
  - exists x. auto.
  - destruct (IH Hin) as (x0 & Hx0 & HR). exists x0. auto.
Qed.

Lemma extract_row_spec (columnNames : list string) (entry : JsVal) (row : list JsVal) :
  extract_row columnNames entry = inr row <-> row_of_entry columnNames entry row.
Proof. apply map_err_Forall2. Qed.

Lemma row_of_entry_length (columnNames : list string) (entry : JsVal) (row : list JsVal) :
  row_of_entry columnNames entry row -> length row = length columnNames.
Proof. intros H. symmetry. eapply Forall2_length. exact H. Qed.

(** One [rowData]: its entries are read one after the other, and each row
    is finished as it is pushed. *)
Lemma rows_of_rowData_entries (finish : list JsVal -> list JsVal)
    (columnNames : list string) (rowData : JsVal) :
  rows_of_rowData finish columnNames rowData
  = bind_err (map_err (extract_row columnNames) (entries_of rowData))
             (fun rows => inr (map finish rows)).
Proof.
  assert (Hone : forall entry,
             bind_err (extract_row columnNames entry) (fun row => inr [finish row])
             = bind_err (map_err (extract_row columnNames) [entry])
                        (fun rows => inr (map finish rows))).
  { intros entry. simpl.
    destruct (extract_row columnNames entry); reflexivity. }
  destruct rowData as [| | b | x | s | elements | properties | [] | owner name];
    try reflexivity; try apply Hone.
  simpl. induction elements as [| entry rest IH]; simpl; [reflexivity |].
  destruct (extract_row columnNames entry) as [e | row]; simpl; [reflexivity |].
  rewrite IH.
  destruct (map_err (extract_row columnNames) rest); reflexivity.
Qed.

Lemma inputRows_spec (finish : list JsVal -> list JsVal) (columnNames : list string)
    (itemsPath : string) (i : nat) (items : list NodeExecutionData) :
  forall pushed,
    inputRows finish columnNames itemsPath i items = inr pushed
    <-> exists rows,
          input_rows columnNames itemsPath i items rows /\ pushed = map finish rows.
Proof.
  unfold input_rows, items_rowData.
  induction items as [| item rest IH]; simpl; intros pushed.
  - split.
    + intros H. injection H as <-. exists []. split; [| reflexivity].
      exists []. split; constructor.
    + intros (rows & (rowDatas & Hitems & Hrows) & ->).
      inversion Hitems; subst. simpl in Hrows. inversion Hrows. reflexivity.
  - split.
    + destruct (rowData_of itemsPath item i) as [e | rowData] eqn:Hitem; simpl;
        [discriminate |].
      rewrite rows_of_rowData_entries.
      destruct (map_err (extract_row columnNames) (entries_of rowData))
        as [e | first] eqn:Hfirst; simpl; [discriminate |].
      destruct (inputRows finish columnNames itemsPath i rest) as [e | more] eqn:Hmore;
        simpl; [discriminate |].
      intros H. injection H as <-.
      destruct (proj1 (IH more) eq_refl) as (rows & (rowDatas & Hitems & Hrows) & ->).
      exists (first ++ rows)%list. split; [| rewrite map_app; reflexivity].
      exists (rowData :: rowDatas). split; [constructor; assumption |].
      simpl. apply Forall2_app; [| exact Hrows].
      apply map_err_Forall2 in Hfirst.
      eapply Forall2_impl; [| exact Hfirst].
      intros entry row. apply extract_row_spec.
    + intros (rows & (rowDatas & Hitems & Hrows) & ->).
      inversion Hitems as [| item' rowData items' rowDatas' Hitem Hrest]; subst.
      simpl in Hrows. apply Forall2_app_inv_l in Hrows.
      destruct Hrows as (first & more & Hfirst & Hmore & ->).
      rewrite Hitem. simpl. rewrite rows_of_rowData_entries.
      assert (Hmap : map_err (extract_row columnNames) (entries_of rowData) = inr first).
      { apply map_err_Forall2. eapply Forall2_impl; [| exact Hfirst].
        intros entry row. apply extract_row_spec. }
      rewrite Hmap. simpl.
      rewrite (proj2 (IH (map finish more))).
      * simpl. rewrite map_app. reflexivity.
      * exists more. split; [| reflexivity]. exists rowDatas'. auto.
Qed.

(** The input-items branch succeeds exactly when every item has its row
    data, every entry can be read and there is at least one row. *)
Lemma collectRows_input_spec (finish : list JsVal -> list JsVal)
    (noValues noData : string) (p : Param.t) (items : list NodeExecutionData)
    (i : nat) (pushed : list (list JsVal)) :
  (Param.dataSource p =? "manualInput") = false ->
  collectRows finish noValues noData p items i = inr pushed
  <-> exists rows,
        input_rows (Param.columns p) (Param.itemsPath p) i items rows
        /\ rows <> [] /\ pushed = map finish rows.
Proof.
  intros Hsource. unfold collectRows. rewrite Hsource. split.
  - destruct (inputRows finish (Param.columns p) (Param.itemsPath p) i items)
      as [e | found] eqn:Hfound; simpl; [discriminate |].
    apply inputRows_spec in Hfound. destruct Hfound as (rows & Hrows & ->).
    rewrite length_map.
    destruct rows as [| row rows']; simpl; [discriminate |].
    intros H. injection H as <-.
    exists (row :: rows'). split; [exact Hrows |]. split; [discriminate | reflexivity].
  - intros (rows & Hrows & Hne & ->).
    rewrite (proj2 (inputRows_spec finish _ _ _ _ (map finish rows))).
    + simpl. rewrite length_map.
      destruct rows; [contradiction | reflexivity].
    + exists rows. auto.
Qed.

(** The manual branch succeeds exactly when there are values and their
    count is a multiple of the column count, with one row per group. *)
Lemma collectRows_manual_spec (finish : list JsVal -> list JsVal)
    (noValues noData : string) (p : Param.t) (items : list NodeExecutionData)
    (i : nat) (pushed : list (list JsVal)) :
  (Param.dataSource p =? "manualInput") = true ->
  0 < length (Param.columns p) ->
  let k := length (Param.columns p) in
  let n := length (Param.valueItems p) in
  collectRows finish noValues noData p items i = inr pushed
  <-> 0 < n /\ n mod k = 0
      /\ pushed = map (fun j => finish (value_group k (Param.valueItems p) j))
                      (seq 0 (n / k)).
Proof.
  intros Hsource Hk k n. unfold collectRows. rewrite Hsource.
  destruct (manualRows_spec finish noValues (Param.columns p) (Param.valueItems p) i Hk)
    as [Hok Hfail].
  fold k in Hok, Hfail. fold n in Hok, Hfail.
  assert (Hdec : (0 < n /\ n mod k = 0) \/ ~ (0 < n /\ n mod k = 0)).
  { destruct (Nat.eq_dec (n mod k) 0); destruct (Nat.eq_dec n 0); lia. }
  split.
  - intros H. destruct Hdec as [Hgood | Hbad].
    + rewrite (Hok Hgood) in H. injection H as <-.
      destruct Hgood. auto.
    + destruct (Hfail Hbad) as [message Hm]. rewrite Hm in H. discriminate H.
  - intros (Hn & Hmod & ->). apply Hok. auto.
Qed.

(** ** updateRows *)

(** C2.  For an updateRows call with [k] columns and [m] where parameters
    that passes the table, column and where checks, the statements built
    are known exactly, in both modes.  Every statement has the text
    [UPDATE <table> SET col1 = ?, ..., colk = ? WHERE <whereClause>] and,
    as args, the [k] values of its row followed by the [m] where
    parameters: [k + m] args, the first [k] of them the row, the rest the
    where parameters.  In manual mode a plan is built exactly when there
    are values and their count [n] is a multiple of [k], and statement [j]
    carries the [j]-th group of [k] values.  In input-items mode a plan is
    built exactly when every item has its row data, every entry can be
    read and there is at least one entry, and the statements follow the
    entries, item after item, each carrying [entry[col1], ..., entry[colk]]
    of its own entry. *)
Theorem updateRows_args_spec (p : Param.t) (items : list NodeExecutionData) (i : nat) :
  let cols := Param.columns p in
  let k := length cols in
  let m := length (Param.whereParams p) in
  let n := length (Param.valueItems p) in
  let whereArgs := map JStr (map value (Param.whereParams p)) in
  let statement := fun row =>
    {| sql := "UPDATE " ++ Param.table p ++ " SET "
              ++ Js.join ", " (map (fun col => col ++ " = ?") cols)
              ++ " WHERE " ++ Param.whereClause p;
       args := (row ++ whereArgs)%list |} in
  Js.blank (Param.table p) = false ->
  0 < k ->
  Js.blank (Param.whereClause p) = false ->
  (forall row,
     length row = k ->
     length (args (statement row)) = k + m
     /\ firstn k (args (statement row)) = row
     /\ skipn k (args (statement row)) = whereArgs)
  /\ ((Param.dataSource p =? "manualInput") = true ->
      forall plan,
        updateRows_plan p items i = inr plan
        <-> 0 < n /\ n mod k = 0
            /\ plan = map (fun j => statement (value_group k (Param.valueItems p) j))
                          (seq 0 (n / k)))
  /\ ((Param.dataSource p =? "manualInput") = false ->
      forall plan,
        updateRows_plan p items i = inr plan
        <-> exists rows,
              input_rows cols (Param.itemsPath p) i items rows
              /\ rows <> [] /\ plan = map statement rows)
  /\ (forall plan,
        updateRows_plan p items i = inr plan ->
        plan <> []
        /\ Forall (fun st => exists row, length row = k /\ st = statement row) plan).
Proof.
  intros cols k m n whereArgs statement Htable Hk Hwhere.
  assert (Hk0 : Nat.eqb (length (Param.columns p)) 0 = false).
  { apply Nat.eqb_neq. fold cols. fold k. lia. }
  assert (Hplan : forall plan,
             updateRows_plan p items i = inr plan
             <-> exists pushed,
                   collectRows (fun row => (row ++ whereArgs)%list)
                               "No values provided for update operation"
                               "No data found to update" p items i = inr pushed
                   /\ plan = map (fun row => {| sql := updateQuery p; args := row |})
                                 pushed).
  { intros plan. unfold updateRows_plan, updateRows_rows.
    rewrite Htable, Hk0, Hwhere. fold whereArgs.
    destruct (collectRows _ _ _ p items i) as [e | pushed]; simpl.
    - split; [discriminate | intros (pushed & Hp & _); discriminate Hp].
    - unfold statements. split.
      + intros H. injection H as <-. exists pushed. auto.
      + intros (pushed' & Hp & ->). injection Hp as <-. reflexivity. }
  assert (Hmanual : (Param.dataSource p =? "manualInput") = true ->
            forall plan,
              updateRows_plan p items i = inr plan
              <-> 0 < n /\ n mod k = 0
                  /\ plan = map (fun j => statement (value_group k (Param.valueItems p) j))
                                (seq 0 (n / k))).
  { intros Hsource plan. rewrite Hplan. split.
    - intros (pushed & Hp & ->).
      apply (collectRows_manual_spec _ _ _ p items i pushed Hsource Hk) in Hp.
      destruct Hp as (Hn & Hmod & ->).
      split; [exact Hn |]. split; [exact Hmod |].
      rewrite map_map. reflexivity.
    - intros (Hn & Hmod & ->). eexists. split.
      + apply (collectRows_manual_spec _ _ _ p items i _ Hsource Hk). eauto.
      + rewrite map_map. reflexivity. }
  assert (Hinput : (Param.dataSource p =? "manualInput") = false ->
            forall plan,
              updateRows_plan p items i = inr plan
              <-> exists rows,
                    input_rows cols (Param.itemsPath p) i items rows
                    /\ rows <> [] /\ plan = map statement rows).
  { intros Hsource plan. rewrite Hplan. split.
    - intros (pushed & Hp & ->).
      apply (collectRows_input_spec _ _ _ p items i pushed Hsource) in Hp.
      destruct Hp as (rows & Hrows & Hne & ->).
      exists rows. split; [exact Hrows |]. split; [exact Hne |].
      rewrite map_map. reflexivity.
    - intros (rows & Hrows & Hne & ->). eexists. split.
      + apply (collectRows_input_spec _ _ _ p items i _ Hsource). eauto.
      + rewrite map_map. reflexivity. }
  split; [| split; [exact Hmanual | split; [exact Hinput |]]].
  - intros row Hrow. simpl.
    rewrite length_app. unfold whereArgs. rewrite !length_map. fold m.
    split; [lia |].
    rewrite <- Hrow. rewrite firstn_app, Nat.sub_diag, firstn_all. simpl.
    rewrite app_nil_r. split; [reflexivity |].
    rewrite skipn_app, Nat.sub_diag, skipn_all. reflexivity.
  - intros plan Hbuilt.
    destruct (Param.dataSource p =? "manualInput") eqn:Hsource.
    + apply (Hmanual eq_refl) in Hbuilt. destruct Hbuilt as (Hn & Hmod & ->).
      pose proof (Nat.div_mod_eq n k) as Hdiv. rewrite Hmod in Hdiv.
      assert (Hgroups : 0 < n / k) by nia.
      split.
      * destruct (n / k); [lia | discriminate].
      * apply Forall_map. apply Forall_forall. intros j Hj. apply in_seq in Hj.
        exists (value_group k (Param.valueItems p) j). split; [| reflexivity].
        apply value_group_length; [exact Hk | exact Hmod | fold n; lia].
    + apply (Hinput eq_refl) in Hbuilt. destruct Hbuilt as (rows & Hrows & Hne & ->).
      split.
      * intros Hnil. apply map_eq_nil in Hnil. contradiction.
      * destruct Hrows as (rowDatas & _ & Hrows).
        apply Forall_map. apply Forall_forall. intros row Hin.
        exists row. split; [| reflexivity].
        destruct (Forall2_In_right _ _ _ _ Hrows Hin) as (entry & _ & Hentry).
        eapply row_of_entry_length. exact Hentry.
Qed.

Lemma updateRows_args_spec_witness :
  updateRows_plan
    (row_parameters "t" ["name"] "inputItems" [] "data" "id = ? AND org = ?" ["5"; "acme"])
    record_items 0
  = inr [ {| sql := "UPDATE t SET name = ? WHERE id = ? AND org = ?";
             args := [JStr "ann"; JStr "5"; JStr "acme"] |};
          {| sql := "UPDATE t SET name = ? WHERE id = ? AND org = ?";
             args := [JUndefined; JStr "5"; JStr "acme"] |} ].
Proof.
  destruct (updateRows_args_spec
              (row_parameters "t" ["name"] "inputItems" [] "data" "id = ? AND org = ?"
                              ["5"; "acme"])
              record_items 0 eq_refl (Nat.lt_0_succ 0) eq_refl)
    as (_ & _ & Hinput & _).
  apply (Hinput eq_refl).
  exists [[JStr "ann"]; [JUndefined]]. split; [| split; [discriminate | reflexivity]].
  exists [JObj [("id", JNum 1); ("name", JStr "ann")]; JObj [("id", JNum 2)]].
  split; repeat constructor.
Defined.

Example updateRows_manual_run :
  updateRows_plan update_example [] 0
  = inr [ {| sql := "UPDATE t SET name = ?, age = ? WHERE id = ?";
             args := [JStr "ann"; JStr "41"; JStr "5"] |} ].
Proof. reflexivity. Qed.

Example updateRows_input_items_run :
  updateRows_plan
    (row_parameters "t" ["name"] "inputItems" [] "data" "id = ? AND org = ?" ["5"; "acme"])
    record_items 0
  = inr [ {| sql := "UPDATE t SET name = ? WHERE id = ? AND org = ?";
             args := [JStr "ann"; JStr "5"; JStr "acme"] |};
          {| sql := "UPDATE t SET name = ? WHERE id = ? AND org = ?";
             args := [JUndefined; JStr "5"; JStr "acme"] |} ].
Proof. reflexivity. Qed.

(** ** Input items: extraction by column name *)

Lemma extract_row_object (columnNames : list string) (properties : list (string * JsVal)) :
  extract_row columnNames (JObj properties) = inr (record_values columnNames properties).
Proof.
  unfold extract_row, record_values.
  induction columnNames as [| name rest IH]; simpl.
  - reflexivity.
  - rewrite IH. reflexivity.
Qed.

Lemma read_object_missing (properties : list (string * JsVal)) (name : string) :
  lookup name properties = None ->
  inherited ObjectProto name = JUndefined ->
  read_object properties name = JUndefined.
Proof. unfold read_object. intros -> H. exact H. Qed.

Lemma inherited_nothing (name : string) :
  name <> "__proto__" ->
  ~ In name (proto_members ObjectProto) ->
  inherited ObjectProto name = JUndefined.
Proof.
  intros Hproto Hmember. unfold inherited.
  destruct (String.eqb_spec name "__proto__") as [-> | _]; [contradiction |].
  assert (Hno : is_member ObjectProto name = false).
  { unfold is_member. destruct (existsb _ _) eqn:Hex; [| reflexivity].
    apply existsb_exists in Hex. destruct Hex as (x & Hin & Heq).
    apply String.eqb_eq in Heq. subst x. contradiction. }
  rewrite Hno. reflexivity.
Qed.

Lemma inherited_member (name : string) :
  In name (proto_members ObjectProto) ->
  inherited ObjectProto name = JMember ObjectProto name.
Proof.
  intros Hmember. unfold inherited.
  assert (Hyes : is_member ObjectProto name = true).
  { unfold is_member. apply existsb_exists. exists name.
    split; [exact Hmember | apply String.eqb_refl]. }
  destruct (String.eqb_spec name "__proto__") as [-> | _].
  - simpl in Hmember. repeat (destruct Hmember as [Heq | Hmember];
                               [discriminate Heq |]). contradiction.
  - rewrite Hyes. reflexivity.
Qed.

Lemma read_object_own (properties : list (string * JsVal)) (name : string) :
  inherited ObjectProto name = JUndefined ->
  read_object properties name = or_undefined (lookup name properties).
Proof. unfold read_object. intros H. destruct (lookup name properties); auto. Qed.

Lemma record_values_missing (columnNames : list string) (properties : list (string * JsVal))
    (k : nat) (name : string) :
  nth_error columnNames k = Some name ->
  lookup name properties = None ->
  nth_error (record_values columnNames properties) k
  = Some (inherited ObjectProto name).
Proof.
  intros Hk Hmiss. unfold record_values, read_object.
  rewrite nth_error_map, Hk. simpl.
  rewrite Hmiss. reflexivity.
Qed.

Lemma rows_of_records (finish : list JsVal -> list JsVal) (columnNames : list string)
    (records : list (list (string * JsVal))) :
  rows_of_rowData finish columnNames (JArr (map JObj records))
  = inr (map (fun properties => finish (record_values columnNames properties)) records).
Proof.
  simpl. induction records as [| properties rest IH]; simpl.
  - reflexivity.
  - rewrite extract_row_object. simpl. rewrite IH. reflexivity.
Qed.

Lemma inputRows_records (finish : list JsVal -> list JsVal) (columnNames : list string)
    (itemsPath : string) (i : nat) (items : list NodeExecutionData)
    (recss : list (list (list (string * JsVal)))) :
  Forall2 (item_records itemsPath i) items recss ->
  inputRows finish columnNames itemsPath i items
  = inr (map (fun properties => finish (record_values columnNames properties))
             (concat recss)).
Proof.
  induction 1 as [| item records items' recss' Hitem _ IH]; simpl.
  - reflexivity.
  - destruct Hitem as (rowData & Hrow & Hshape). rewrite Hrow. simpl.
    rewrite IH, map_app.
    destruct Hshape as [(properties & -> & ->) | ->].
    + simpl rows_of_rowData. rewrite extract_row_object. reflexivity.
    + rewrite rows_of_records. reflexivity.
Qed.

Lemma collectRows_records (finish : list JsVal -> list JsVal) (noValues noData : string)
    (p : Param.t) (items : list NodeExecutionData) (i : nat)
    (recss : list (list (list (string * JsVal)))) :
  (Param.dataSource p =? "manualInput") = false ->
  Forall2 (item_records (Param.itemsPath p) i) items recss ->
  concat recss <> [] ->
  collectRows finish noValues noData p items i
  = inr (map (fun properties => finish (record_values (Param.columns p) properties))
             (concat recss)).
Proof.
  intros Hsource Hitems Hne. unfold collectRows. rewrite Hsource.
  rewrite (inputRows_records _ _ _ _ _ _ Hitems). simpl.
  rewrite length_map.
  destruct (concat recss); [contradiction | reflexivity].
Qed.

Section InputItems.

Variable client : Client.

Lemma insertRows_unfold (p : Param.t) (items : list NodeExecutionData) (i : nat)
    (tr : Trace) :
  insertRows client p items i tr
  = match insertRows_plan p items i with
    | inl e => (inl e, tr)
    | inr plan =>
        match executeRows client plan insertResult i "Insert Rows" [] tr with
        | (inl e, tr') => (inl e, tr')
        | (inr results, tr') => (inr (JArr results), tr')
        end
    end.
Proof.
  unfold insertRows. rewrite bind_lift.
  destruct (insertRows_plan p items i) as [e | plan]; [reflexivity |].
  unfold bind, ret.
  destruct (executeRows client plan insertResult i "Insert Rows" [] tr) as [[e | rs] tr'];
    reflexivity.
Qed.

Lemma updateRows_unfold (p : Param.t) (items : list NodeExecutionData) (i : nat)
    (tr : Trace) :
  updateRows client p items i tr
  = match updateRows_plan p items i with
    | inl e => (inl e, tr)
    | inr plan =>
        match executeRows client plan affectedResult i "Update Rows" [] tr with
        | (inl e, tr') => (inl e, tr')
        | (inr results, tr') => (inr (JArr results), tr')
        end
    end.
Proof.
  unfold updateRows. rewrite bind_lift.
  destruct (updateRows_plan p items i) as [e | plan]; [reflexivity |].
  unfold bind, ret.
  destruct (executeRows client plan affectedResult i "Update Rows" [] tr)
    as [[e | rs] tr']; reflexivity.
Qed.

(** What a built plan leads to: its first statement is always submitted,
    only statements of the plan are, and all of them when the client
    answers every statement. *)
Lemma plan_submitted (shape : RawResult -> JsVal) (i : nat) (operation : string)
    (plan : list Statement) (tr : Trace) :
  plan <> [] ->
  let run :=
    match executeRows client plan shape i operation [] tr with
    | (inl e, tr') => (inl e, tr')
    | (inr results, tr') => (inr (JArr results), tr')
    end in
  (exists m, 0 < m /\ snd run = (tr ++ firstn m plan)%list)
  /\ ((forall tr' st, exists result, client tr' st = inr result) ->
      snd run = (tr ++ plan)%list /\ exists v, fst run = inr v).
Proof.
  intros Hne run. subst run. split.
  - destruct (executeRows_spec client shape i operation plan [] tr)
      as (m & _ & Hpos & Htr & _).
    exists m. split; [auto |].
    destruct (executeRows client plan shape i operation [] tr) as [[e | rs] tr'];
      exact Htr.
  - intros Hclient.
    destruct (executeRows_total client shape i operation plan [] tr Hclient)
      as [Htr [rs Hrs]].
    destruct (executeRows client plan shape i operation [] tr) as [[e | rs'] tr'];
      simpl in *; [discriminate Hrs |].
    split; [exact Htr | eexists; reflexivity].
Qed.

(** C9 (as amended).  In input-items mode the values of a record are read
    by column name, [record[name]], with no presence check.  When the input items
    hold records (an object, or an array of objects, under the item path),
    insertRows and updateRows build one statement per record whose args
    are the record's values of the selected columns (followed by the where
    parameters for updateRows).  At the position of a column the record
    lacks the row holds what the record inherits under that name: nothing,
    [undefined], for every name but [__proto__] and the names of the
    members of [Object.prototype], and the prototype or its member for
    those.  No validation error is raised, the first statement is always
    submitted, and all of them are when the client answers every call. *)
Theorem inputItems_no_presence_check (p : Param.t) (items : list NodeExecutionData)
    (recss : list (list (list (string * JsVal)))) (i : nat) (tr : Trace) :
  (Param.dataSource p =? "manualInput") = false ->
  Js.blank (Param.table p) = false ->
  Param.columns p <> [] ->
  Forall2 (item_records (Param.itemsPath p) i) items recss ->
  concat recss <> [] ->
  let cols := Param.columns p in
  let whereArgs := map JStr (map value (Param.whereParams p)) in
  let insert_plan :=
    map (fun properties =>
           {| sql := insertQuery p; args := record_values cols properties |})
        (concat recss) in
  let update_plan :=
    map (fun properties =>
           {| sql := updateQuery p;
              args := (record_values cols properties ++ whereArgs)%list |})
        (concat recss) in
  (forall properties k name,
     nth_error cols k = Some name ->
     lookup name properties = None ->
     nth_error (record_values cols properties) k = Some (inherited ObjectProto name)
     /\ (name <> "__proto__" -> ~ In name (proto_members ObjectProto) ->
         nth_error (record_values cols properties) k = Some JUndefined)
     /\ (name = "__proto__" ->
         nth_error (record_values cols properties) k = Some (JProto ObjectProto))
     /\ (In name (proto_members ObjectProto) ->
         nth_error (record_values cols properties) k
         = Some (JMember ObjectProto name)))
  /\ insertRows_plan p items i = inr insert_plan
  /\ (exists m, 0 < m
                /\ snd (insertRows client p items i tr)
                   = (tr ++ firstn m insert_plan)%list)
  /\ ((forall tr' st, exists result, client tr' st = inr result) ->
      snd (insertRows client p items i tr) = (tr ++ insert_plan)%list
      /\ exists v, fst (insertRows client p items i tr) = inr v)
  /\ (Js.blank (Param.whereClause p) = false ->
      updateRows_plan p items i = inr update_plan
      /\ (exists m, 0 < m
                    /\ snd (updateRows client p items i tr)
                       = (tr ++ firstn m update_plan)%list)
      /\ ((forall tr' st, exists result, client tr' st = inr result) ->
          snd (updateRows client p items i tr) = (tr ++ update_plan)%list
          /\ exists v, fst (updateRows client p items i tr) = inr v)).
Proof.
  intros Hsource Htable Hcols Hitems Hne cols whereArgs insert_plan update_plan.
  assert (Hk : Nat.eqb (length (Param.columns p)) 0 = false).
  { destruct (Param.columns p); [contradiction | reflexivity]. }
  assert (Hinsert : insertRows_plan p items i = inr insert_plan).
  { unfold insertRows_plan, insertRows_rows. rewrite Htable, Hk.
    rewrite (collectRows_records _ _ _ _ _ _ _ Hsource Hitems Hne). simpl.
    unfold statements. rewrite map_map. reflexivity. }
  assert (Hplan_ne : forall (A : Type) (f : list (string * JsVal) -> A),
             map f (concat recss) <> []).
  { intros A f Hmap. apply map_eq_nil in Hmap. contradiction. }
  split.
  { intros properties k name Hname Hmiss.
    rewrite (record_values_missing cols properties k name Hname Hmiss).
    split; [reflexivity |].
    split; [| split].
    - intros Hproto Hmember. f_equal. apply inherited_nothing; assumption.
    - intros ->. reflexivity.
    - intros Hmember. f_equal. apply inherited_member. exact Hmember. }
  split; [exact Hinsert |].
  split; [| split].
  - rewrite insertRows_unfold, Hinsert.
    apply (plan_submitted insertResult i "Insert Rows" insert_plan tr (Hplan_ne _ _)).
  - rewrite insertRows_unfold, Hinsert.
    apply (plan_submitted insertResult i "Insert Rows" insert_plan tr (Hplan_ne _ _)).
  - intros Hwhere.
    assert (Hupdate : updateRows_plan p items i = inr update_plan).
    { unfold updateRows_plan, updateRows_rows. rewrite Htable, Hk, Hwhere.
      rewrite (collectRows_records _ _ _ _ _ _ _ Hsource Hitems Hne). simpl.
      unfold statements. rewrite map_map. reflexivity. }
    split; [exact Hupdate |].
    rewrite updateRows_unfold, Hupdate.
    apply (plan_submitted affectedResult i "Update Rows" update_plan tr (Hplan_ne _ _)).
Qed.

End InputItems.

Lemma record_items_records :
  Forall2 (item_records "data" 0) record_items
          [ [ [("id", JNum 1); ("name", JStr "ann")] ]; [ [("id", JNum 2)] ] ].
Proof.
  repeat constructor.
  - exists (JObj [("id", JNum 1); ("name", JStr "ann")]). split; [reflexivity |].
    left. eexists. split; reflexivity.
  - exists (JObj [("id", JNum 2)]). split; [reflexivity |].
    left. eexists. split; reflexivity.
Defined.

Lemma inputItems_no_presence_check_witness :
  insertRows_plan (row_parameters "t" ["id"; "name"; "toString"] "inputItems" [] "data" "" [])
                  record_items 0
  = inr [ {| sql := "INSERT INTO t (id, name, toString) VALUES (?, ?, ?)";
             args := [JNum 1; JStr "ann"; JMember ObjectProto "toString"] |};
          {| sql := "INSERT INTO t (id, name, toString) VALUES (?, ?, ?)";
             args := [JNum 2; JUndefined; JMember ObjectProto "toString"] |} ].
Proof.
  apply (proj1 (proj2
    (inputItems_no_presence_check (constant_client empty_result)
       (row_parameters "t" ["id"; "name"; "toString"] "inputItems" [] "data" "" [])
       record_items _ 0 [] eq_refl eq_refl
       ltac:(discriminate) record_items_records ltac:(discriminate)))).
Defined.

(** C9 as stated fails: a record without a [constructor] property, read
    for the column [constructor], gives the member it inherits, not
    [undefined]. *)
Lemma inputItems_inherited_counterexample :
  ~ (forall (p : Param.t) (items : list NodeExecutionData)
            (recss : list (list (list (string * JsVal)))) (i : nat)
            (plan : list Statement),
       (Param.dataSource p =? "manualInput") = false ->
       Forall2 (item_records (Param.itemsPath p) i) items recss ->
       insertRows_plan p items i = inr plan ->
       forall j properties k name st,
         nth_error (concat recss) j = Some properties ->
         nth_error (Param.columns p) k = Some name ->
         lookup name properties = None ->
         nth_error plan j = Some st ->
         nth_error (args st) k = Some JUndefined).
Proof.
  intros H.
  specialize (H (row_parameters "t" ["id"; "constructor"] "inputItems" [] "data" "" [])
                record_items _ 0 _ eq_refl record_items_records eq_refl
                1 [("id", JNum 2)] 1 "constructor" _ eq_refl eq_refl eq_refl eq_refl).
  vm_compute in H. discriminate H.
Qed.

Example insertRows_missing_column_run :
  insertRows (constant_client empty_result)
             (row_parameters "t" ["id"; "name"] "inputItems" [] "data" "" [])
             record_items 0 []
  = (inr (JArr [insertResult empty_result; insertResult empty_result]),
     [ {| sql := "INSERT INTO t (id, name) VALUES (?, ?)";
          args := [JNum 1; JStr "ann"] |};
       {| sql := "INSERT INTO t (id, name) VALUES (?, ?)";
          args := [JNum 2; JUndefined] |} ]).
Proof. reflexivity. Qed.

(** ** selectRows *)

Lemma append_assoc (a b c : string) : (a ++ b) ++ c = a ++ (b ++ c).
Proof. induction a as [| ch a IH]; simpl; [reflexivity | rewrite IH; reflexivity]. Qed.

(** What a built selectRows statement is made of. *)
Lemma selectRows_statement_inv (p : Param.t) (i : nat) (st : Statement) :
  selectRows_statement p i = inr st ->
  exists clause order lim,
    Js.blank (Param.table p) = false
    /\ columnsList p i = inr clause
    /\ orderByClause p i = inr order
    /\ limitOffsetClause p i = inr lim
    /\ (Param.useWhere p = true -> Js.blank (Param.whereClauseSelect p) = false)
    /\ sql st = "SELECT " ++ clause ++ " FROM " ++ Param.table p
                ++ (if Param.useWhere p
                    then " WHERE " ++ Param.whereClauseSelect p else "")
                ++ order ++ lim
    /\ args st = (if Param.useWhere p
                  then map JStr (map value (Param.whereParamsSelect p)) else []).
Proof.
  unfold selectRows_statement. intros H.
  destruct (Js.blank (Param.table p)); [discriminate H |].
  destruct (columnsList p i) as [e | clause]; simpl in H; [discriminate H |].
  unfold selectWhere in H.
  destruct (Param.useWhere p) eqn:Hw.
  - destruct (Js.blank (Param.whereClauseSelect p)) eqn:Hb; simpl in H;
      [discriminate H |].
    destruct (orderByClause p i) as [e | order]; simpl in H; [discriminate H |].
    destruct (limitOffsetClause p i) as [e | lim]; simpl in H; [discriminate H |].
    injection H as <-. exists clause, order, lim. simpl.
    repeat split; auto.
    rewrite !append_assoc. reflexivity.
  - simpl in H.
    destruct (orderByClause p i) as [e | order]; simpl in H; [discriminate H |].
    destruct (limitOffsetClause p i) as [e | lim]; simpl in H; [discriminate H |].
    injection H as <-. exists clause, order, lim. simpl.
    repeat split; auto; try discriminate.
    rewrite !append_assoc. reflexivity.
Qed.

(** A selectRows descriptor that fails a check submits nothing. *)
Lemma selectRows_refused (client : Client) (p : Param.t) (i : nat) (tr : Trace)
    (e : JsError) :
  selectRows_statement p i = inl e -> selectRows client p i tr = (inl e, tr).
Proof. intros H. unfold selectRows. rewrite bind_lift, H. reflexivity. Qed.

(** The checks of selectRows raise validation errors only. *)
Lemma selectRows_statement_error (p : Param.t) (i : nat) (e : JsError) :
  selectRows_statement p i = inl e -> exists message, e = operationError message i.
Proof.
  unfold selectRows_statement, columnsList, selectWhere, orderByClause,
    limitOffsetClause.
  intros H.
  repeat match type of H with
         | context [if ?b then _ else _] => destruct b; simpl in H
         end;
    try discriminate H; injection H as <-; eexists; reflexivity.
Qed.

(** C7.  With the limit option enabled, selectRows fails with a validation
    error, nothing being submitted, when [limit <= 0]; otherwise a built
    statement ends with [ LIMIT <limit>], followed by [ OFFSET <offset>]
    exactly when [offset > 0]; both numbers are written into the text as
    a template literal prints them, and the args are the where parameters
    only.  A limit that is not [<= 0] builds whenever the other checks
    pass.  The numbers are any JavaScript numbers: the comparisons are the
    code's, so that [NaN], which is not [<= 0], is written as a limit. *)
Theorem selectRows_limit_spec (p : Param.t) (i : nat) :
  Param.useLimit p = true ->
  (Num.le_zero (Param.limit p) = true ->
   exists message,
     selectRows_statement p i = inl (operationError message i)
     /\ forall client tr,
          selectRows client p i tr = (inl (operationError message i), tr))
  /\ (forall st,
        selectRows_statement p i = inr st ->
        Num.le_zero (Param.limit p) = false
        /\ (exists head,
              sql st = head ++ " LIMIT " ++ number_text (Param.limit p)
                       ++ (if Num.gt_zero (Param.offset p)
                           then " OFFSET " ++ number_text (Param.offset p)
                           else ""))
        /\ args st = (if Param.useWhere p
                      then map JStr (map value (Param.whereParamsSelect p))
                      else []))
  /\ (Num.le_zero (Param.limit p) = false ->
      Js.blank (Param.table p) = false ->
      Param.selectAllColumns p = true \/ Param.columns p <> [] ->
      (Param.useWhere p = true -> Js.blank (Param.whereClauseSelect p) = false) ->
      (Param.useOrderBy p = true -> Js.blank (Param.orderBy p) = false) ->
      exists st, selectRows_statement p i = inr st).
Proof.
  intros Hlimit. split; [| split].
  - intros Hle.
    destruct (selectRows_statement p i) as [e | st] eqn:Hst.
    + destruct (selectRows_statement_error p i e Hst) as [message ->].
      exists message. split; [reflexivity |].
      intros client tr. apply selectRows_refused. exact Hst.
    + exfalso. apply selectRows_statement_inv in Hst.
      destruct Hst as (clause & order & lim & _ & _ & _ & Hlim & _).
      unfold limitOffsetClause in Hlim. rewrite Hlimit, Hle in Hlim.
      discriminate Hlim.
  - intros st Hst. apply selectRows_statement_inv in Hst.
    destruct Hst as (clause & order & lim & _ & _ & _ & Hlim & _ & Hsql & Hargs).
    unfold limitOffsetClause in Hlim. rewrite Hlimit in Hlim.
    destruct (Num.le_zero (Param.limit p)); [discriminate Hlim |].
    injection Hlim as <-. split; [reflexivity |]. split; [| exact Hargs].
    exists ("SELECT " ++ clause ++ " FROM " ++ Param.table p
            ++ (if Param.useWhere p then " WHERE " ++ Param.whereClauseSelect p else "")
            ++ order).
    rewrite Hsql, !append_assoc. reflexivity.
  - intros Hgt Htable Hcols Hwhere Horder.
    unfold selectRows_statement, columnsList, selectWhere, orderByClause,
      limitOffsetClause.
    rewrite Htable, Hlimit, Hgt.
    assert (Hc : exists clause,
               (if Param.selectAllColumns p then inr "*"
                else if Nat.eqb (length (Param.columns p)) 0
                     then inl (operationError "At least one column must be selected" i)
                     else inr (Js.join ", " (Param.columns p)))
               = (inr clause : JsError + string)).
    { destruct (Param.selectAllColumns p); [eexists; reflexivity |].
      destruct Hcols as [Hall | Hne]; [discriminate Hall |].
      destruct (Param.columns p); [contradiction | eexists; reflexivity]. }
    destruct Hc as [clause ->]. simpl.
    destruct (Param.useWhere p).
    + rewrite (Hwhere eq_refl). simpl.
      destruct (Param.useOrderBy p).
      * rewrite (Horder eq_refl). simpl. eexists. reflexivity.
      * simpl. eexists. reflexivity.
    + simpl. destruct (Param.useOrderBy p).
      * rewrite (Horder eq_refl). simpl. eexists. reflexivity.
      * simpl. eexists. reflexivity.
Qed.

Lemma selectRows_limit_spec_witness :
  selectRows_statement limit_example 0
  = inr {| sql := "SELECT a FROM t LIMIT 10"; args := [] |}
  /\ exists st, selectRows_statement limit_example 0 = inr st.
Proof.
  split; [reflexivity |].
  apply (proj2 (proj2 (selectRows_limit_spec limit_example 0 eq_refl))).
  - reflexivity.
  - reflexivity.
  - right. discriminate.
  - discriminate.
  - discriminate.
Defined.

Example selectRows_limit_offset_run :
  selectRows_statement
    (select_parameters "t" false ["a"; "b"] (Some ("a > ?", ["3"]))
                       (Some ("b", "DESC")) (Some (Num.of_nat 10, Num.of_nat 20))) 0
  = inr {| sql := "SELECT a, b FROM t WHERE a > ? ORDER BY b DESC LIMIT 10 OFFSET 20";
           args := [JStr "3"] |}.
Proof. reflexivity. Qed.

Example selectRows_limit_zero_run :
  selectRows_statement
    (select_parameters "t" false ["a"] None None (Some (Num.of_nat 0, Num.of_nat 0))) 0
  = inl (operationError "Limit must be greater than 0" 0).
Proof. reflexivity. Qed.

(** Numbers that are not counts: a fraction, a large number, a negative
    offset and [NaN]. *)
Example selectRows_limit_numbers_run :
  let fraction := {| number_sign := Positive; number_text := "2.5" |} in
  let large := {| number_sign := Positive; number_text := "1e+21" |} in
  let below := {| number_sign := Negative; number_text := "-3" |} in
  let nan := {| number_sign := NotANumber; number_text := "NaN" |} in
  selectRows_statement
    (select_parameters "t" false ["a"] None None (Some (fraction, large))) 0
  = inr {| sql := "SELECT a FROM t LIMIT 2.5 OFFSET 1e+21"; args := [] |}
  /\ selectRows_statement
       (select_parameters "t" false ["a"] None None (Some (nan, below))) 0
     = inr {| sql := "SELECT a FROM t LIMIT NaN"; args := [] |}
  /\ selectRows_statement
       (select_parameters "t" false ["a"] None None (Some (below, nan))) 0
     = inl (operationError "Limit must be greater than 0" 0).
Proof. repeat split; reflexivity. Qed.

(** C8.  With the select-all-columns flag set the column clause is [*]
    whatever the column list holds; without it an empty column list fails
    with a validation error, and otherwise the clause is the columns joined
    with a comma and a space.  A built statement starts with
    [SELECT <clause> FROM <table>]. *)
Theorem columnsList_spec (p : Param.t) (i : nat) :
  (Param.selectAllColumns p = true -> columnsList p i = inr "*")
  /\ (Param.selectAllColumns p = false -> Param.columns p = [] ->
      columnsList p i
      = inl (operationError "At least one column must be selected" i)
      /\ exists message, selectRows_statement p i = inl (operationError message i))
  /\ (Param.selectAllColumns p = false -> Param.columns p <> [] ->
      columnsList p i = inr (Js.join ", " (Param.columns p)))
  /\ (forall st,
        selectRows_statement p i = inr st ->
        exists clause rest,
          columnsList p i = inr clause
          /\ sql st = "SELECT " ++ clause ++ " FROM " ++ Param.table p ++ rest).
Proof.
  unfold columnsList. split; [| split; [| split]].
  - intros ->. reflexivity.
  - intros Hall Hnil. split.
    + rewrite Hall, Hnil. reflexivity.
    + destruct (selectRows_statement p i) as [e | st] eqn:Hst.
      * destruct (selectRows_statement_error p i e Hst) as [message ->].
        exists message. reflexivity.
      * exfalso. apply selectRows_statement_inv in Hst.
        destruct Hst as (clause & order & lim & _ & Hc & _).
        unfold columnsList in Hc. rewrite Hall, Hnil in Hc. discriminate Hc.
  - intros Hall Hne. rewrite Hall.
    destruct (Param.columns p); [contradiction | reflexivity].
  - intros st Hst. apply selectRows_statement_inv in Hst.
    destruct Hst as (clause & order & lim & _ & Hc & _ & _ & _ & Hsql & _).
    exists clause. eexists. split; [exact Hc | exact Hsql].
Qed.

Lemma columnsList_spec_witness :
  columnsList (select_parameters "t" true ["a"; "b"] None None None) 0 = inr "*"
  /\ columnsList (select_parameters "t" false ["a"; "b"] None None None) 0
     = inr "a, b"
  /\ columnsList (select_parameters "t" false [] None None None) 0
     = inl (operationError "At least one column must be selected" 0).
Proof.
  split; [| split].
  - apply (proj1 (columnsList_spec _ 0)). reflexivity.
  - apply (proj1 (proj2 (proj2 (columnsList_spec
             (select_parameters "t" false ["a"; "b"] None None None) 0))));
      [reflexivity | discriminate].
  - apply (proj1 (proj1 (proj2 (columnsList_spec
             (select_parameters "t" false [] None None None) 0)) eq_refl eq_refl)).
Defined.

Example selectRows_wildcard_run :
  selectRows_statement (select_parameters "t" true ["a"; "b"] None None None) 0
  = inr {| sql := "SELECT * FROM t"; args := [] |}.
Proof. reflexivity. Qed.

(** ** Interpolated identifiers *)

Section Identifiers.

Variable client : Client.

Lemma describeTable_unfold (p : Param.t) (i : nat) (tr : Trace) :
  describeTable client p i tr
  = match describeTable_statement p i with
    | inl e => (inl e, tr)
    | inr st =>
        guarded client st
                (fun result => inr (JObj [("columns", JArr (rows_or_empty result))]))
                i "Describe Table" tr
    end.
Proof. unfold describeTable. rewrite bind_lift. reflexivity. Qed.

(** The statement of a selectRows call that passes every check. *)
Lemma selectRows_statement_built (p : Param.t) (i : nat) :
  Js.blank (Param.table p) = false ->
  Param.selectAllColumns p = true \/ Param.columns p <> [] ->
  (Param.useWhere p = true -> Js.blank (Param.whereClauseSelect p) = false) ->
  (Param.useOrderBy p = true -> Js.blank (Param.orderBy p) = false) ->
  (Param.useLimit p = true -> Num.le_zero (Param.limit p) = false) ->
  selectRows_statement p i
  = inr {| sql := "SELECT "
                  ++ (if Param.selectAllColumns p then "*"
                      else Js.join ", " (Param.columns p))
                  ++ " FROM " ++ Param.table p
                  ++ (if Param.useWhere p
                      then " WHERE " ++ Param.whereClauseSelect p else "")
                  ++ (if Param.useOrderBy p
                      then " ORDER BY " ++ Param.orderBy p ++ " "
                           ++ Param.orderDirection p
                      else "")
                  ++ (if Param.useLimit p
                      then " LIMIT " ++ number_text (Param.limit p)
                           ++ (if Num.gt_zero (Param.offset p)
                               then " OFFSET " ++ number_text (Param.offset p)
                               else "")
                      else "");
           args := if Param.useWhere p
                   then map JStr (map value (Param.whereParamsSelect p))
                   else [] |}.
Proof.
  intros Htable Hcols Hwhere Horder Hlimit.
  unfold selectRows_statement, columnsList, selectWhere, orderByClause,
    limitOffsetClause.
  rewrite Htable.
  assert (Hc : (if Param.selectAllColumns p then inr "*"
                else if Nat.eqb (length (Param.columns p)) 0
                     then inl (operationError "At least one column must be selected" i)
                     else inr (Js.join ", " (Param.columns p)))
               = (inr (if Param.selectAllColumns p then "*"
                       else Js.join ", " (Param.columns p)) : JsError + string)).
  { destruct (Param.selectAllColumns p); [reflexivity |].
    destruct Hcols as [Hall | Hne]; [discriminate Hall |].
    destruct (Param.columns p); [contradiction | reflexivity]. }
  rewrite Hc. clear Hc. simpl bind_err at 1.
  destruct (Param.useWhere p); [rewrite (Hwhere eq_refl) |];
    (destruct (Param.useOrderBy p); [rewrite (Horder eq_refl) |]);
    (destruct (Param.useLimit p); [rewrite (Hlimit eq_refl) |]);
    simpl; rewrite ?append_assoc; simpl; reflexivity.
Qed.

(** C3 (as amended).  The only check on an interpolated identifier is that
    it is not blank.  describeTable refuses a blank table name with nothing
    submitted and submits [PRAGMA table_info(<table>)] for any other table
    name, whatever its characters.  selectRows with an order-by column
    refuses a blank column, nothing being submitted; every other column
    text is accepted: when the other checks pass, the statement is built
    with [ ORDER BY <column> <direction>] written in as given, between the
    where clause and the limit, and it is submitted.  No built statement
    of such a call has another order-by text. *)
Theorem interpolated_identifiers_spec (p : Param.t) (i : nat) (tr : Trace) :
  (Js.blank (Param.table p) = true ->
   describeTable client p i tr
   = (inl (operationError "Table name cannot be empty" i), tr))
  /\ (Js.blank (Param.table p) = false ->
      snd (describeTable client p i tr)
      = (tr ++ [ {| sql := "PRAGMA table_info(" ++ Param.table p ++ ")";
                    args := [] |} ])%list)
  /\ (Param.useOrderBy p = true ->
      (Js.blank (Param.orderBy p) = true ->
       exists message,
         selectRows client p i tr = (inl (operationError message i), tr))
      /\ (Js.blank (Param.orderBy p) = false ->
          Js.blank (Param.table p) = false ->
          Param.selectAllColumns p = true \/ Param.columns p <> [] ->
          (Param.useWhere p = true -> Js.blank (Param.whereClauseSelect p) = false) ->
          (Param.useLimit p = true -> Num.le_zero (Param.limit p) = false) ->
          let st :=
            {| sql := "SELECT "
                      ++ (if Param.selectAllColumns p then "*"
                          else Js.join ", " (Param.columns p))
                      ++ " FROM " ++ Param.table p
                      ++ (if Param.useWhere p
                          then " WHERE " ++ Param.whereClauseSelect p else "")
                      ++ " ORDER BY " ++ Param.orderBy p ++ " " ++ Param.orderDirection p
                      ++ (if Param.useLimit p
                          then " LIMIT " ++ number_text (Param.limit p)
                               ++ (if Num.gt_zero (Param.offset p)
                                   then " OFFSET " ++ number_text (Param.offset p)
                                   else "")
                          else "");
               args := if Param.useWhere p
                       then map JStr (map value (Param.whereParamsSelect p))
                       else [] |} in
          selectRows_statement p i = inr st
          /\ snd (selectRows client p i tr) = (tr ++ [st])%list)
      /\ (forall st,
            selectRows_statement p i = inr st ->
            Js.blank (Param.orderBy p) = false
            /\ exists head tail,
                 sql st = head ++ " ORDER BY " ++ Param.orderBy p ++ " "
                          ++ Param.orderDirection p ++ tail)).
Proof.
  split; [| split].
  - intros Hb. rewrite describeTable_unfold. unfold describeTable_statement.
    rewrite Hb. reflexivity.
  - intros Hb. rewrite describeTable_unfold. unfold describeTable_statement.
    rewrite Hb. apply guarded_trace.
  - intros Horder. split; [| split].
    + intros Hb.
      destruct (selectRows_statement p i) as [e | st] eqn:Hst.
      * destruct (selectRows_statement_error p i e Hst) as [message ->].
        exists message. apply selectRows_refused. exact Hst.
      * exfalso. apply selectRows_statement_inv in Hst.
        destruct Hst as (clause & order & lim & _ & _ & Ho & _).
        unfold orderByClause in Ho. rewrite Horder, Hb in Ho. discriminate Ho.
    + intros Hb Htable Hcols Hwhere Hlimit st.
      assert (Hst : selectRows_statement p i = inr st).
      { rewrite (selectRows_statement_built p i Htable Hcols Hwhere (fun _ => Hb) Hlimit).
        unfold st. rewrite Horder, !append_assoc. reflexivity. }
      split; [exact Hst |].
      unfold selectRows. rewrite bind_lift, Hst. apply guarded_trace.
    + intros st Hst. apply selectRows_statement_inv in Hst.
      destruct Hst as (clause & order & lim & _ & _ & Ho & _ & _ & Hsql & _).
      unfold orderByClause in Ho. rewrite Horder in Ho.
      destruct (Js.blank (Param.orderBy p)); [discriminate Ho |].
      assert (Heq : " ORDER BY " ++ Param.orderBy p ++ " " ++ Param.orderDirection p
                    = order) by congruence.
      rewrite <- Heq in Hsql. split; [reflexivity |].
      exists ("SELECT " ++ clause ++ " FROM " ++ Param.table p
              ++ (if Param.useWhere p then " WHERE " ++ Param.whereClauseSelect p
                  else "")), lim.
      rewrite Hsql, !append_assoc. reflexivity.
Qed.

End Identifiers.

Lemma interpolated_identifiers_spec_witness :
  snd (describeTable (constant_client empty_result) injected_table 0 [])
  = [ {| sql := "PRAGMA table_info(t); DROP TABLE users; --)"; args := [] |} ]
  /\ describeTable (constant_client empty_result)
                   (row_parameters "  " [] "inputItems" [] "data" "" []) 0 []
     = (inl (operationError "Table name cannot be empty" 0), [])
  /\ snd (selectRows (constant_client empty_result) injected_order 0 [])
     = [ {| sql := "SELECT * FROM t ORDER BY id; DROP TABLE users; -- ASC";
            args := [] |} ].
Proof.
  split; [| split].
  - apply (proj1 (proj2 (interpolated_identifiers_spec
                           (constant_client empty_result) injected_table 0 []))).
    reflexivity.
  - apply (proj1 (interpolated_identifiers_spec
                    (constant_client empty_result)
                    (row_parameters "  " [] "inputItems" [] "data" "" []) 0 [])).
    reflexivity.
  - apply (proj2 (proj1 (proj2 (proj2 (proj2 (interpolated_identifiers_spec
                                                (constant_client empty_result)
                                                injected_order 0 []))
                                      eq_refl))
                        eq_refl eq_refl (or_introl eq_refl)
                        ltac:(discriminate) ltac:(discriminate))).
Defined.

(** C3 as stated fails: a table name and an order-by column that are not
    identifiers are written into the statement, and the statement is
    submitted. *)
Lemma identifier_validation_counterexample :
  ~ (forall (client : Client) (p : Param.t) (i : nat) (tr : Trace),
       identifier_syntax (Param.table p) = false ->
       exists e, describeTable client p i tr = (inl e, tr))
  /\ ~ (forall (client : Client) (p : Param.t) (i : nat) (tr : Trace),
          Param.useOrderBy p = true ->
          identifier_syntax (Param.orderBy p) = false ->
          exists e, selectRows client p i tr = (inl e, tr)).
Proof.
  split; intros H.
  - destruct (H (constant_client empty_result) injected_table 0 [] eq_refl)
      as [e He].
    vm_compute in He. discriminate He.
  - destruct (H (constant_client empty_result) injected_order 0 [] eq_refl eq_refl)
      as [e He].
    vm_compute in He. discriminate He.
Qed.

Example describeTable_injected_run :
  describeTable (constant_client empty_result) injected_table 0 []
  = (inr (JObj [("columns", JArr [])]),
     [ {| sql := "PRAGMA table_info(t); DROP TABLE users; --)"; args := [] |} ]).
Proof. reflexivity. Qed.

Example selectRows_injected_run :
  selectRows (constant_client empty_result) injected_order 0 []
  = (inr (selectResult empty_result),
     [ {| sql := "SELECT * FROM t ORDER BY id; DROP TABLE users; -- ASC";
          args := [] |} ]).
Proof. reflexivity. Qed.

(** ** Result shapes *)

Section ResultShapes.

Variable client : Client.

Lemma executeBatch_loop_results (i : nat) (queries : list Batch.t) :
  forall (results : list JsVal) (tr : Trace) (rs : list JsVal),
    fst (executeBatch_loop client queries i results tr) = inr rs ->
    exists raws, rs = (results ++ map processedResult raws)%list.
Proof.
  induction queries as [| q rest IH]; intros results tr rs H.
  - simpl in H. injection H as <-. exists []. simpl. rewrite app_nil_r. reflexivity.
  - simpl in H. destruct (Js.blank (Batch.query q)); [discriminate H |].
    rewrite bind_guarded in H.
    destruct (client tr _) as [err | result]; [discriminate H |].
    apply IH in H. destruct H as [raws ->].
    exists (result :: raws). rewrite <- app_assoc. reflexivity.
Qed.

Lemma executeRows_results (shape : RawResult -> JsVal) (i : nat) (operation : string)
    (plan : list Statement) (tr : Trace) (rs : list JsVal) :
  fst (executeRows client plan shape i operation [] tr) = inr rs ->
  exists raws, length raws = length plan /\ rs = map shape raws.
Proof.
  intros H.
  destruct (executeRows_spec client shape i operation plan [] tr)
    as (m & _ & _ & _ & Hout).
  rewrite H in Hout. destruct Hout as (_ & raws & Hlen & ->).
  exists raws. auto.
Qed.

(** A guarded call whose shaping cannot fail succeeds with a shaped result. *)
Lemma guarded_success {A : Type} (st : Statement) (shape : RawResult -> A)
    (i : nat) (operation : string) (tr : Trace) (a : A) :
  fst (guarded client st (fun result => inr (shape result)) i operation tr) = inr a ->
  exists result, a = shape result.
Proof.
  rewrite guarded_outcome.
  destruct (client tr st) as [e | result]; [discriminate |].
  intros H. injection H as <-. exists result. reflexivity.
Qed.

(** C10.  The results of the row-mutation operations carry no [columns]
    and no [rows]: each per-statement result of insertRows has exactly
    [rowsAffected] and [lastInsertRowid], each per-statement result of
    updateRows and the result of deleteRows exactly [rowsAffected].  The
    shape with both [columns] and [rows] comes from executeQuery,
    executeBatch (per entry) and selectRows only; listTables answers with
    [tables] and describeTable with [columns] alone. *)
Theorem result_shapes (operation : string) (p : Param.t)
    (items : list NodeExecutionData) (i : nat) (responseData : JsVal) (tr : Trace)
    (v : JsVal) :
  fst (runOperation client operation p items i responseData tr) = inr v ->
  (operation = "insertRows" ->
   exists results,
     v = JArr results /\ results <> []
     /\ Forall (fun r => keys r = ["rowsAffected"; "lastInsertRowid"]
                         /\ full_shape r = false) results)
  /\ (operation = "updateRows" ->
      exists results,
        v = JArr results /\ results <> []
        /\ Forall (fun r => keys r = ["rowsAffected"] /\ full_shape r = false) results)
  /\ (operation = "deleteRows" -> keys v = ["rowsAffected"] /\ full_shape v = false)
  /\ (operation = "executeQuery" ->
      keys v = ["columns"; "rows"; "rowsAffected"; "lastInsertRowid"]
      /\ full_shape v = true)
  /\ (operation = "executeBatch" ->
      exists results,
        v = JArr results /\ results <> []
        /\ Forall (fun r => keys r = ["columns"; "rows"; "rowsAffected"; "lastInsertRowid"]
                            /\ full_shape r = true) results)
  /\ (operation = "selectRows" -> keys v = ["columns"; "rows"] /\ full_shape v = true)
  /\ (operation = "listTables" -> keys v = ["tables"] /\ full_shape v = false)
  /\ (operation = "describeTable" -> keys v = ["columns"] /\ full_shape v = false).
Proof.
  intros H. repeat match goal with |- _ /\ _ => split end; intros ->.
  - (* insertRows *)
    change (fst (insertRows client p items i tr) = inr v) in H.
    rewrite insertRows_unfold in H.
    destruct (insertRows_plan p items i) as [e | plan] eqn:Hplan; [discriminate H |].
    destruct (executeRows client plan insertResult i "Insert Rows" [] tr)
      as [[e | rs] tr'] eqn:Hrun; [discriminate H |].
    injection H as <-.
    destruct (executeRows_results insertResult i "Insert Rows" plan tr rs)
      as (raws & Hlen & ->); [rewrite Hrun; reflexivity |].
    exists (map insertResult raws). split; [reflexivity |]. split.
    + unfold insertRows_plan, insertRows_rows, collectRows in Hplan.
      destruct raws; [| discriminate].
      exfalso. simpl in Hlen. symmetry in Hlen. apply length_zero_iff_nil in Hlen.
      subst plan.
      destruct (Js.blank (Param.table p)); [discriminate Hplan |].
      destruct (Nat.eqb_spec (length (Param.columns p)) 0) as [Hk | Hk];
        [discriminate Hplan |].
      destruct (Param.dataSource p =? "manualInput").
      * destruct (manualRows_spec (fun row => row)
                    "No values provided for insert operation"
                    (Param.columns p) (Param.valueItems p) i ltac:(lia))
          as [Hok Hfail].
        set (k := length (Param.columns p)) in *.
        set (n := length (Param.valueItems p)) in *.
        assert (Hdec : (0 < n /\ n mod k = 0) \/ ~ (0 < n /\ n mod k = 0)).
        { destruct (Nat.eq_dec (n mod k) 0); destruct (Nat.eq_dec n 0); lia. }
        destruct Hdec as [Hgood | Hbad].
        -- rewrite (Hok Hgood) in Hplan. simpl in Hplan.
           injection Hplan as Hplan. unfold statements in Hplan.
           apply map_eq_nil in Hplan. apply map_eq_nil in Hplan.
           assert (Hq : 0 < n / k).
           { pose proof (Nat.div_mod_eq n k). nia. }
           destruct (n / k); [lia | discriminate Hplan].
        -- destruct (Hfail Hbad) as [message Hm]. rewrite Hm in Hplan.
           discriminate Hplan.
      * destruct (inputRows _ _ _ _ _) as [e | found]; simpl in Hplan;
          [discriminate Hplan |].
        destruct found; simpl in Hplan; discriminate Hplan.
    + apply Forall_map. apply Forall_forall. intros raw _. split; reflexivity.
  - (* updateRows *)
    change (fst (updateRows client p items i tr) = inr v) in H.
    rewrite updateRows_unfold in H.
    destruct (updateRows_plan p items i) as [e | plan] eqn:Hplan; [discriminate H |].
    destruct (executeRows client plan affectedResult i "Update Rows" [] tr)
      as [[e | rs] tr'] eqn:Hrun; [discriminate H |].
    injection H as <-.
    destruct (executeRows_results affectedResult i "Update Rows" plan tr rs)
      as (raws & Hlen & ->); [rewrite Hrun; reflexivity |].
    exists (map affectedResult raws). split; [reflexivity |]. split.
    + unfold updateRows_plan, updateRows_rows, collectRows in Hplan.
      destruct raws; [| discriminate].
      exfalso. simpl in Hlen. symmetry in Hlen. apply length_zero_iff_nil in Hlen.
      subst plan.
      destruct (Js.blank (Param.table p)); [discriminate Hplan |].
      destruct (Nat.eqb_spec (length (Param.columns p)) 0) as [Hk | Hk];
        [discriminate Hplan |].
      destruct (Js.blank (Param.whereClause p)); [discriminate Hplan |].
      destruct (Param.dataSource p =? "manualInput").
      * destruct (manualRows_spec
                    (fun row => (row ++ map JStr (map value (Param.whereParams p)))%list)
                    "No values provided for update operation"
                    (Param.columns p) (Param.valueItems p) i ltac:(lia))
          as [Hok Hfail].
        set (k := length (Param.columns p)) in *.
        set (n := length (Param.valueItems p)) in *.
        assert (Hdec : (0 < n /\ n mod k = 0) \/ ~ (0 < n /\ n mod k = 0)).
        { destruct (Nat.eq_dec (n mod k) 0); destruct (Nat.eq_dec n 0); lia. }
        destruct Hdec as [Hgood | Hbad].
        -- rewrite (Hok Hgood) in Hplan. simpl in Hplan.
           injection Hplan as Hplan. unfold statements in Hplan.
           apply map_eq_nil in Hplan. apply map_eq_nil in Hplan.
           assert (Hq : 0 < n / k).
           { pose proof (Nat.div_mod_eq n k). nia. }
           destruct (n / k); [lia | discriminate Hplan].
        -- destruct (Hfail Hbad) as [message Hm]. rewrite Hm in Hplan.
           discriminate Hplan.
      * destruct (inputRows _ _ _ _ _) as [e | found]; simpl in Hplan;
          [discriminate Hplan |].
        destruct found; simpl in Hplan; discriminate Hplan.
    + apply Forall_map. apply Forall_forall. intros raw _. split; reflexivity.
  - (* deleteRows *)
    change (fst (deleteRows client p i tr) = inr v) in H.
    unfold deleteRows in H. rewrite bind_lift in H.
    destruct (deleteRows_statement p i) as [e | st]; [discriminate H |].
    apply guarded_success in H. destruct H as [result ->]. split; reflexivity.
  - (* executeQuery *)
    change (fst (executeQuery client p i tr) = inr v) in H.
    unfold executeQuery in H.
    destruct (Js.blank (Param.query p)); [discriminate H |].
    apply guarded_success in H. destruct H as [result ->]. split; reflexivity.
  - (* executeBatch *)
    change (fst (executeBatch client p i tr) = inr v) in H.
    unfold executeBatch in H.
    destruct (Nat.eqb_spec (length (Param.queries p)) 0) as [Hq | Hq];
      [discriminate H |].
    unfold bind, ret in H.
    destruct (executeBatch_loop_spec client i (Param.queries p) [] tr)
      as (n & _ & _ & _ & Hout).
    destruct (executeBatch_loop client (Param.queries p) i [] tr)
      as [[e | rs] tr'] eqn:Hrun; [discriminate H |].
    injection H as <-. simpl in Hout. destruct Hout as [Hn Hlen].
    exists rs. split; [reflexivity |]. split.
    + destruct rs; [simpl in Hlen; lia | discriminate].
    + destruct (executeBatch_loop_results i (Param.queries p) [] tr rs)
        as [raws ->]; [rewrite Hrun; reflexivity |].
      simpl. apply Forall_map. apply Forall_forall. intros raw _. split; reflexivity.
  - (* selectRows *)
    change (fst (selectRows client p i tr) = inr v) in H.
    unfold selectRows in H. rewrite bind_lift in H.
    destruct (selectRows_statement p i) as [e | st]; [discriminate H |].
    apply guarded_success in H. destruct H as [result ->]. split; reflexivity.
  - (* listTables *)
    change (fst (listTables client i tr) = inr v) in H.
    unfold listTables in H. rewrite guarded_outcome in H.
    destruct (client tr listTables_statement) as [e | result]; [discriminate H |].
    destruct (tableNames result) as [e | tables]; simpl in H; [discriminate H |].
    injection H as <-. split; reflexivity.
  - (* describeTable *)
    change (fst (describeTable client p i tr) = inr v) in H.
    rewrite describeTable_unfold in H.
    destruct (describeTable_statement p i) as [e | st]; [discriminate H |].
    apply guarded_success in H. destruct H as [result ->]. split; reflexivity.
Qed.

End ResultShapes.

Lemma result_shapes_witness :
  exists results,
    JArr [insertResult empty_result; insertResult empty_result] = JArr results
    /\ results <> []
    /\ Forall (fun r => keys r = ["rowsAffected"; "lastInsertRowid"]
                        /\ full_shape r = false) results.
Proof.
  apply (proj1 (result_shapes (constant_client empty_result) "insertRows"
                  (row_parameters "t" ["id"; "name"] "inputItems" [] "data" "" [])
                  record_items 0 JUndefined []
                  (JArr [insertResult empty_result; insertResult empty_result])
                  eq_refl)
               eq_refl).
Defined.

Example deleteRows_run :
  deleteRows (constant_client sample_result)
             (row_parameters "t" [] "inputItems" [] "data" "id = ?" ["5"]) 0 []
  = (inr (JObj [("rowsAffected", JNum 1)]),
     [ {| sql := "DELETE FROM t WHERE id = ?"; args := [JStr "5"] |} ]).
Proof. reflexivity. Qed.

Example listTables_run :
  listTables
    (constant_client
       {| columns := Some [ColumnString "name"];
          rows := Some [JObj [("name", JStr "users")]; JObj [("name", JStr "orders")]];
          rowsAffected := Some (Num.of_nat 0); lastInsertRowid := None |})
    0 []
  = (inr (JObj [("tables", JArr [JStr "users"; JStr "orders"])]),
     [listTables_statement]).
Proof. reflexivity. Qed.

Example executeBatch_run :
  executeBatch (constant_client sample_result)
    (batch_parameters [ {| Batch.query := "SELECT id, name FROM t WHERE id = ?";
                           Batch.parameters := " 7 " |} ])
    0 []
  = (inr (JArr [processedResult sample_result]),
     [ {| sql := "SELECT id, name FROM t WHERE id = ?"; args := [JStr "7"] |} ]).
Proof. reflexivity. Qed.

(* ===================================================================== *)
(** * Further properties *)
(* ===================================================================== *)

(** ** Strings: searching, counting, trimming, splitting *)





Lemma count_char_append (c : ascii) (a b : string) :
  count_char c (a ++ b) = count_char c a + count_char c b.
Proof.
  induction a as [| d a IH]; simpl; [reflexivity | rewrite IH; lia].
Qed.

Lemma trim_start_count (c : ascii) (s : string) :
  count_char c (Js.trim_start s) <= count_char c s.
Proof.
  induction s as [| d s IH]; simpl; [lia |].
  destruct (Js.is_white_space d); simpl; lia.
Qed.

Lemma trim_end_count (c : ascii) (s : string) :
  count_char c (Js.trim_end s) <= count_char c s.
Proof.
  induction s as [| d s IH]; simpl; [lia |].
  destruct (Js.trim_end s) as [| e kept] eqn:Hk.
  - destruct (Js.is_white_space d); simpl in *; lia.
  - simpl in *. lia.
Qed.

Lemma trim_end_idempotent (s : string) : Js.trim_end (Js.trim_end s) = Js.trim_end s.
Proof.
  induction s as [| d s IH]; simpl; [reflexivity |].
  destruct (Js.trim_end s) as [| e kept] eqn:Hk.
  - destruct (Js.is_white_space d) eqn:Hd; simpl; [reflexivity |].
    rewrite Hd. reflexivity.
  - simpl. simpl in IH.
    destruct (match Js.trim_end kept with
              | "" => if Js.is_white_space e then "" else String e ""
              | String a s0 => String e (String a s0)
              end) eqn:Hinner.
    + discriminate IH.
    + rewrite IH. reflexivity.
Qed.

(** What [trim_start] leaves starts with a character that is not white
    space, and [trim_end] keeps such a first character. *)
Lemma trim_start_head (s : string) :
  match Js.trim_start s with
  | EmptyString => True
  | String c _ => Js.is_white_space c = false
  end.
Proof.
  induction s as [| d s IH]; simpl; [exact I |].
  destruct (Js.is_white_space d) eqn:Hd; [exact IH | exact Hd].
Qed.

Lemma trim_end_head (c : ascii) (s : string) :
  Js.is_white_space c = false ->
  exists kept, Js.trim_end (String c s) = String c kept.
Proof.
  intros Hc. simpl. destruct (Js.trim_end s).
  - rewrite Hc. eexists. reflexivity.
  - eexists. reflexivity.
Qed.

Lemma trim_idempotent (s : string) : Js.trim (Js.trim s) = Js.trim s.
Proof.
  unfold Js.trim. pose proof (trim_start_head s) as Hhead.
  destruct (Js.trim_start s) as [| c t] eqn:Ht.
  - reflexivity.
  - destruct (trim_end_head c t Hhead) as [kept Hkept].
    rewrite Hkept. simpl Js.trim_start. rewrite Hhead.
    rewrite <- Hkept. apply trim_end_idempotent.
Qed.

Lemma split_on_length (sep : ascii) (s : string) :
  length (Js.split_on sep s) = S (count_char sep s).
Proof.
  induction s as [| c s IH]; simpl; [reflexivity |].
  destruct (Ascii.eqb c sep); simpl.
  - rewrite IH. reflexivity.
  - destruct (Js.split_on sep s); simpl in *; lia.
Qed.

Lemma split_on_pieces (sep : ascii) (s : string) :
  Forall (fun piece => count_char sep piece = 0) (Js.split_on sep s).
Proof.
  induction s as [| c s IH]; simpl.
  - repeat constructor.
  - destruct (Ascii.eqb c sep) eqn:Hc.
    + constructor; [reflexivity | exact IH].
    + destruct (Js.split_on sep s) as [| piece pieces].
      * repeat constructor. simpl. rewrite Hc. reflexivity.
      * inversion IH; subst. constructor; [| assumption].
        simpl. rewrite Hc. assumption.
Qed.

(** The pieces of a split, joined with the separator, are the string. *)
Lemma join_split_on (sep : ascii) (s : string) :
  Js.join (String sep EmptyString) (Js.split_on sep s) = s.
Proof.
  induction s as [| c s IH]; simpl; [reflexivity |].
  destruct (Ascii.eqb_spec c sep) as [-> | Hne].
  - destruct (Js.split_on sep s) as [| piece pieces] eqn:Hs.
    + simpl in IH. subst s. discriminate Hs.
    + change (Js.join (String sep "") ("" :: piece :: pieces))
        with ("" ++ String sep "" ++ Js.join (String sep "") (piece :: pieces)).
      rewrite IH. reflexivity.
  - destruct (Js.split_on sep s) as [| piece pieces] eqn:Hs.
    + simpl in IH. subst s. discriminate Hs.
    + destruct pieces as [| piece' pieces'].
      * simpl in *. rewrite IH. reflexivity.
      * change (Js.join (String sep "") (String c piece :: piece' :: pieces'))
          with (String c piece ++ String sep ""
                ++ Js.join (String sep "") (piece' :: pieces')).
        change (Js.join (String sep "") (piece :: piece' :: pieces'))
          with (piece ++ String sep "" ++ Js.join (String sep "") (piece' :: pieces'))
          in IH.
        simpl. rewrite <- IH. reflexivity.
Qed.

(** ** The arguments of a batch entry *)

(** X1.  The comma-separated parameters of a batch entry: an empty string gives
    no argument; any other string gives one argument more than it has
    commas, none of them containing a comma or starting or ending with
    white space (a further trim changes nothing); the untrimmed pieces,
    joined with commas, are the parameter string. *)
Theorem batchArgs_spec (parameters : string) :
  (parameters = "" -> batchArgs parameters = [])
  /\ (parameters <> "" ->
      length (batchArgs parameters) = S (count_char ","%char parameters)
      /\ Forall (fun arg => count_char ","%char arg = 0 /\ Js.trim arg = arg)
                (batchArgs parameters)
      /\ exists pieces,
           batchArgs parameters = map Js.trim pieces
           /\ Js.join "," pieces = parameters).
Proof.
  unfold batchArgs. split.
  - intros ->. reflexivity.
  - intros Hne. apply String.eqb_neq in Hne. rewrite Hne.
    split; [| split].
    + rewrite length_map. apply split_on_length.
    + apply Forall_map.
      eapply Forall_impl; [| apply split_on_pieces].
      intros piece Hpiece. cbv beta in Hpiece |- *. split.
      * unfold Js.trim.
        pose proof (trim_end_count ","%char (Js.trim_start piece)).
        pose proof (trim_start_count ","%char piece). lia.
      * apply trim_idempotent.
    + exists (Js.split_on ","%char parameters). split; [reflexivity |].
      apply join_split_on.
Qed.

Lemma batchArgs_spec_witness :
  length (batchArgs "1, O'Neil, Jr ,3") = 4
  /\ Forall (fun arg => count_char ","%char arg = 0 /\ Js.trim arg = arg)
            (batchArgs "1, O'Neil, Jr ,3").
Proof.
  destruct (proj2 (batchArgs_spec "1, O'Neil, Jr ,3") ltac:(discriminate))
    as (Hlen & Hall & _).
  split; [exact Hlen | exact Hall].
Defined.

(** ** handleDatabaseError *)





Example handleDatabaseError_common_error_run :
  @handleDatabaseError JsVal (OtherError "connect ECONNREFUSED 127.0.0.1:8080") 3
                       "Select Rows" []
  = (inl (NodeOperationError
            "The service refused the connection - perhaps it is offline"
            (Some 3) None), [])
  /\ @handleDatabaseError JsVal (LibsqlError "no such table: t" "SQLITE_ERROR") 3
                          "Select Rows" []
     = (inl (NodeOperationError
               ("Database error in " ++ quoted "Select Rows" ++ ": no such table: t")
               (Some 3) (Some "Error code: SQLITE_ERROR")), []).
Proof. split; reflexivity. Qed.

(** ** What an operation can fail with *)

Lemma operationError_at (message : string) (i : nat) :
  operation_error_at i (operationError message i).
Proof. exists (Host.descriptive_message message), None. reflexivity. Qed.

Lemma databaseError_at (error : JsError) (i : nat) (operation : string) :
  operation_error_at i (databaseError error i operation).
Proof.
  unfold operation_error_at, databaseError.
  destruct error as [m idx d | m code | m |];
    try destruct (Js.includes "connection" m); eexists; eexists; reflexivity.
Qed.

Lemma get_prop_error (v : JsVal) (name : string) (e : JsError) :
  get_prop v name = inl e -> exists message, e = OtherError message.
Proof.
  destruct v; simpl; intros H; try discriminate H;
    try (injection H as <-; eexists; reflexivity).
  - destruct (name =? "length"); [discriminate H |].
    destruct (index_of_key name (String.length s)); discriminate H.
  - destruct (name =? "length"); [discriminate H |].
    destruct (index_of_key name (length elements)); discriminate H.
Qed.

Lemma map_err_error {A B : Type} (f : A -> JsError + B) (xs : list A) (e : JsError) :
  map_err f xs = inl e -> exists x, In x xs /\ f x = inl e.
Proof.
  induction xs as [| x rest IH]; simpl; intros H; [discriminate H |].
  destruct (f x) as [e' | y] eqn:Hx; simpl in H.
  - injection H as <-. exists x. auto.
  - destruct (map_err f rest) as [e' | ys]; simpl in H; [| discriminate H].
    injection H as <-. destruct (IH eq_refl) as (x' & Hin & Hf).
    exists x'. auto.
Qed.

Lemma extract_row_error (columnNames : list string) (entry : JsVal) (e : JsError) :
  extract_row columnNames entry = inl e -> exists message, e = OtherError message.
Proof.
  intros H. apply map_err_error in H. destruct H as (name & _ & Hname).
  eapply get_prop_error. eassumption.
Qed.

Lemma rows_of_rowData_error (finish : list JsVal -> list JsVal)
    (columnNames : list string) (rowData : JsVal) (e : JsError) :
  rows_of_rowData finish columnNames rowData = inl e ->
  exists message, e = OtherError message.
Proof.
  rewrite rows_of_rowData_entries. intros H.
  destruct (map_err (extract_row columnNames) (entries_of rowData)) as [e' | rows]
    eqn:Hrows; simpl in H; [| discriminate H].
  injection H as <-. apply map_err_error in Hrows.
  destruct Hrows as (entry & _ & Hentry).
  eapply extract_row_error. eassumption.
Qed.

Lemma rowData_of_error (itemsPath : string) (item : NodeExecutionData) (i : nat)
    (e : JsError) :
  rowData_of itemsPath item i = inl e -> operation_error_at i e.
Proof.
  unfold rowData_of. destruct (itemsPath =? ""); [discriminate |].
  destruct (read_object (json item) itemsPath); intros H;
    try discriminate H.
  injection H as <-. apply operationError_at.
Qed.

Lemma inputRows_error (finish : list JsVal -> list JsVal) (columnNames : list string)
    (itemsPath : string) (i : nat) (items : list NodeExecutionData) (e : JsError) :
  inputRows finish columnNames itemsPath i items = inl e ->
  operation_error_at i e \/ exists message, e = OtherError message.
Proof.
  induction items as [| item rest IH]; simpl; intros H; [discriminate H |].
  destruct (rowData_of itemsPath item i) as [e' | rowData] eqn:Hrow; simpl in H.
  - injection H as <-. left. eapply rowData_of_error. eassumption.
  - destruct (rows_of_rowData finish columnNames rowData) as [e' | pushed] eqn:Hp;
      simpl in H.
    + injection H as <-. right. eapply rows_of_rowData_error. eassumption.
    + destruct (inputRows finish columnNames itemsPath i rest) as [e' | more];
        simpl in H; [| discriminate H].
      injection H as <-. apply IH. reflexivity.
Qed.

Lemma manualRows_error (finish : list JsVal -> list JsVal) (noValues : string)
    (columnNames : list string) (valueItems : list ValueItem) (i : nat) (e : JsError) :
  manualRows finish noValues columnNames valueItems i = inl e ->
  operation_error_at i e.
Proof.
  unfold manualRows.
  destruct (Nat.eqb (length valueItems) 0).
  - intros H. injection H as <-. apply operationError_at.
  - destruct (negb _); intros H; [| discriminate H].
    injection H as <-. apply operationError_at.
Qed.

Lemma collectRows_error (finish : list JsVal -> list JsVal) (noValues noData : string)
    (p : Param.t) (items : list NodeExecutionData) (i : nat) (e : JsError) :
  collectRows finish noValues noData p items i = inl e ->
  operation_error_at i e
  \/ (exists message, e = OtherError message)
     /\ (Param.dataSource p =? "manualInput") = false.
Proof.
  unfold collectRows. destruct (Param.dataSource p =? "manualInput").
  - intros H. left. eapply manualRows_error. eassumption.
  - destruct (inputRows _ _ _ _ _) as [e' | rows] eqn:Hin; simpl; intros H.
    + injection H as <-. apply inputRows_error in Hin. destruct Hin; auto.
    + destruct (Nat.eqb (length rows) 0); [| discriminate H].
      injection H as <-. left. apply operationError_at.
Qed.

Lemma insertRows_plan_error (p : Param.t) (items : list NodeExecutionData) (i : nat)
    (e : JsError) :
  insertRows_plan p items i = inl e ->
  operation_error_at i e
  \/ (exists message, e = OtherError message)
     /\ (Param.dataSource p =? "manualInput") = false.
Proof.
  unfold insertRows_plan, insertRows_rows.
  destruct (Js.blank (Param.table p)); simpl.
  { intros H. injection H as <-. left. apply operationError_at. }
  destruct (Nat.eqb (length (Param.columns p)) 0); simpl.
  { intros H. injection H as <-. left. apply operationError_at. }
  destruct (collectRows _ _ _ p items i) as [e' | rows] eqn:Hc; simpl; intros H;
    [| discriminate H].
  injection H as <-. eapply collectRows_error. eassumption.
Qed.

Lemma updateRows_plan_error (p : Param.t) (items : list NodeExecutionData) (i : nat)
    (e : JsError) :
  updateRows_plan p items i = inl e ->
  operation_error_at i e
  \/ (exists message, e = OtherError message)
     /\ (Param.dataSource p =? "manualInput") = false.
Proof.
  unfold updateRows_plan, updateRows_rows.
  destruct (Js.blank (Param.table p)); simpl.
  { intros H. injection H as <-. left. apply operationError_at. }
  destruct (Nat.eqb (length (Param.columns p)) 0); simpl.
  { intros H. injection H as <-. left. apply operationError_at. }
  destruct (Js.blank (Param.whereClause p)); simpl.
  { intros H. injection H as <-. left. apply operationError_at. }
  destruct (collectRows _ _ _ p items i) as [e' | rows] eqn:Hc; simpl; intros H;
    [| discriminate H].
  injection H as <-. eapply collectRows_error. eassumption.
Qed.

Section Failures.

Variable client : Client.

Lemma guarded_error {A : Type} (st : Statement) (shape : RawResult -> JsError + A)
    (i : nat) (operation : string) (tr : Trace) (e : JsError) :
  fst (guarded client st shape i operation tr) = inl e -> operation_error_at i e.
Proof.
  rewrite guarded_outcome.
  destruct (client tr st) as [err | result].
  - intros H. injection H as <-. apply databaseError_at.
  - destruct (shape result) as [err | a]; intros H; [| discriminate H].
    injection H as <-. apply databaseError_at.
Qed.

Lemma executeRows_error (shape : RawResult -> JsVal) (i : nat) (operation : string)
    (plan : list Statement) (results : list JsVal) (tr : Trace) (e : JsError) :
  fst (executeRows client plan shape i operation results tr) = inl e ->
  operation_error_at i e.
Proof.
  intros H.
  destruct (executeRows_spec client shape i operation plan results tr)
    as (m & _ & _ & _ & Hout).
  rewrite H in Hout. destruct Hout as (k & st & err & _ & _ & _ & ->).
  apply databaseError_at.
Qed.

Lemma executeBatch_error (p : Param.t) (i : nat) (tr : Trace) (e : JsError) :
  fst (executeBatch client p i tr) = inl e -> operation_error_at i e.
Proof.
  unfold executeBatch.
  destruct (Nat.eqb (length (Param.queries p)) 0).
  - intros H. injection H as <-. apply operationError_at.
  - unfold bind, ret.
    destruct (executeBatch_loop_spec client i (Param.queries p) [] tr)
      as (n & _ & _ & _ & Hout).
    destruct (executeBatch_loop client (Param.queries p) i [] tr) as [[e' | rs] tr'];
      simpl in *; intros H; [| discriminate H].
    injection H as <-.
    destruct Hout as [(q & _ & _ & ->) | (m & q & err & _ & _ & _ & ->)].
    + apply operationError_at.
    + apply databaseError_at.
Qed.

(** X3.  Whatever the client throws, an operation of the eight-operation node
    fails only with a [NodeOperationError] that carries the index of the
    item, with one exception: in input-items mode, insertRows and
    updateRows let the [TypeError] of reading a column of a [null] or
    [undefined] array entry through as it is. *)
Theorem runOperation_errors (operation : string) (p : Param.t)
    (items : list NodeExecutionData) (i : nat) (responseData : JsVal) (tr : Trace)
    (e : JsError) :
  fst (runOperation client operation p items i responseData tr) = inl e ->
  operation_error_at i e
  \/ ((exists message, e = OtherError message)
      /\ (operation = "insertRows" \/ operation = "updateRows")
      /\ (Param.dataSource p =? "manualInput") = false).
Proof.
  unfold runOperation.
  destruct (operation =? "executeQuery").
  { unfold executeQuery. destruct (Js.blank (Param.query p)).
    - intros H. injection H as <-. left. apply operationError_at.
    - intros H. left. eapply guarded_error. eassumption. }
  destruct (operation =? "executeBatch").
  { intros H. left. eapply executeBatch_error. eassumption. }
  destruct (String.eqb_spec operation "insertRows") as [Hop | _].
  { rewrite insertRows_unfold.
    destruct (insertRows_plan p items i) as [e' | plan] eqn:Hplan.
    - intros H. injection H as <-.
      destruct (insertRows_plan_error p items i e' Hplan) as [Hat | [Hother Hsrc]];
        auto.
    - destruct (executeRows client plan insertResult i "Insert Rows" [] tr)
        as [[e' | rs] tr'] eqn:Hrun; intros H; [| discriminate H].
      injection H as <-. left.
      apply (executeRows_error insertResult i "Insert Rows" plan [] tr).
      rewrite Hrun. reflexivity. }
  destruct (String.eqb_spec operation "updateRows") as [Hop | _].
  { rewrite updateRows_unfold.
    destruct (updateRows_plan p items i) as [e' | plan] eqn:Hplan.
    - intros H. injection H as <-.
      destruct (updateRows_plan_error p items i e' Hplan) as [Hat | [Hother Hsrc]];
        auto.
    - destruct (executeRows client plan affectedResult i "Update Rows" [] tr)
        as [[e' | rs] tr'] eqn:Hrun; intros H; [| discriminate H].
      injection H as <-. left.
      apply (executeRows_error affectedResult i "Update Rows" plan [] tr).
      rewrite Hrun. reflexivity. }
  destruct (operation =? "deleteRows").
  { unfold deleteRows. rewrite bind_lift. unfold deleteRows_statement.
    destruct (Js.blank (Param.table p)).
    { intros H. injection H as <-. left. apply operationError_at. }
    destruct (Js.blank (Param.whereClause p)).
    { intros H. injection H as <-. left. apply operationError_at. }
    intros H. left. eapply guarded_error. eassumption. }
  destruct (operation =? "selectRows").
  { unfold selectRows. rewrite bind_lift.
    destruct (selectRows_statement p i) as [e' | st] eqn:Hst.
    - intros H. injection H as <-. left.
      destruct (selectRows_statement_error p i e' Hst) as [message ->].
      apply operationError_at.
    - intros H. left. eapply guarded_error. eassumption. }
  destruct (operation =? "listTables").
  { intros H. left. unfold listTables in H. eapply guarded_error. eassumption. }
  destruct (operation =? "describeTable").
  { rewrite describeTable_unfold. unfold describeTable_statement.
    destruct (Js.blank (Param.table p)).
    { intros H. injection H as <-. left. apply operationError_at. }
    intros H. left. eapply guarded_error. eassumption. }
  intros H. discriminate H.
Qed.

End Failures.

(** An input item whose array holds a [null] entry. *)
Example insertRows_null_entry_run :
  insertRows (constant_client empty_result)
             (row_parameters "t" ["id"] "inputItems" [] "data" "" [])
             [ {| json := [("data", JArr [JObj [("id", JNum 1)]; JNull])] |} ] 0 []
  = (inl (OtherError "Cannot read properties of null (reading 'id')"), []).
Proof. reflexivity. Qed.

Lemma runOperation_errors_witness :
  operation_error_at 4
    (databaseError (LibsqlError "no such table: t" "SQLITE_ERROR") 4 "Select Rows")
  \/ ((exists message,
         databaseError (LibsqlError "no such table: t" "SQLITE_ERROR") 4 "Select Rows"
         = OtherError message)
      /\ ("selectRows" = "insertRows" \/ "selectRows" = "updateRows")
      /\ (Param.dataSource (select_parameters "t" true [] None None None)
          =? "manualInput") = false).
Proof.
  apply (runOperation_errors
           (fun _ _ => inl (LibsqlError "no such table: t" "SQLITE_ERROR"))
           "selectRows" (select_parameters "t" true [] None None None) [] 4
           JUndefined []).
  reflexivity.
Defined.

(** ** deleteRows *)

Section Mutations.

Variable client : Client.

(** X4.  deleteRows never submits a DELETE without a WHERE clause: a blank table
    name or a blank where clause fails with a validation error and nothing
    is submitted; otherwise exactly one statement is submitted,
    [DELETE FROM <table> WHERE <whereClause>] with the where parameters, in
    their order, as its only args, and the result is the affected row count
    or the wrapped database error. *)
Theorem deleteRows_spec (p : Param.t) (i : nat) (tr : Trace) :
  (Js.blank (Param.table p) = true \/ Js.blank (Param.whereClause p) = true ->
   exists message, deleteRows client p i tr = (inl (operationError message i), tr))
  /\ (Js.blank (Param.table p) = false ->
      Js.blank (Param.whereClause p) = false ->
      let st := {| sql := "DELETE FROM " ++ Param.table p ++ " WHERE "
                          ++ Param.whereClause p;
                   args := map JStr (map value (Param.whereParams p)) |} in
      deleteRows client p i tr
      = (match client tr st with
         | inl error => inl (databaseError error i "Delete Rows")
         | inr result => inr (JObj [("rowsAffected", rowsAffected_val result)])
         end, (tr ++ [st])%list)).
Proof.
  split.
  - intros Hblank. unfold deleteRows, deleteRows_statement. rewrite bind_lift.
    destruct (Js.blank (Param.table p)); [eexists; reflexivity |].
    destruct Hblank as [Hb | Hb]; [discriminate Hb |].
    rewrite Hb. eexists. reflexivity.
  - intros Ht Hw st. unfold deleteRows, deleteRows_statement.
    rewrite bind_lift, Ht, Hw. fold st.
    rewrite (surjective_pairing (guarded client st _ i "Delete Rows" tr)).
    rewrite guarded_outcome, guarded_trace.
    destruct (client tr st); reflexivity.
Qed.

End Mutations.

Lemma deleteRows_spec_witness :
  deleteRows (constant_client sample_result)
             (row_parameters "t" [] "inputItems" [] "data" "id = ?" ["5"]) 0 []
  = (inr (JObj [("rowsAffected", JNum 1)]),
     [ {| sql := "DELETE FROM t WHERE id = ?"; args := [JStr "5"] |} ])
  /\ exists message,
       deleteRows (constant_client sample_result)
                  (row_parameters "t" [] "inputItems" [] "data" "  " ["5"]) 0 []
       = (inl (operationError message 0), []).
Proof.
  split.
  - apply (proj2 (deleteRows_spec (constant_client sample_result)
                    (row_parameters "t" [] "inputItems" [] "data" "id = ?" ["5"]) 0 [])
                 eq_refl eq_refl).
  - apply (proj1 (deleteRows_spec (constant_client sample_result)
                    (row_parameters "t" [] "inputItems" [] "data" "  " ["5"]) 0 [])).
    right. reflexivity.
Defined.

(** ** The rows of a built plan *)

Lemma collectRows_nonempty (finish : list JsVal -> list JsVal) (noValues noData : string)
    (p : Param.t) (items : list NodeExecutionData) (i : nat) (rows : list (list JsVal)) :
  0 < length (Param.columns p) ->
  collectRows finish noValues noData p items i = inr rows -> rows <> [].
Proof.
  intros Hk. unfold collectRows.
  destruct (Param.dataSource p =? "manualInput").
  - intros H.
    destruct (manualRows_spec finish noValues (Param.columns p) (Param.valueItems p) i Hk)
      as [Hok Hfail].
    set (k := length (Param.columns p)) in *.
    set (n := length (Param.valueItems p)) in *.
    assert (Hdec : (0 < n /\ n mod k = 0) \/ ~ (0 < n /\ n mod k = 0)).
    { destruct (Nat.eq_dec (n mod k) 0); destruct (Nat.eq_dec n 0); lia. }
    destruct Hdec as [Hgood | Hbad].
    + rewrite (Hok Hgood) in H. injection H as <-.
      assert (Hq : 0 < n / k).
      { pose proof (Nat.div_mod_eq n k). nia. }
      destruct (n / k); [lia | discriminate].
    + destruct (Hfail Hbad) as [message Hm]. rewrite Hm in H. discriminate H.
  - destruct (inputRows _ _ _ _ _) as [e | found]; simpl; intros H;
      [discriminate H |].
    destruct found; simpl in H; [discriminate H |].
    injection H as <-. discriminate.
Qed.

Lemma count_char_placeholders (columnNames : list string) :
  count_char "?"%char (placeholders columnNames) = length columnNames.
Proof.
  unfold placeholders. induction columnNames as [| c rest IH]; [reflexivity |].
  destruct rest as [| c' rest']; [reflexivity |].
  change (Js.join ", " (map (fun _ : string => "?") (c :: c' :: rest')))
    with ("?" ++ ", " ++ Js.join ", " (map (fun _ : string => "?") (c' :: rest'))).
  rewrite !count_char_append, IH. reflexivity.
Qed.

Lemma count_char_join_none (c : ascii) (sep : string) (parts : list string) :
  count_char c sep = 0 ->
  Forall (fun part => count_char c part = 0) parts ->
  count_char c (Js.join sep parts) = 0.
Proof.
  intros Hsep. induction 1 as [| part rest Hpart Hrest IH]; [reflexivity |].
  destruct rest as [| part' rest']; [exact Hpart |].
  change (Js.join sep (part :: part' :: rest'))
    with (part ++ sep ++ Js.join sep (part' :: rest')).
  rewrite !count_char_append, Hpart, Hsep, IH. reflexivity.
Qed.

(** X5.  Every built INSERT statement has one argument per column, as many as
    its VALUES list has placeholders, from manual values and from input
    items alike; when neither the table name nor a column name contains a
    question mark, the whole text has exactly as many question marks as the
    statement has args. *)
Theorem insertRows_placeholders_match (p : Param.t) (items : list NodeExecutionData)
    (i : nat) (plan : list Statement) :
  insertRows_plan p items i = inr plan ->
  plan <> []
  /\ Forall (fun st =>
               sql st = "INSERT INTO " ++ Param.table p ++ " ("
                        ++ Js.join ", " (Param.columns p) ++ ") VALUES ("
                        ++ placeholders (Param.columns p) ++ ")"
               /\ length (args st) = length (Param.columns p)
               /\ count_char "?"%char (placeholders (Param.columns p))
                  = length (args st)
               /\ (count_char "?"%char (Param.table p) = 0 ->
                   Forall (fun c => count_char "?"%char c = 0) (Param.columns p) ->
                   count_char "?"%char (sql st) = length (args st)))
            plan.
Proof.
  unfold insertRows_plan, insertRows_rows. intros H.
  destruct (Js.blank (Param.table p)); [discriminate H |].
  destruct (Nat.eqb_spec (length (Param.columns p)) 0) as [Hk0 | Hk0];
    [discriminate H |].
  destruct (collectRows _ _ _ p items i) as [e | rows] eqn:Hrows; simpl in H;
    [discriminate H |].
  injection H as <-. split.
  - apply collectRows_nonempty in Hrows; [| lia].
    unfold statements. intros Hnil. apply map_eq_nil in Hnil. contradiction.
  - apply collectRows_Forall in Hrows; [| lia].
    unfold statements. apply Forall_map.
    eapply Forall_impl; [| exact Hrows].
    intros r (row & _ & Hlen & ->). cbn [sql args].
    split; [reflexivity |]. split; [exact Hlen |].
    split; [rewrite count_char_placeholders; symmetry; exact Hlen |].
    intros Htable Hcols. unfold insertQuery.
    rewrite !count_char_append, Htable, count_char_placeholders.
    rewrite (count_char_join_none "?"%char ", " (Param.columns p) eq_refl Hcols).
    simpl. lia.
Qed.

Lemma insertRows_placeholders_match_witness :
  Forall (fun st => count_char "?"%char (sql st) = length (args st))
         [ {| sql := "INSERT INTO t (id, name) VALUES (?, ?)";
              args := [JStr "1"; JStr "a"] |};
           {| sql := "INSERT INTO t (id, name) VALUES (?, ?)";
              args := [JStr "2"; JStr "b"] |} ].
Proof.
  eapply Forall_impl;
    [| apply (proj2 (insertRows_placeholders_match
                       (row_parameters "t" ["id"; "name"] "manualInput"
                                       ["1"; "a"; "2"; "b"] "data" "" [])
                       [] 0 _ eq_refl))].
  intros st (_ & _ & _ & Hcount). apply Hcount.
  - reflexivity.
  - repeat constructor.
Defined.

(** ** Manual values: nothing lost, nothing repeated *)

Lemma concat_groups {A : Type} (k q : nat) :
  forall (xs : list A),
    length xs = q * k ->
    concat (map (fun j => firstn k (skipn (j * k) xs)) (seq 0 q)) = xs.
Proof.
  induction q as [| q IH]; intros xs Hlen.
  - simpl in *. apply length_zero_iff_nil in Hlen. subst xs. reflexivity.
  - simpl seq. rewrite <- seq_shift, map_cons, map_map. simpl concat.
    transitivity (firstn k xs ++ skipn k xs)%list; [| apply firstn_skipn].
    f_equal.
    etransitivity;
      [| apply (IH (skipn k xs)); rewrite length_skipn; simpl in Hlen; lia].
    f_equal. apply map_ext. intros j. f_equal.
    rewrite skipn_skipn. f_equal. lia.
Qed.

(** X6.  In manual-input mode the args of the built INSERT statements, taken
    in order, are exactly the manual values in their order: every value
    goes into one statement, none is dropped or used twice. *)
Theorem insertRows_manual_partition (p : Param.t) (items : list NodeExecutionData)
    (i : nat) (plan : list Statement) :
  Param.dataSource p = "manualInput" ->
  insertRows_plan p items i = inr plan ->
  concat (map args plan) = map JStr (map value (Param.valueItems p)).
Proof.
  intros Hsource. unfold insertRows_plan, insertRows_rows, collectRows.
  rewrite Hsource. simpl.
  destruct (Js.blank (Param.table p)); [discriminate |].
  destruct (Nat.eqb_spec (length (Param.columns p)) 0) as [Hk0 | Hk0];
    [discriminate |].
  assert (Hk : 0 < length (Param.columns p)) by lia.
  destruct (manualRows_spec (fun row => row) "No values provided for insert operation"
              (Param.columns p) (Param.valueItems p) i Hk) as [Hok Hfail].
  set (k := length (Param.columns p)) in *.
  set (n := length (Param.valueItems p)) in *.
  assert (Hdec : (0 < n /\ n mod k = 0) \/ ~ (0 < n /\ n mod k = 0)).
  { destruct (Nat.eq_dec (n mod k) 0); destruct (Nat.eq_dec n 0); lia. }
  destruct Hdec as [Hgood | Hbad].
  - rewrite (Hok Hgood). simpl. intros H. injection H as <-.
    unfold statements.
    set (vals := map JStr (map value (Param.valueItems p))).
    rewrite map_map. cbn [args]. rewrite map_map.
    etransitivity; [| apply (concat_groups k (n / k) vals)].
    + f_equal. apply map_ext. intros j. unfold value_group, vals.
      rewrite !skipn_map, !firstn_map. reflexivity.
    + unfold vals. rewrite !length_map. fold n.
      pose proof (Nat.div_mod_eq n k). lia.
  - destruct (Hfail Hbad) as [message Hm]. rewrite Hm. simpl. discriminate.
Qed.

Lemma insertRows_manual_partition_witness :
  concat (map args
            [ {| sql := "INSERT INTO t (id, name) VALUES (?, ?)";
                 args := [JStr "1"; JStr "a"] |};
              {| sql := "INSERT INTO t (id, name) VALUES (?, ?)";
                 args := [JStr "2"; JStr "b"] |} ])
  = [JStr "1"; JStr "a"; JStr "2"; JStr "b"].
Proof.
  apply (insertRows_manual_partition
           (row_parameters "t" ["id"; "name"] "manualInput" ["1"; "a"; "2"; "b"]
                           "data" "" [])
           [] 0 _ eq_refl eq_refl).
Defined.

(** ** Submission order of insertRows and updateRows *)

Section Sequential.

Variable client : Client.

(** The results of a successful loop are the shaped answers of the client,
    each to its statement after the statements before it. *)
Lemma executeRows_answers (shape : RawResult -> JsVal) (i : nat) (operation : string)
    (plan : list Statement) :
  forall (results : list JsVal) (tr : Trace) (rs : list JsVal),
    fst (executeRows client plan shape i operation results tr) = inr rs ->
    exists raws,
      rs = (results ++ map shape raws)%list
      /\ length raws = length plan
      /\ forall j raw,
           nth_error raws j = Some raw ->
           exists st,
             nth_error plan j = Some st
             /\ client (tr ++ firstn j plan)%list st = inr raw.
Proof.
  induction plan as [| st rest IH]; intros results tr rs H.
  - simpl in H. injection H as <-. exists []. simpl. rewrite app_nil_r.
    repeat split. intros j raw Hj. destruct j; discriminate Hj.
  - simpl in H. rewrite bind_guarded in H.
    destruct (client tr st) as [err | result] eqn:Hc; [discriminate H |].
    apply IH in H. destruct H as (raws & -> & Hlen & Hraws).
    exists (result :: raws). rewrite <- app_assoc. simpl.
    repeat split; [lia |].
    intros j raw Hj. destruct j as [| j]; simpl in Hj.
    + injection Hj as <-. exists st. simpl. rewrite app_nil_r. auto.
    + destruct (Hraws j raw Hj) as (st' & Hst' & Hc').
      exists st'. simpl. rewrite <- app_assoc in Hc'. auto.
Qed.

(** The run of a non-empty plan. *)
Lemma plan_run (shape : RawResult -> JsVal) (i : nat) (operation : string)
    (plan : list Statement) (tr : Trace) :
  plan <> [] ->
  let run := executeRows client plan shape i operation [] tr in
  exists m,
    0 < m /\ m <= length plan
    /\ snd run = (tr ++ firstn m plan)%list
    /\ match fst run with
       | inr rs =>
           m = length plan
           /\ exists raws,
                rs = map shape raws /\ length raws = length plan
                /\ forall j raw,
                     nth_error raws j = Some raw ->
                     exists st,
                       nth_error plan j = Some st
                       /\ client (tr ++ firstn j plan)%list st = inr raw
       | inl e =>
           exists st err,
             nth_error plan (m - 1) = Some st
             /\ client (tr ++ firstn (m - 1) plan)%list st = inl err
             /\ e = databaseError err i operation
       end.
Proof.
  intros Hne run.
  destruct (executeRows_spec client shape i operation plan [] tr)
    as (m & Hm & Hpos & Htr & Hout).
  exists m. split; [auto |]. split; [exact Hm |]. split; [exact Htr |].
  subst run.
  destruct (fst (executeRows client plan shape i operation [] tr)) as [e | rs] eqn:Hrun.
  - destruct Hout as (k & st & err & -> & Hst & Hc & ->).
    exists st, err. simpl. rewrite Nat.sub_0_r. auto.
  - destruct Hout as [Hlen _]. split; [exact Hlen |].
    destruct (executeRows_answers shape i operation plan [] tr rs Hrun)
      as (raws & -> & Hraws). exists raws. auto.
Qed.

(** X7.  insertRows and updateRows submit the statements of their plan one at a
    time, in order, starting with the first.  They succeed only when every
    statement was submitted and answered, the result holding one entry per
    statement, in order, shaped from the answer to that statement.  They
    fail at the first statement the client rejects, with that error
    wrapped; the statements after it are not submitted and the results of
    the statements before it are not returned. *)
Theorem rows_submitted_in_order (p : Param.t) (items : list NodeExecutionData)
    (i : nat) (tr : Trace) :
  (forall plan,
     insertRows_plan p items i = inr plan ->
     exists m,
       0 < m /\ m <= length plan
       /\ snd (insertRows client p items i tr) = (tr ++ firstn m plan)%list
       /\ match fst (insertRows client p items i tr) with
          | inr v =>
              m = length plan
              /\ exists raws,
                   v = JArr (map insertResult raws) /\ length raws = length plan
                   /\ forall j raw,
                        nth_error raws j = Some raw ->
                        exists st,
                          nth_error plan j = Some st
                          /\ client (tr ++ firstn j plan)%list st = inr raw
          | inl e =>
              exists st err,
                nth_error plan (m - 1) = Some st
                /\ client (tr ++ firstn (m - 1) plan)%list st = inl err
                /\ e = databaseError err i "Insert Rows"
          end)
  /\ (forall plan,
        updateRows_plan p items i = inr plan ->
        exists m,
          0 < m /\ m <= length plan
          /\ snd (updateRows client p items i tr) = (tr ++ firstn m plan)%list
          /\ match fst (updateRows client p items i tr) with
             | inr v =>
                 m = length plan
                 /\ exists raws,
                      v = JArr (map affectedResult raws) /\ length raws = length plan
                      /\ forall j raw,
                           nth_error raws j = Some raw ->
                           exists st,
                             nth_error plan j = Some st
                             /\ client (tr ++ firstn j plan)%list st = inr raw
             | inl e =>
                 exists st err,
                   nth_error plan (m - 1) = Some st
                   /\ client (tr ++ firstn (m - 1) plan)%list st = inl err
                   /\ e = databaseError err i "Update Rows"
             end).
Proof.
  split; intros plan Hplan.
  - assert (Hne : plan <> []).
    { unfold insertRows_plan, insertRows_rows in Hplan.
      destruct (Js.blank (Param.table p)); [discriminate Hplan |].
      destruct (Nat.eqb_spec (length (Param.columns p)) 0) as [Hk | Hk];
        [discriminate Hplan |].
      destruct (collectRows _ _ _ p items i) as [e | rows] eqn:Hrows;
        simpl in Hplan; [discriminate Hplan |].
      injection Hplan as <-. apply collectRows_nonempty in Hrows; [| lia].
      unfold statements. intros Hnil. apply map_eq_nil in Hnil. contradiction. }
    rewrite insertRows_unfold, Hplan.
    destruct (plan_run insertResult i "Insert Rows" plan tr Hne)
      as (m & Hpos & Hm & Htr & Hout).
    exists m.
    destruct (executeRows client plan insertResult i "Insert Rows" [] tr)
      as [[e | rs] tr']; simpl in *.
    + auto.
    + destruct Hout as (Hlen & raws & -> & Hraws). repeat split; auto.
      exists raws. auto.
  - assert (Hne : plan <> []).
    { unfold updateRows_plan, updateRows_rows in Hplan.
      destruct (Js.blank (Param.table p)); [discriminate Hplan |].
      destruct (Nat.eqb_spec (length (Param.columns p)) 0) as [Hk | Hk];
        [discriminate Hplan |].
      destruct (Js.blank (Param.whereClause p)); [discriminate Hplan |].
      destruct (collectRows _ _ _ p items i) as [e | rows] eqn:Hrows;
        simpl in Hplan; [discriminate Hplan |].
      injection Hplan as <-. apply collectRows_nonempty in Hrows; [| lia].
      unfold statements. intros Hnil. apply map_eq_nil in Hnil. contradiction. }
    rewrite updateRows_unfold, Hplan.
    destruct (plan_run affectedResult i "Update Rows" plan tr Hne)
      as (m & Hpos & Hm & Htr & Hout).
    exists m.
    destruct (executeRows client plan affectedResult i "Update Rows" [] tr)
      as [[e | rs] tr']; simpl in *.
    + auto.
    + destruct Hout as (Hlen & raws & -> & Hraws). repeat split; auto.
      exists raws. auto.
Qed.

End Sequential.

Example insertRows_abort_run :
  insertRows rejecting_client
    (row_parameters "t" ["id"] "manualInput" ["1"; "2"; "3"] "data" "" []) [] 0 []
  = (inl (databaseError
            (LibsqlError "UNIQUE constraint failed: t.id" "SQLITE_CONSTRAINT")
            0 "Insert Rows"),
     [ {| sql := "INSERT INTO t (id) VALUES (?)"; args := [JStr "1"] |};
       {| sql := "INSERT INTO t (id) VALUES (?)"; args := [JStr "2"] |} ]).
Proof. reflexivity. Qed.

Lemma rows_submitted_in_order_witness :
  exists m,
    0 < m /\ m <= 3
    /\ snd (insertRows rejecting_client
              (row_parameters "t" ["id"] "manualInput" ["1"; "2"; "3"] "data" "" [])
              [] 0 [])
       = firstn m
           [ {| sql := "INSERT INTO t (id) VALUES (?)"; args := [JStr "1"] |};
             {| sql := "INSERT INTO t (id) VALUES (?)"; args := [JStr "2"] |};
             {| sql := "INSERT INTO t (id) VALUES (?)"; args := [JStr "3"] |} ].
Proof.
  destruct (proj1 (rows_submitted_in_order rejecting_client
                     (row_parameters "t" ["id"] "manualInput" ["1"; "2"; "3"]
                                     "data" "" [])
                     [] 0 []) _ eq_refl) as (m & Hpos & Hm & Htr & _).
  exists m. split; [exact Hpos |]. split; [exact Hm | exact Htr].
Defined.

(** ** Input items that give no row *)

Lemma rows_of_nothing (finish : list JsVal -> list JsVal) (columnNames : list string)
    (rowData : JsVal) :
  contributes_nothing rowData -> rows_of_rowData finish columnNames rowData = inr [].
Proof.
  destruct rowData as [| | b | z | s | [| e es] | props | [] | owner name];
    simpl; intros H; try reflexivity; try contradiction; discriminate H.
Qed.

Lemma inputRows_nothing (finish : list JsVal -> list JsVal) (columnNames : list string)
    (itemsPath : string) (i : nat) (items : list NodeExecutionData) :
  Forall (fun item => exists rowData,
                        rowData_of itemsPath item i = inr rowData
                        /\ contributes_nothing rowData) items ->
  inputRows finish columnNames itemsPath i items = inr [].
Proof.
  induction 1 as [| item rest (rowData & Hrow & Hnone) _ IH]; simpl.
  - reflexivity.
  - rewrite Hrow. simpl. rewrite (rows_of_nothing _ _ _ Hnone). simpl.
    rewrite IH. reflexivity.
Qed.

Lemma rowData_of_missing (itemsPath : string) (item : NodeExecutionData) (i : nat) :
  itemsPath <> "" ->
  lookup itemsPath (json item) = None ->
  itemsPath <> "__proto__" ->
  ~ In itemsPath (proto_members ObjectProto) ->
  rowData_of itemsPath item i
  = inl (operationError
           ("Item path " ++ squote ++ itemsPath ++ squote
            ++ " not found in input data") i).
Proof.
  intros Hpath Hmiss Hproto Hmember. unfold rowData_of.
  apply String.eqb_neq in Hpath. rewrite Hpath.
  rewrite (read_object_missing _ _ Hmiss (inherited_nothing _ Hproto Hmember)).
  reflexivity.
Qed.

Lemma inputRows_missing_path (finish : list JsVal -> list JsVal)
    (columnNames : list string) (itemsPath : string) (i : nat)
    (before : list NodeExecutionData) (recss : list (list (list (string * JsVal))))
    (item : NodeExecutionData) (after : list NodeExecutionData) :
  itemsPath <> "" ->
  Forall2 (item_records itemsPath i) before recss ->
  lookup itemsPath (json item) = None ->
  itemsPath <> "__proto__" ->
  ~ In itemsPath (proto_members ObjectProto) ->
  inputRows finish columnNames itemsPath i (before ++ item :: after)%list
  = inl (operationError
           ("Item path " ++ squote ++ itemsPath ++ squote
            ++ " not found in input data") i).
Proof.
  intros Hpath Hbefore Hmiss Hproto Hmember.
  induction Hbefore as [| item' records before' recss' Hitem _ IH]; simpl.
  - rewrite (rowData_of_missing _ _ _ Hpath Hmiss Hproto Hmember). reflexivity.
  - destruct Hitem as (rowData & Hrow & Hshape). rewrite Hrow. simpl.
    rewrite IH.
    destruct Hshape as [(properties & -> & ->) | ->].
    + simpl rows_of_rowData. rewrite extract_row_object. reflexivity.
    + rewrite rows_of_records. reflexivity.
Qed.

Lemma extract_row_proto (columnNames : list string) (p : Proto) :
  extract_row columnNames (JProto p) = inr (map (read_proto p) columnNames).
Proof.
  unfold extract_row.
  induction columnNames as [| name rest IH]; simpl; [reflexivity |].
  rewrite IH. reflexivity.
Qed.

(** Items read under [__proto__] that have no property of that name: each
    gives [Object.prototype], and one row read from it. *)
Lemma inputRows_proto (finish : list JsVal -> list JsVal) (columnNames : list string)
    (i : nat) (items : list NodeExecutionData) :
  Forall (fun item => lookup "__proto__" (json item) = None) items ->
  inputRows finish columnNames "__proto__" i items
  = inr (map (fun _ => finish (map (read_proto ObjectProto) columnNames)) items).
Proof.
  induction 1 as [| item rest Hitem _ IH]; simpl; [reflexivity |].
  unfold rowData_of, read_object. simpl. rewrite Hitem. simpl.
  rewrite extract_row_proto. simpl. rewrite IH. reflexivity.
Qed.

Section NoRows.

Variable client : Client.

(** X8.  In input-items mode, an input item whose data is not an object or a
    non-empty array (a string, a number, [null], an empty array, a
    function) is passed over without an error; when no item gives a row,
    and so also for no input item at all, insertRows and updateRows fail
    with [No data found] and submit nothing.  An item that has no property
    named by the item path, where the path is not a name every object
    inherits, stops the operation with [Item path ... not found], nothing
    being submitted, even when the items before it hold records.  The path
    [__proto__] is found on every item: an item without such a property
    gives [Object.prototype], which is an object, so that one row is read
    from it, a statement built and the first one submitted. *)
Theorem inputItems_without_rows (p : Param.t) (items : list NodeExecutionData)
    (i : nat) (tr : Trace) :
  (Param.dataSource p =? "manualInput") = false ->
  Js.blank (Param.table p) = false ->
  Param.columns p <> [] ->
  (Forall (fun item => exists rowData,
                         rowData_of (Param.itemsPath p) item i = inr rowData
                         /\ contributes_nothing rowData) items ->
   insertRows client p items i tr
   = (inl (operationError "No data found to insert" i), tr)
   /\ (Js.blank (Param.whereClause p) = false ->
       updateRows client p items i tr
       = (inl (operationError "No data found to update" i), tr)))
  /\ (forall before recss item after,
        items = (before ++ item :: after)%list ->
        Param.itemsPath p <> "" ->
        Forall2 (item_records (Param.itemsPath p) i) before recss ->
        lookup (Param.itemsPath p) (json item) = None ->
        Param.itemsPath p <> "__proto__" ->
        ~ In (Param.itemsPath p) (proto_members ObjectProto) ->
        insertRows client p items i tr
        = (inl (operationError
                  ("Item path " ++ squote ++ Param.itemsPath p ++ squote
                   ++ " not found in input data") i), tr)
        /\ (Js.blank (Param.whereClause p) = false ->
            updateRows client p items i tr
            = (inl (operationError
                      ("Item path " ++ squote ++ Param.itemsPath p ++ squote
                       ++ " not found in input data") i), tr)))
  /\ (Param.itemsPath p = "__proto__" ->
      Forall (fun item => lookup "__proto__" (json item) = None) items ->
      items <> [] ->
      let plan :=
        map (fun _ => {| sql := insertQuery p;
                         args := map (read_proto ObjectProto) (Param.columns p) |})
            items in
      insertRows_plan p items i = inr plan
      /\ exists m, 0 < m
                   /\ snd (insertRows client p items i tr)
                      = (tr ++ firstn m plan)%list)
  /\ (forall item name,
        In name (proto_members ObjectProto) ->
        lookup name (json item) = None ->
        exists rowData,
          rowData_of name item i = inr rowData /\ contributes_nothing rowData).
Proof.
  intros Hsource Htable Hcols.
  assert (Hk : Nat.eqb (length (Param.columns p)) 0 = false).
  { destruct (Param.columns p); [contradiction | reflexivity]. }
  split; [| split; [| split]].
  - intros Hnone. split.
    + rewrite insertRows_unfold.
      unfold insertRows_plan, insertRows_rows, collectRows.
      rewrite Htable, Hk, Hsource, (inputRows_nothing _ _ _ _ _ Hnone).
      reflexivity.
    + intros Hwhere. rewrite updateRows_unfold.
      unfold updateRows_plan, updateRows_rows, collectRows.
      rewrite Htable, Hk, Hwhere, Hsource, (inputRows_nothing _ _ _ _ _ Hnone).
      reflexivity.
  - intros before recss item after -> Hpath Hbefore Hmiss Hproto Hmember. split.
    + rewrite insertRows_unfold.
      unfold insertRows_plan, insertRows_rows, collectRows.
      rewrite Htable, Hk, Hsource.
      rewrite (inputRows_missing_path _ _ _ _ _ _ _ _ Hpath Hbefore Hmiss Hproto Hmember).
      reflexivity.
    + intros Hwhere. rewrite updateRows_unfold.
      unfold updateRows_plan, updateRows_rows, collectRows.
      rewrite Htable, Hk, Hwhere, Hsource.
      rewrite (inputRows_missing_path _ _ _ _ _ _ _ _ Hpath Hbefore Hmiss Hproto Hmember).
      reflexivity.
  - intros Hpath Hitems Hne plan.
    assert (Hplan : insertRows_plan p items i = inr plan).
    { unfold insertRows_plan, insertRows_rows, collectRows.
      rewrite Htable, Hk, Hsource, Hpath, (inputRows_proto _ _ _ _ Hitems).
      simpl. rewrite length_map.
      destruct items as [| item rest]; [contradiction |]. simpl.
      unfold statements, plan. simpl. rewrite map_map. reflexivity. }
    split; [exact Hplan |].
    rewrite insertRows_unfold, Hplan.
    apply (plan_submitted client insertResult i "Insert Rows" plan tr).
    unfold plan. destruct items; [contradiction | discriminate].
  - intros item name Hmember Hmiss.
    exists (JMember ObjectProto name). split; [| exact I].
    unfold rowData_of.
    assert (Hne : (name =? "") = false).
    { apply String.eqb_neq. intros ->. simpl in Hmember.
      repeat (destruct Hmember as [Heq | Hmember]; [discriminate Heq |]).
      contradiction. }
    rewrite Hne. unfold read_object. rewrite Hmiss.
    rewrite (inherited_member _ Hmember). reflexivity.
Qed.

End NoRows.

Lemma inputItems_without_rows_witness :
  insertRows (constant_client empty_result)
             (row_parameters "t" ["id"] "inputItems" [] "data" "" [])
             [ {| json := [("data", JNull)] |}; {| json := [("data", JStr "x")] |} ] 0 []
  = (inl (operationError "No data found to insert" 0), []).
Proof.
  refine (proj1 (proj1 (inputItems_without_rows (constant_client empty_result)
                          (row_parameters "t" ["id"] "inputItems" [] "data" "" [])
                          [ {| json := [("data", JNull)] |};
                            {| json := [("data", JStr "x")] |} ] 0 []
                          eq_refl eq_refl ltac:(discriminate)) _)).
  repeat constructor.
  - exists JNull. split; [reflexivity | exact I].
  - exists (JStr "x"). split; [reflexivity | exact I].
Defined.

Example insertRows_proto_path_run :
  insertRows (constant_client empty_result)
             (row_parameters "t" ["id"; "toString"] "inputItems" [] "__proto__" "" [])
             [ {| json := [("data", JObj [("id", JNum 1)])] |} ] 0 []
  = (inr (JArr [insertResult empty_result]),
     [ {| sql := "INSERT INTO t (id, toString) VALUES (?, ?)";
          args := [JUndefined; JMember ObjectProto "toString"] |} ]).
Proof. reflexivity. Qed.

Example insertRows_missing_path_run :
  insertRows (constant_client empty_result)
             (row_parameters "t" ["id"] "inputItems" [] "data" "" [])
             [ {| json := [("data", JObj [("id", JNum 1)])] |};
               {| json := [("rows", JObj [("id", JNum 2)])] |} ] 0 []
  = (inl (operationError "Item path 'data' not found in input data" 0), []).
Proof. reflexivity. Qed.

(** ** listTables *)

Lemma map_err_In_error {A B : Type} (f : A -> JsError + B) (xs : list A) (x : A)
    (e : JsError) :
  In x xs -> f x = inl e -> exists e', map_err f xs = inl e'.
Proof.
  induction xs as [| y rest IH]; simpl; intros Hin Hx; [contradiction |].
  destruct (f y) as [e' | b] eqn:Hy; simpl; [eexists; reflexivity |].
  destruct Hin as [-> | Hin]; [congruence |].
  destruct (IH Hin Hx) as [e' ->]. simpl. eexists. reflexivity.
Qed.

Lemma map_err_objects (name : string) (recs : list (list (string * JsVal))) :
  inherited ObjectProto name = JUndefined ->
  map_err (fun row => get_prop row name) (map JObj recs)
  = inr (map (fun properties => or_undefined (lookup name properties)) recs).
Proof.
  intros Hname.
  induction recs as [| properties rest IH]; simpl; [reflexivity |].
  rewrite IH, (read_object_own _ _ Hname). reflexivity.
Qed.

Section ListTables.

Variable client : Client.

(** X9.  listTables takes no parameter into account: it always submits the one
    fixed catalogue query with no args.  From an answer whose rows are
    objects it returns their [name] values in row order ([undefined] for a
    row without one), and an empty list when the answer has no rows; a
    [null] or [undefined] row makes it fail with a wrapped error. *)
Theorem listTables_spec (i : nat) (tr : Trace) :
  snd (listTables client i tr) = (tr ++ [listTables_statement])%list
  /\ (forall result,
        client tr listTables_statement = inr result ->
        (rows result = None ->
         fst (listTables client i tr) = inr (JObj [("tables", JArr [])]))
        /\ (forall recs,
              rows result = Some (map JObj recs) ->
              fst (listTables client i tr)
              = inr (JObj [("tables",
                            JArr (map (fun properties =>
                                         or_undefined (lookup "name" properties))
                                      recs))]))
        /\ (forall rs,
              rows result = Some rs ->
              In JNull rs \/ In JUndefined rs ->
              exists e, fst (listTables client i tr) = inl e
                        /\ operation_error_at i e))
  /\ (forall error,
        client tr listTables_statement = inl error ->
        fst (listTables client i tr) = inl (databaseError error i "List Tables")).
Proof.
  unfold listTables. split; [apply guarded_trace |]. split.
  - intros result Hc. rewrite guarded_outcome, Hc. unfold tableNames.
    split; [| split].
    + intros ->. reflexivity.
    + intros recs ->. rewrite map_err_objects; reflexivity.
    + intros rs -> Hin.
      assert (Herr : exists e', map_err (fun row => get_prop row "name") rs = inl e').
      { destruct Hin as [Hin | Hin];
          eapply map_err_In_error; try exact Hin; reflexivity. }
      destruct Herr as [e' ->]. simpl. eexists. split; [reflexivity |].
      apply databaseError_at.
  - intros error Hc. rewrite guarded_outcome, Hc. reflexivity.
Qed.

End ListTables.

Lemma listTables_spec_witness :
  fst (listTables (constant_client catalogue_result) 0 [])
  = inr (JObj [("tables", JArr [JStr "users"; JStr "orders"])]).
Proof.
  apply (proj1 (proj2 (proj1 (proj2 (listTables_spec (constant_client catalogue_result)
                                       0 []))
                             catalogue_result eq_refl))
               [ [("name", JStr "users")]; [("name", JStr "orders")] ] eq_refl).
Defined.

(** ** The two-operation node: submission and errors *)

Section NodesTursoRuns.

Variable client : Client.

Lemma NodesTurso_executeBatch_loop_answered (queries : list Batch.t) :
  forall (results : list JsVal) (tr : Trace) (raws : list RawResult),
    answered client tr (map batchStatement queries) raws ->
    NodesTurso.executeBatch_loop client queries results tr
    = (inr (results ++ map processedResult raws)%list,
       (tr ++ map batchStatement queries)%list).
Proof.
  induction queries as [| q rest IH]; intros results tr raws Hans.
  - destruct raws; [| contradiction]. simpl. rewrite !app_nil_r. reflexivity.
  - destruct raws as [| raw raws]; [contradiction |].
    simpl in Hans. destruct Hans as [Hc Hans].
    simpl. unfold bind, client_execute. fold (batchStatement q). rewrite Hc.
    rewrite (IH _ _ raws Hans), <- !app_assoc. reflexivity.
Qed.

Lemma NodesTurso_executeBatch_loop_spec (queries : list Batch.t) :
  forall (results : list JsVal) (tr : Trace),
  exists n raws,
    n <= length queries
    /\ snd (NodesTurso.executeBatch_loop client queries results tr)
       = (tr ++ map batchStatement (firstn n queries))%list
    /\ match fst (NodesTurso.executeBatch_loop client queries results tr) with
       | inr rs =>
           n = length queries
           /\ answered client tr (map batchStatement queries) raws
           /\ rs = (results ++ map processedResult raws)%list
       | inl e =>
           exists m q,
             n = S m /\ nth_error queries m = Some q
             /\ answered client tr (map batchStatement (firstn m queries)) raws
             /\ client (tr ++ map batchStatement (firstn m queries))%list
                       (batchStatement q) = inl e
       end.
Proof.
  induction queries as [| q rest IH]; intros results tr.
  - exists 0, []. simpl. rewrite !app_nil_r. repeat split; auto.
  - simpl. unfold bind, client_execute. fold (batchStatement q).
    destruct (client tr (batchStatement q)) as [err | result] eqn:Hc.
    + exists 1, []. simpl. repeat split; auto with arith.
      exists 0, q. simpl. rewrite app_nil_r. auto.
    + destruct (IH (results ++ [processedResult result])%list
                   (tr ++ [batchStatement q])%list) as (n & raws & Hn & Htr & Hout).
      exists (S n), (result :: raws). simpl. rewrite Htr, <- app_assoc. simpl.
      repeat match goal with |- _ /\ _ => split end; auto with arith.
      destruct (fst (NodesTurso.executeBatch_loop client rest _ _)) as [e | rs].
      * destruct Hout as (m & q' & Hm & Hq' & Hans & Hc').
        exists (S m), q'. simpl. rewrite <- app_assoc in Hc'. simpl in Hc'. auto 6.
      * destruct Hout as (Hlen & Hans & ->).
        repeat match goal with |- _ /\ _ => split end; auto.
        rewrite <- app_assoc. reflexivity.
Qed.

(** X10.  The two-operation node checks nothing and wraps nothing.  executeQuery
    always submits its one statement and fails with exactly what the
    client threw.  executeBatch submits the entries in order, blank ones
    included.  When the client answers every entry it succeeds, also on an
    empty list, and the result holds the normalized answer of each entry,
    in order; it succeeds in no other case.  Otherwise it stops at the
    first entry the client rejects, the entries before it having been
    answered, with the client's own error, and the entries after it are
    not submitted. *)
Theorem NodesTurso_runs (p : Param.t) (tr : Trace) :
  let st := {| sql := Param.query p;
               args := map JStr (map value (Param.queryParams p)) |} in
  let queries := Param.queries p in
  NodesTurso.executeQuery client p tr
  = (match client tr st with
     | inl error => inl error
     | inr result => inr (processedResult result)
     end, (tr ++ [st])%list)
  /\ (forall raws,
        answered client tr (map batchStatement queries) raws ->
        NodesTurso.executeBatch client p tr
        = (inr (JArr (map processedResult raws)),
           (tr ++ map batchStatement queries)%list))
  /\ exists n raws,
       n <= length queries
       /\ snd (NodesTurso.executeBatch client p tr)
          = (tr ++ map batchStatement (firstn n queries))%list
       /\ match fst (NodesTurso.executeBatch client p tr) with
          | inr v =>
              n = length queries
              /\ answered client tr (map batchStatement queries) raws
              /\ v = JArr (map processedResult raws)
          | inl e =>
              exists m q,
                n = S m /\ nth_error queries m = Some q
                /\ answered client tr (map batchStatement (firstn m queries)) raws
                /\ client (tr ++ map batchStatement (firstn m queries))%list
                          (batchStatement q) = inl e
          end.
Proof.
  intros st queries. split; [| split].
  - unfold NodesTurso.executeQuery, bind, client_execute, ret. fold st.
    destruct (client tr st); reflexivity.
  - intros raws Hans. unfold NodesTurso.executeBatch, bind, ret. fold queries.
    rewrite (NodesTurso_executeBatch_loop_answered queries [] tr raws Hans).
    reflexivity.
  - unfold NodesTurso.executeBatch, bind, ret. fold queries.
    destruct (NodesTurso_executeBatch_loop_spec queries [] tr)
      as (n & raws & Hn & Htr & Hout).
    exists n, raws.
    destruct (NodesTurso.executeBatch_loop client queries [] tr)
      as [[e | rs] tr']; simpl in *.
    + split; [exact Hn |]. split; [exact Htr | exact Hout].
    + destruct Hout as (Hlen & Hans & ->).
      split; [exact Hn |]. split; [exact Htr |]. split; [exact Hlen |].
      split; [exact Hans | reflexivity].
Qed.

End NodesTursoRuns.

Lemma NodesTurso_runs_witness :
  NodesTurso.executeBatch
    (constant_client sample_result)
    (batch_parameters [ {| Batch.query := ""; Batch.parameters := "" |};
                        {| Batch.query := "SELECT ?"; Batch.parameters := "2" |} ])
    []
  = (inr (JArr [processedResult sample_result; processedResult sample_result]),
     [ {| sql := ""; args := [] |};
       {| sql := "SELECT ?"; args := [JStr "2"] |} ]).
Proof.
  apply (proj1 (proj2
           (NodesTurso_runs
              (constant_client sample_result)
              (batch_parameters [ {| Batch.query := ""; Batch.parameters := "" |};
                                  {| Batch.query := "SELECT ?"; Batch.parameters := "2" |} ])
              []))
           [sample_result; sample_result]).
  simpl. auto.
Defined.

Example NodesTurso_executeBatch_blank_run :
  NodesTurso.executeBatch (constant_client empty_result)
    (batch_parameters [ {| Batch.query := ""; Batch.parameters := "" |};
                        {| Batch.query := "SELECT 1"; Batch.parameters := "" |} ]) []
  = (inr (JArr [processedResult empty_result; processedResult empty_result]),
     [ {| sql := ""; args := [] |}; {| sql := "SELECT 1"; args := [] |} ]).
Proof. reflexivity. Qed.

(** ** Option loading *)

Lemma push_options_records (option_of : JsVal -> JsError + JsVal)
    (made : list (string * JsVal) -> JsVal) (recs : list (list (string * JsVal))) :
  (forall properties, option_of (JObj properties) = inr (made properties)) ->
  push_options option_of (map JObj recs) = (map made recs, None).
Proof.
  intros Hmade. induction recs as [| properties rest IH]; simpl; [reflexivity |].
  rewrite Hmade, IH. reflexivity.
Qed.

Lemma push_options_stopped (option_of : JsVal -> JsError + JsVal)
    (made : list (string * JsVal) -> JsVal) (recs : list (list (string * JsVal)))
    (row : JsVal) (rest : list JsVal) (error : JsError) :
  (forall properties, option_of (JObj properties) = inr (made properties)) ->
  option_of row = inl error ->
  push_options option_of (map JObj recs ++ row :: rest)%list
  = (map made recs, Some error).
Proof.
  intros Hmade Hrow. induction recs as [| properties more IH]; simpl.
  - rewrite Hrow. reflexivity.
  - rewrite Hmade, IH. reflexivity.
Qed.

(** The table option of a record, and its column option. *)
Lemma tableOption_object (properties : list (string * JsVal)) :
  tableOption (JObj properties)
  = inr (JObj [("name", or_undefined (lookup "name" properties));
               ("value", or_undefined (lookup "name" properties))]).
Proof. reflexivity. Qed.

Lemma columnOption_object (properties : list (string * JsVal)) :
  columnOption (JObj properties)
  = inr (JObj [("name",
                JStr (to_string (or_undefined (lookup "name" properties)) ++ " ("
                      ++ to_string (or_undefined (lookup "type" properties)) ++ ")"));
               ("value", or_undefined (lookup "name" properties))]).
Proof. reflexivity. Qed.

(** X11.  The option loaders make at most one call and keep what they made.
    getTables fails into one option [Error loading tables], with an empty
    value and the message as description, when the credentials are
    incomplete, and then makes no call.  From rows that are objects it
    makes one option per row, in order, name and value both the [name] of
    the row.  When a row cannot be read, the options of the rows before it
    stay and the error option is added after them. *)
Theorem getTables_spec (getCredentials : JsError + Credentials)
    (createClient : Credentials -> JsError + Client) (tr : Trace) :
  let out := getTables getCredentials createClient tr in
  (snd out = tr \/ snd out = (tr ++ [listTables_statement])%list)
  /\ (forall credentials,
        getCredentials = inr credentials ->
        (credentials_missing credentials = true ->
         out = ([ JObj [("name", JStr "Error loading tables"); ("value", JStr "");
                        ("description",
                         JStr "Database URL and auth token are required")] ], tr))
        /\ (forall client result recs,
              credentials_missing credentials = false ->
              createClient credentials = inr client ->
              client tr listTables_statement = inr result ->
              let option_of properties :=
                JObj [("name", or_undefined (lookup "name" properties));
                      ("value", or_undefined (lookup "name" properties))] in
              (rows result = Some (map JObj recs) ->
               out = (map option_of recs, (tr ++ [listTables_statement])%list))
              /\ (forall rest,
                    rows result = Some (map JObj recs ++ JNull :: rest)%list ->
                    fst out
                    = (map option_of recs
                       ++ [ JObj [("name", JStr "Error loading tables");
                                  ("value", JStr "");
                                  ("description",
                                   JStr "Cannot read properties of null (reading 'name')")] ])%list))
        /\ (forall client error,
              credentials_missing credentials = false ->
              createClient credentials = inr client ->
              client tr listTables_statement = inl error ->
              out = ([ JObj [("name", JStr "Error loading tables"); ("value", JStr "");
                             ("description", JStr (message_or_unknown error))] ],
                     (tr ++ [listTables_statement])%list))).
Proof.
  intros out. subst out. unfold getTables, load_options. split.
  - destruct (bind_err getCredentials _) as [error | client]; simpl; [auto |].
    destruct (client tr listTables_statement) as [error | result]; simpl; [auto |].
    destruct (push_options tableOption (rows_or_empty result)) as [pushed [e |]];
      simpl; auto.
  - intros credentials ->. unfold bind_err. split; [| split].
    + intros ->. reflexivity.
    + intros client result recs Hm Hcl Hc. cbv zeta. rewrite Hm, Hcl, Hc. split.
      * intros Hrows. unfold rows_or_empty. rewrite Hrows.
        rewrite (push_options_records tableOption _ recs tableOption_object).
        reflexivity.
      * intros rest Hrows. unfold rows_or_empty. rewrite Hrows.
        rewrite (push_options_stopped tableOption _ recs JNull rest
                   (OtherError "Cannot read properties of null (reading 'name')")
                   tableOption_object eq_refl).
        reflexivity.
    + intros client error Hm Hcl Hc. rewrite Hm, Hcl, Hc. reflexivity.
Qed.

Lemma getTables_spec_witness :
  getTables (inr {| databaseUrl := "libsql://db.turso.io"; authToken := "" |})
            (fun _ => inr (constant_client empty_result)) []
  = ([ JObj [("name", JStr "Error loading tables"); ("value", JStr "");
             ("description", JStr "Database URL and auth token are required")] ], []).
Proof.
  apply (proj1 (proj2 (getTables_spec
                         (inr {| databaseUrl := "libsql://db.turso.io";
                                 authToken := "" |})
                         (fun _ => inr (constant_client empty_result)) [])
                      _ eq_refl)).
  reflexivity.
Defined.

(** X12.  getColumns returns no option and makes no call when no table is
    selected.  Otherwise its one statement is [PRAGMA table_info(<table>)]
    with the table name written in as given, and from rows that are
    objects it makes one option per row, in order, whose value is the
    [name] of the row and whose name is [<name> (<type>)]; a row without a
    [type] shows as [(undefined)]. *)
Theorem getColumns_spec (currentTable : string)
    (getCredentials : JsError + Credentials)
    (createClient : Credentials -> JsError + Client) (tr : Trace) :
  let st := {| sql := "PRAGMA table_info(" ++ currentTable ++ ")"; args := [] |} in
  let out := getColumns currentTable getCredentials createClient tr in
  (currentTable = "" -> out = ([], tr))
  /\ (snd out = tr \/ snd out = (tr ++ [st])%list)
  /\ (forall credentials client result recs,
        currentTable <> "" ->
        getCredentials = inr credentials ->
        credentials_missing credentials = false ->
        createClient credentials = inr client ->
        client tr st = inr result ->
        rows result = Some (map JObj recs) ->
        out = (map (fun properties =>
                      JObj [("name",
                             JStr (to_string (or_undefined (lookup "name" properties))
                                   ++ " ("
                                   ++ to_string (or_undefined (lookup "type" properties))
                                   ++ ")"));
                            ("value", or_undefined (lookup "name" properties))])
                   recs,
               (tr ++ [st])%list)).
Proof.
  intros st out. subst out. unfold getColumns. split; [| split].
  - intros ->. reflexivity.
  - destruct (currentTable =? ""); [left; reflexivity |].
    unfold load_options. fold st.
    destruct (bind_err getCredentials _) as [error | client]; simpl; [auto |].
    destruct (client tr st) as [error | result]; simpl; [auto |].
    destruct (push_options columnOption (rows_or_empty result)) as [pushed [e |]];
      simpl; auto.
  - intros credentials client result recs Hne -> Hcred Hclient Hc Hrows.
    apply String.eqb_neq in Hne. rewrite Hne.
    unfold load_options, bind_err. fold st. rewrite Hcred, Hclient, Hc.
    unfold rows_or_empty. rewrite Hrows.
    rewrite (push_options_records columnOption _ recs columnOption_object).
    reflexivity.
Qed.

Lemma getColumns_spec_witness :
  getColumns "users; --" (inr some_credentials)
             (fun _ => inr (constant_client table_info_result)) []
  = ([ JObj [("name", JStr "id (INTEGER)"); ("value", JStr "id")];
       JObj [("name", JStr "note (undefined)"); ("value", JStr "note")] ],
     [ {| sql := "PRAGMA table_info(users; --)"; args := [] |} ]).
Proof.
  apply (proj2 (proj2 (getColumns_spec "users; --" (inr some_credentials)
                         (fun _ => inr (constant_client table_info_result)) []))
               some_credentials (constant_client table_info_result) table_info_result
               [ [("name", JStr "id"); ("type", JStr "INTEGER")];
                 [("name", JStr "note")] ]);
    try reflexivity.
  discriminate.
Defined.

(** ** The plan does not depend on the item index *)

Lemma rowData_of_index (itemsPath : string) (item : NodeExecutionData) (i j : nat)
    (rowData : JsVal) :
  rowData_of itemsPath item i = inr rowData ->
  rowData_of itemsPath item j = inr rowData.
Proof.
  unfold rowData_of. destruct (itemsPath =? ""); [auto |].
  destruct (read_object (json item) itemsPath); auto; discriminate.
Qed.

Lemma inputRows_index (finish : list JsVal -> list JsVal) (columnNames : list string)
    (itemsPath : string) (i j : nat) (items : list NodeExecutionData) :
  forall rows,
    inputRows finish columnNames itemsPath i items = inr rows ->
    inputRows finish columnNames itemsPath j items = inr rows.
Proof.
  induction items as [| item rest IH]; simpl; intros rows H; [exact H |].
  destruct (rowData_of itemsPath item i) as [e | rowData] eqn:Hrow; simpl in H;
    [discriminate H |].
  rewrite (rowData_of_index _ _ i j _ Hrow). simpl.
  destruct (rows_of_rowData finish columnNames rowData) as [e | pushed]; simpl in *;
    [discriminate H |].
  destruct (inputRows finish columnNames itemsPath i rest) as [e | more]; simpl in H;
    [discriminate H |].
  rewrite (IH more eq_refl). exact H.
Qed.

Lemma collectRows_index (finish : list JsVal -> list JsVal) (noValues noData : string)
    (p : Param.t) (items : list NodeExecutionData) (i j : nat) (rows : list (list JsVal)) :
  collectRows finish noValues noData p items i = inr rows ->
  collectRows finish noValues noData p items j = inr rows.
Proof.
  unfold collectRows. destruct (Param.dataSource p =? "manualInput").
  - unfold manualRows. destruct (Nat.eqb (length (Param.valueItems p)) 0);
      [discriminate |].
    destruct (negb _); [discriminate | auto].
  - destruct (inputRows finish (Param.columns p) (Param.itemsPath p) i items)
      as [e | found] eqn:Hin; simpl; [discriminate |].
    rewrite (inputRows_index _ _ _ i j _ _ Hin). simpl.
    destruct (Nat.eqb (length found) 0); [discriminate | auto].
Qed.

Lemma insertRows_plan_index (p : Param.t) (items : list NodeExecutionData) (i j : nat)
    (plan : list Statement) :
  insertRows_plan p items i = inr plan -> insertRows_plan p items j = inr plan.
Proof.
  unfold insertRows_plan, insertRows_rows.
  destruct (Js.blank (Param.table p)); [discriminate |].
  destruct (Nat.eqb (length (Param.columns p)) 0); [discriminate |].
  destruct (collectRows _ _ _ p items i) as [e | rows] eqn:Hc; simpl; [discriminate |].
  rewrite (collectRows_index _ _ _ _ _ i j _ Hc). auto.
Qed.

(** ** The loop over the items *)

Section ExecuteLoop.

Variable returnJsonArray : JsVal -> list JsVal.
Variable constructExecutionMetaData : list JsVal -> nat -> list JsVal.
Variable continueOnFail : bool.
Variable getNodeParameter : nat -> Param.t.
Variable operation : string.
Variable items : list NodeExecutionData.
Variable client : Client.

Let loop := execute_loop returnJsonArray constructExecutionMetaData continueOnFail
                         getNodeParameter operation items client.

(** The trace of the loop when every item inserts the same plan and the
    client answers every statement. *)
Lemma execute_loop_repeats (p : Param.t) (plan : list Statement) (indices : list nat) :
  operation = "insertRows" ->
  (forall i, getNodeParameter i = p) ->
  (forall i, insertRows_plan p items i = inr plan) ->
  answers_all client ->
  forall (responseData : JsVal) (returnData : list JsVal) (tr : Trace),
    snd (loop indices responseData returnData tr)
    = (tr ++ concat (repeat plan (length indices)))%list
    /\ exists out, fst (loop indices responseData returnData tr) = inr out.
Proof.
  intros Hop Hparams Hplan Hclient.
  induction indices as [| i rest IH]; intros responseData returnData tr.
  - simpl. rewrite app_nil_r. split; [reflexivity | eexists; reflexivity].
  - unfold loop. simpl. fold loop. rewrite Hop, Hparams.
    change (runOperation client "insertRows" p items i responseData tr)
      with (insertRows client p items i tr).
    rewrite insertRows_unfold, Hplan.
    destruct (executeRows_total client insertResult i "Insert Rows" plan [] tr Hclient)
      as [Htr [rs Hrs]].
    destruct (executeRows client plan insertResult i "Insert Rows" [] tr)
      as [[e | rs'] tr']; simpl in Htr, Hrs; [discriminate Hrs |].
    subst tr'.
    destruct (IH (JArr rs')
                 (returnData
                  ++ constructExecutionMetaData
                       (returnJsonArray (spread (JArr rs'))) i)%list
                 (tr ++ plan)%list) as [Htr' Hout].
    rewrite Htr', <- app_assoc. auto.
Qed.

Lemma seq_split (n : nat) :
  forall (a : nat) (before : list nat) (i : nat) (after : list nat),
    seq a n = (before ++ i :: after)%list ->
    before = seq a (length before) /\ i = a + length before /\ length before < n.
Proof.
  induction n as [| n IH]; intros a before i after H.
  - destruct before; discriminate H.
  - destruct before as [| b before']; simpl in H.
    + injection H as <- _. simpl. repeat split; lia.
    + injection H as <- H. apply IH in H. destruct H as (Hb & Hi & Hlen).
      simpl. rewrite <- Hb. repeat split; [lia | lia].
Qed.

(** The loop, item by item. *)
Lemma execute_loop_run (indices : list nat) :
  forall (responseData : JsVal) (returnData : list JsVal) (tr : Trace),
    match fst (loop indices responseData returnData tr) with
    | inr out =>
        exists outcomes final,
          went_through (fun i => runOperation client operation (getNodeParameter i)
                                              items i)
                       indices responseData tr outcomes final
          /\ snd final = snd (loop indices responseData returnData tr)
          /\ (continueOnFail = false -> Forall succeeded outcomes)
          /\ out = (returnData
                    ++ concat (map (fun io =>
                                      contribution returnJsonArray
                                        constructExecutionMetaData (fst io) (snd io))
                                   (combine indices outcomes)))%list
    | inl e =>
        continueOnFail = false
        /\ exists before i after outcomes responseData' tr',
             indices = (before ++ i :: after)%list
             /\ went_through (fun i => runOperation client operation
                                                    (getNodeParameter i) items i)
                             before responseData tr outcomes (responseData', tr')
             /\ Forall succeeded outcomes
             /\ runOperation client operation (getNodeParameter i) items i
                             responseData' tr'
                = (inl e, snd (loop indices responseData returnData tr))
    end.
Proof.
  induction indices as [| i rest IH]; intros responseData returnData tr.
  - simpl. exists [], (responseData, tr). simpl. rewrite app_nil_r. auto.
  - unfold loop. simpl. fold loop.
    destruct (runOperation client operation (getNodeParameter i) items i
                           responseData tr) as [[e | response] tr1] eqn:Hrun.
    + destruct continueOnFail eqn:Hcont.
      * specialize (IH responseData (returnData ++ [errorItem e])%list tr1).
        destruct (fst (loop rest responseData (returnData ++ [errorItem e])%list tr1))
          as [e' | out].
        -- destruct IH as [Hfalse _]. discriminate Hfalse.
        -- destruct IH as (outcomes & final & Hsteps & Hfinal & _ & ->).
           exists (inl e :: outcomes), final.
           split; [simpl; exists tr1; split; [reflexivity | exact Hsteps] |].
           split; [exact Hfinal |]. split; [discriminate |].
           simpl. rewrite <- app_assoc. reflexivity.
      * simpl. split; [reflexivity |].
        exists [], i, rest, [], responseData, tr. simpl. auto.
    + specialize (IH response
                     (returnData
                      ++ constructExecutionMetaData
                           (returnJsonArray (spread response)) i)%list tr1).
      destruct (fst (loop rest response _ tr1)) as [e' | out].
      * destruct IH as (Hcont & before & j & after & outcomes & rd & trj
                        & -> & Hsteps & Hall & Hj).
        split; [exact Hcont |].
        exists (i :: before), j, after, (inr response :: outcomes), rd, trj.
        split; [reflexivity |].
        split; [simpl; exists tr1; split; [exact Hrun | exact Hsteps] |].
        split; [constructor; [exact I | exact Hall] | exact Hj].
      * destruct IH as (outcomes & final & Hsteps & Hfinal & Hall & ->).
        exists (inr response :: outcomes), final.
        split; [simpl; exists tr1; split; [reflexivity | exact Hsteps] |].
        split; [exact Hfinal |].
        split; [intros Hc; constructor; [exact I | exact (Hall Hc)] |].
        simpl. rewrite <- app_assoc. reflexivity.
Qed.

(** X13.  [execute] of the eight-operation node.  Without complete credentials,
    or when the client cannot be created, it fails with a
    [NodeOperationError] before any item is looked at, whatever the
    continue-on-fail setting.  Once connected it runs the operation for
    the items in order, each item from the trace left by the items before
    it.  With continue-on-fail it never fails and returns, for every item
    in order, the wrapped response of that item or one error item holding
    the message of the error of that item.  Without it, it returns the
    wrapped responses when every item succeeds, and otherwise fails with
    the error of the first failing item, the items before it having
    succeeded and nothing being submitted for the items after it. *)
Theorem execute_spec (getCredentials : JsError + Credentials)
    (createClient : Credentials -> JsError + Client) (tr : Trace) :
  let run := execute returnJsonArray constructExecutionMetaData continueOnFail
                     getNodeParameter operation items getCredentials createClient tr in
  let item := fun i => runOperation client operation (getNodeParameter i) items i in
  (forall credentials,
     getCredentials = inr credentials ->
     credentials_missing credentials = true ->
     run = (inl (NodeOperationError "Database URL and auth token are required"
                                    None None), tr))
  /\ (forall e,
        connect getCredentials createClient = inl e ->
        run = (inl e, tr)
        /\ exists message itemIndex description,
             e = NodeOperationError message itemIndex description)
  /\ (connect getCredentials createClient = inr client ->
      (continueOnFail = true -> exists out, fst run = inr out)
      /\ match fst run with
         | inr out =>
             exists outcomes final,
               went_through item (seq 0 (length items)) JUndefined tr outcomes final
               /\ snd final = snd run
               /\ (continueOnFail = false -> Forall succeeded outcomes)
               /\ out = [ concat (map (fun io =>
                                         contribution returnJsonArray
                                           constructExecutionMetaData
                                           (fst io) (snd io))
                                      (combine (seq 0 (length items)) outcomes)) ]
         | inl e =>
             continueOnFail = false
             /\ exists k outcomes responseData' tr',
                  k < length items
                  /\ went_through item (seq 0 k) JUndefined tr outcomes
                                  (responseData', tr')
                  /\ Forall succeeded outcomes
                  /\ item k responseData' tr' = (inl e, snd run)
         end).
Proof.
  intros run item. subst run item. unfold execute. split; [| split].
  - intros credentials -> Hmiss. unfold connect. simpl. rewrite Hmiss. reflexivity.
  - intros e He. rewrite He. split; [reflexivity |].
    unfold connect in He.
    destruct (bind_err getCredentials _) as [[m idx d | m c | m |] | cl];
      try discriminate He; injection He as <-; eexists; eexists; eexists; reflexivity.
  - intros Hc. rewrite Hc. unfold bind, ret.
    pose proof (execute_loop_run (seq 0 (length items)) JUndefined [] tr) as Hloop.
    fold loop.
    destruct (loop (seq 0 (length items)) JUndefined [] tr) as [[e | out] tr'];
      simpl in *.
    + destruct Hloop as (Hcont & before & i & after & outcomes & rd & tri
                         & Hsplit & Hsteps & Hall & Hrun).
      split; [intros Htrue; congruence |].
      split; [exact Hcont |].
      apply seq_split in Hsplit. destruct Hsplit as (Hbefore & Hi & Hlen).
      simpl in Hi. subst i.
      exists (length before), outcomes, rd, tri.
      rewrite <- Hbefore. auto.
    + destruct Hloop as (outcomes & final & Hsteps & Hfinal & Hall & ->).
      split; [intros _; eexists; reflexivity |].
      exists outcomes, final. auto.
Qed.

(** X14.  Every item index runs the operation on all the input items: when the
    parameters are the same for every item and the client answers every
    statement, insertRows submits its whole plan once per input item, so
    with [n] input items in input-items mode every record is inserted [n]
    times. *)
Theorem execute_repeats_plan (p : Param.t) (plan : list Statement)
    (getCredentials : JsError + Credentials)
    (createClient : Credentials -> JsError + Client) (tr : Trace) :
  operation = "insertRows" ->
  (forall i, getNodeParameter i = p) ->
  insertRows_plan p items 0 = inr plan ->
  connect getCredentials createClient = inr client ->
  answers_all client ->
  snd (execute returnJsonArray constructExecutionMetaData continueOnFail
               getNodeParameter operation items getCredentials createClient tr)
  = (tr ++ concat (repeat plan (length items)))%list.
Proof.
  intros Hop Hparams Hplan Hc Hclient. unfold execute. rewrite Hc. unfold bind, ret.
  assert (Hall : forall i, insertRows_plan p items i = inr plan).
  { intros i. eapply insertRows_plan_index. exact Hplan. }
  destruct (execute_loop_repeats p plan (seq 0 (length items)) Hop Hparams Hall Hclient
              JUndefined [] tr) as [Htr [out Hout]].
  fold loop. rewrite length_seq in Htr.
  destruct (loop (seq 0 (length items)) JUndefined [] tr) as [[e | out'] tr'];
    simpl in *; [discriminate Hout | exact Htr].
Qed.

End ExecuteLoop.

Lemma execute_spec_witness :
  let parameters :=
    fun i => query_parameters (if Nat.eqb i 0 then "" else "SELECT 1") [] in
  let run :=
    execute example_returnJsonArray example_constructExecutionMetaData true
            parameters "executeQuery" record_items
            (inr some_credentials) (fun _ => inr (constant_client empty_result)) [] in
  exists outcomes final,
    went_through (fun i => runOperation (constant_client empty_result) "executeQuery"
                                        (parameters i) record_items i)
                 [0; 1] JUndefined [] outcomes final
    /\ snd final = snd run
    /\ fst run
       = inr [ concat (map (fun io =>
                              contribution example_returnJsonArray
                                example_constructExecutionMetaData (fst io) (snd io))
                           (combine [0; 1] outcomes)) ].
Proof.
  intros parameters run.
  pose proof (proj2 (proj2 (proj2
                (execute_spec example_returnJsonArray example_constructExecutionMetaData
                   true parameters "executeQuery" record_items
                   (constant_client empty_result)
                   (inr some_credentials)
                   (fun _ => inr (constant_client empty_result)) []))
                eq_refl)) as H.
  destruct H as (outcomes & final & Hsteps & Hfinal & _ & Hout).
  exists outcomes, final. split; [exact Hsteps |]. split; [exact Hfinal |].
  exact (f_equal (@inr JsError (list (list JsVal))) Hout).
Defined.

Lemma execute_repeats_plan_witness :
  snd (execute example_returnJsonArray example_constructExecutionMetaData false
               (fun _ => record_insert) "insertRows" record_items
               (inr some_credentials)
               (fun _ => inr (constant_client empty_result)) [])
  = (record_plan ++ record_plan)%list.
Proof.
  apply (execute_repeats_plan example_returnJsonArray
           example_constructExecutionMetaData false (fun _ => record_insert)
           "insertRows" record_items (constant_client empty_result)
           record_insert record_plan (inr some_credentials)
           (fun _ => inr (constant_client empty_result)) []);
    try reflexivity.
  intros tr st. exists empty_result. reflexivity.
Defined.

Example execute_continue_run :
  execute example_returnJsonArray example_constructExecutionMetaData true
          (fun i => query_parameters (if Nat.eqb i 0 then "" else "SELECT 1") [])
          "executeQuery" record_items
          (inr some_credentials) (fun _ => inr (constant_client empty_result)) []
  = (inr [ [ JObj [("json", JObj [("error", JStr "SQL query cannot be empty")])];
             JObj [("item", JObj [("json", processedResult empty_result)]);
                   ("pairedItem", JNum 1)] ] ],
     [ {| sql := "SELECT 1"; args := [] |} ]).
Proof. reflexivity. Qed.

(** ** The loop of the two-operation node *)

Section NodesTursoLoop.

Variable returnJsonArray : JsVal -> list JsVal.
Variable constructExecutionMetaData : list JsVal -> nat -> list JsVal.
Variable prepareOutputData : list JsVal -> list (list JsVal).
Variable getNodeParameter : nat -> Param.t.
Variable operation : string.
Variable createClient : Credentials -> JsError + Client.

Lemma NodesTurso_loop_missing (credentials : Credentials) (indices : list nat) :
  credentials_missing credentials = true ->
  forall (responseData : JsVal) (returnData : list JsVal) (tr : Trace),
    NodesTursoExecute.execute_loop returnJsonArray constructExecutionMetaData true
      getNodeParameter operation (inr credentials) createClient
      indices responseData returnData tr
    = (inr (returnData
            ++ concat (map (fun i =>
                              constructExecutionMetaData
                                (returnJsonArray
                                   (JObj [("error",
                                           JStr "Database URL and auth token are required")]))
                                i) indices))%list, tr).
Proof.
  intros Hmiss. induction indices as [| i rest IH]; intros responseData returnData tr.
  - simpl. rewrite app_nil_r. reflexivity.
  - simpl. unfold NodesTursoExecute.runItem. rewrite bind_lift. simpl.
    rewrite Hmiss. rewrite IH, <- app_assoc. reflexivity.
Qed.

(** X15.  The two-operation node reads the credentials inside the loop, once per
    item.  With incomplete credentials and continue-on-fail it does not
    fail: it returns one error record per input item and submits nothing.
    Without continue-on-fail it fails at the first item; with no input
    item at all it succeeds with an empty output. *)
Theorem NodesTurso_execute_missing_credentials (credentials : Credentials)
    (items : list NodeExecutionData) (continueOnFail : bool) (tr : Trace) :
  credentials_missing credentials = true ->
  let run := NodesTursoExecute.execute returnJsonArray constructExecutionMetaData
               prepareOutputData continueOnFail getNodeParameter operation
               (inr credentials) createClient items tr in
  (continueOnFail = true ->
   run = (inr (prepareOutputData
                 (concat (map (fun i =>
                                 constructExecutionMetaData
                                   (returnJsonArray
                                      (JObj [("error",
                                              JStr "Database URL and auth token are required")]))
                                   i) (seq 0 (length items))))), tr))
  /\ (continueOnFail = false -> items <> [] ->
      run = (inl (NodeOperationError "Database URL and auth token are required"
                                     None None), tr))
  /\ (items = [] -> run = (inr (prepareOutputData []), tr)).
Proof.
  intros Hmiss run. subst run. unfold NodesTursoExecute.execute. split; [| split].
  - intros ->. unfold bind, ret.
    rewrite (NodesTurso_loop_missing credentials _ Hmiss). reflexivity.
  - intros -> Hne. destruct items as [| item rest]; [contradiction |].
    unfold bind. simpl. unfold NodesTursoExecute.runItem. rewrite bind_lift. simpl.
    rewrite Hmiss. reflexivity.
  - intros ->. reflexivity.
Qed.

End NodesTursoLoop.

Lemma NodesTurso_execute_missing_credentials_witness :
  NodesTursoExecute.execute example_returnJsonArray example_constructExecutionMetaData
    (fun returnData => [returnData]) true (fun _ => query_parameters "SELECT 1" [])
    "executeQuery" (inr {| databaseUrl := ""; authToken := "" |})
    (fun _ => inr (constant_client empty_result)) record_items []
  = (inr [ [ JObj [("item", JObj [("json", JObj [("error",
                      JStr "Database URL and auth token are required")])]);
                   ("pairedItem", JNum 0)];
             JObj [("item", JObj [("json", JObj [("error",
                      JStr "Database URL and auth token are required")])]);
                   ("pairedItem", JNum 1)] ] ], []).
Proof.
  apply (proj1 (NodesTurso_execute_missing_credentials example_returnJsonArray
                  example_constructExecutionMetaData (fun returnData => [returnData])
                  (fun _ => query_parameters "SELECT 1" []) "executeQuery"
                  (fun _ => inr (constant_client empty_result))
                  {| databaseUrl := ""; authToken := "" |} record_items true []
                  eq_refl)
               eq_refl).
Defined.

(** ** Where clauses *)

Lemma Forall_prefix {A : Type} (P : A -> Prop) (n : nat) :
  forall (xs : list A), Forall P xs -> Forall P (firstn n xs).
Proof.
  induction n as [| n IH]; intros xs H; simpl; [constructor |].
  destruct H as [| x rest Hx Hrest]; constructor; auto.
Qed.

Section WhereClauses.

Variable client : Client.

(** X16.  updateRows never submits an UPDATE without a WHERE clause: whenever it
    submits anything, the table name, the column list and the where clause
    are non-blank and every statement submitted is
    [UPDATE <table> SET ... WHERE <whereClause>]; with a blank where
    clause it fails with a validation error, nothing submitted, whatever
    the data source holds. *)
Theorem updateRows_requires_where (p : Param.t) (items : list NodeExecutionData)
    (i : nat) (tr : Trace) :
  (Js.blank (Param.whereClause p) = true ->
   exists message,
     updateRows client p items i tr = (inl (operationError message i), tr))
  /\ (snd (updateRows client p items i tr) <> tr ->
      Js.blank (Param.table p) = false
      /\ Param.columns p <> []
      /\ Js.blank (Param.whereClause p) = false
      /\ exists submitted,
           snd (updateRows client p items i tr) = (tr ++ submitted)%list
           /\ Forall (fun st =>
                        sql st = "UPDATE " ++ Param.table p ++ " SET "
                                 ++ setClause (Param.columns p) ++ " WHERE "
                                 ++ Param.whereClause p)
                     submitted).
Proof.
  rewrite updateRows_unfold. split.
  - intros Hb. unfold updateRows_plan, updateRows_rows.
    destruct (Js.blank (Param.table p)); [eexists; reflexivity |].
    destruct (Nat.eqb (length (Param.columns p)) 0); [eexists; reflexivity |].
    rewrite Hb. eexists. reflexivity.
  - destruct (updateRows_plan p items i) as [e | plan] eqn:Hplan.
    + intros Hne. contradiction Hne. reflexivity.
    + intros _.
      unfold updateRows_plan, updateRows_rows in Hplan.
      destruct (Js.blank (Param.table p)); [discriminate Hplan |].
      destruct (Nat.eqb_spec (length (Param.columns p)) 0) as [Hk | Hk];
        [discriminate Hplan |].
      destruct (Js.blank (Param.whereClause p)); [discriminate Hplan |].
      destruct (collectRows _ _ _ p items i) as [e | rows]; simpl in Hplan;
        [discriminate Hplan |].
      injection Hplan as <-.
      split; [reflexivity |].
      split; [intros Hnil; rewrite Hnil in Hk; contradiction Hk; reflexivity |].
      split; [reflexivity |].
      destruct (executeRows_spec client affectedResult i "Update Rows"
                  (statements (updateQuery p) rows) [] tr)
        as (m & _ & _ & Htr & _).
      exists (firstn m (statements (updateQuery p) rows)). split.
      * destruct (executeRows client (statements (updateQuery p) rows)
                    affectedResult i "Update Rows" [] tr) as [[e | rs] tr'];
          exact Htr.
      * apply Forall_prefix. unfold statements. apply Forall_map.
        apply Forall_forall. intros row _. reflexivity.
Qed.

(** X17.  The where clause of selectRows is used only when the where option is
    set: without it no WHERE is written and the statement has no args,
    whatever the where fields hold; with it a blank clause is refused with
    a validation error and nothing submitted, and otherwise
    [ WHERE <clause>] comes right after the table name, before any ORDER BY
    and LIMIT, and the args are the where parameters in their order. *)
Theorem selectRows_where_spec (p : Param.t) (i : nat) (tr : Trace) :
  (Param.useWhere p = true -> Js.blank (Param.whereClauseSelect p) = true ->
   exists message,
     selectRows client p i tr = (inl (operationError message i), tr))
  /\ (forall st,
        selectRows_statement p i = inr st ->
        exists clause tail,
          columnsList p i = inr clause
          /\ (Param.useWhere p = false ->
              sql st = "SELECT " ++ clause ++ " FROM " ++ Param.table p ++ tail
              /\ args st = [])
          /\ (Param.useWhere p = true ->
              sql st = "SELECT " ++ clause ++ " FROM " ++ Param.table p
                       ++ " WHERE " ++ Param.whereClauseSelect p ++ tail
              /\ args st = map JStr (map value (Param.whereParamsSelect p)))
          /\ exists order lim,
               orderByClause p i = inr order /\ limitOffsetClause p i = inr lim
               /\ tail = order ++ lim).
Proof.
  split.
  - intros Hw Hb.
    destruct (selectRows_statement p i) as [e | st] eqn:Hst.
    + destruct (selectRows_statement_error p i e Hst) as [message ->].
      exists message. apply selectRows_refused. exact Hst.
    + exfalso. apply selectRows_statement_inv in Hst.
      destruct Hst as (clause & order & lim & _ & _ & _ & _ & Hwhere & _).
      rewrite (Hwhere Hw) in Hb. discriminate Hb.
  - intros st Hst. apply selectRows_statement_inv in Hst.
    destruct Hst as (clause & order & lim & _ & Hc & Ho & Hl & _ & Hsql & Hargs).
    exists clause, (order ++ lim). split; [exact Hc |].
    split; [| split].
    + intros Hw. rewrite Hw in Hsql, Hargs. split; [exact Hsql | exact Hargs].
    + intros Hw. rewrite Hw in Hsql, Hargs. split; [| exact Hargs].
      rewrite Hsql, !append_assoc. reflexivity.
    + exists order, lim. auto.
Qed.

End WhereClauses.

Lemma updateRows_requires_where_witness :
  exists message,
    updateRows (constant_client empty_result)
               (row_parameters "t" ["name"] "manualInput" ["ann"] "data" " " [])
               [] 0 []
    = (inl (operationError message 0), []).
Proof.
  apply (proj1 (updateRows_requires_where (constant_client empty_result)
                  (row_parameters "t" ["name"] "manualInput" ["ann"] "data" " " [])
                  [] 0 [])).
  reflexivity.
Defined.

Lemma selectRows_where_spec_witness :
  exists message,
    selectRows (constant_client empty_result)
               (select_parameters "t" true [] (Some ("  ", ["1"])) None None) 0 []
    = (inl (operationError message 0), []).
Proof.
  apply (proj1 (selectRows_where_spec (constant_client empty_result)
                  (select_parameters "t" true [] (Some ("  ", ["1"])) None None) 0 []));
    reflexivity.
Defined.

Example selectRows_where_ignored_run :
  selectRows_statement
    {| Param.query := ""; Param.queryParams := []; Param.queries := [];
       Param.table := "t"; Param.columns := ["a"]; Param.dataSource := "inputItems";
       Param.valueItems := []; Param.itemsPath := "data";
       Param.whereClause := ""; Param.whereParams := [];
       Param.selectAllColumns := false; Param.useWhere := false;
       Param.whereClauseSelect := "a = ?"; Param.whereParamsSelect := values_of ["1"];
       Param.useOrderBy := false; Param.orderBy := ""; Param.orderDirection := "ASC";
       Param.useLimit := false; Param.limit := 100; Param.offset := 0 |} 0
  = inr {| sql := "SELECT a FROM t"; args := [] |}.
Proof. reflexivity. Qed.
